(** * gonetica: the inference-serving layer over the Netica engine

    A shallow embedding of the Go packages [gonetica] (environment.go,
    network.go, node.go) and [gncli/cmd] (serve.go, serveJSON.go).

    The Netica C library is reached through cgo and is a black box for the
    Go code: it is modelled as an interface ([Engine]) whose operations act
    on an abstract engine state.  Everything the Go code itself does (error
    draining, rollback, evidence parsing, the batch loop, the registry) is
    written out as the source has it, in a state monad that also records
    panics. *)

From Stdlib Require Import ZArith String Ascii List Lia DecimalString Sorted.
From Stdlib Require DecimalPos DecimalZ.
From Stdlib Require Import Floats.PrimFloat.
From stdpp Require Import base gmap strings list.

Local Open Scope string_scope.
Local Open Scope Z_scope.

(** ** Go values *)

(** Go's [float64] is IEEE 754 binary64, the kernel's primitive floats. *)
Abbreviation float64 := PrimFloat.float.

(** A Go [error] value: [nil] or a message (every error of these packages
    is built by [errors.New] or [fmt.Errorf]). *)
Abbreviation error := (option string).
Abbreviation nil_error := (@None string).

(** C pointers ([*C.net_bn], [*C.node_bn]) are addresses; 0 is [nil]. *)
Abbreviation cnet := N.
Abbreviation cnode := N.

(** [strconv.Itoa] and the verb [%d] of [fmt]. *)
Definition Itoa (z : Z) : string := NilZero.string_of_int (Z.to_int z).

(** [strings.Join]. *)
Fixpoint Join (elems : list string) (sep : string) : string :=
  match elems with
  | [] => ""
  | [x] => x
  | x :: rest => x +:+ sep +:+ Join rest sep
  end.

(** [strings.HasPrefix] and [strings.TrimPrefix]. *)
Definition HasPrefix (s prefix : string) : bool := String.prefix prefix s.

Definition TrimPrefix (s prefix : string) : string :=
  if HasPrefix s prefix
  then String.substring (String.length prefix)
         (String.length s - String.length prefix) s
  else s.

(** [strconv.Atoi] on a 64-bit platform: an optional sign, then one or more
    decimal digits, and the value must fit an [int]; [None] stands for a
    non-nil error. *)
Definition digit_of (a : ascii) : option Z :=
  let n := Z.of_N (N_of_ascii a) in
  if (48 <=? n) && (n <=? 57) then Some (n - 48) else None.

Fixpoint parse_digits (s : string) (acc : Z) : option Z :=
  match s with
  | EmptyString => Some acc
  | String a rest =>
      match digit_of a with
      | Some d => parse_digits rest (10 * acc + d)
      | None => None
      end
  end.

Definition Atoi (s : string) : option Z :=
  let '(neg, body) :=
    match s with
    | String "-"%char rest => (true, rest)
    | String "+"%char rest => (false, rest)
    | _ => (false, s)
    end in
  match body with
  | EmptyString => None
  | _ =>
      match parse_digits body 0 with
      | Some n =>
          let v := if neg then - n else n in
          if (- 2 ^ 63 <=? v) && (v <? 2 ^ 63) then Some v else None
      | None => None
      end
  end.

(** The conversion [C.state_bn(state)] of a Go [int] to a C [int]: the low
    32 bits, read as a signed number. *)
Definition to_C_int (z : Z) : Z := (z + 2 ^ 31) mod 2 ^ 32 - 2 ^ 31.

(** The parts of Go's standard library whose results the code only passes
    on: [strconv.ParseFloat(s, 64)] ([None] for a non-nil error),
    [strconv.FormatFloat(v, 'E', -1, 64)], and the order in which [range]
    visits the entries of a map (unspecified in Go).  [os_Open] is the
    error of opening a file, [ioutil_ReadAll] its contents or the error of
    reading it. *)
Class GoRuntime := {
  ParseFloat : string -> option float64;
  FormatFloat : float64 -> string;
  rangeOrder : forall {V : Type}, list (string * V) -> list (string * V);
  (* the file system and package path/filepath, used when networks load *)
  os_Open : string -> error;
  ioutil_ReadAll : string -> string + string;
  filepath_Base : string -> string;
  filepath_Rel : string -> string -> string;
}.

(** ** The engine interface *)

(** A finding entered for a node: a state ([EnterFinding_bn]) or a real
    value ([EnterNodeValue_bn]). *)
Inductive finding :=
| StateFinding (state : Z)
| ValueFinding (value : float64).

(** An error report of the engine ([report_ns]). *)
Record report := mkReport { ErrorNumber_ns : Z; ErrorMessage_ns : string }.

(** The calls of the Netica C API that the Go code makes.  The engine
    keeps its own state ([core]).  A call may raise error reports; the
    reports wait in the environment's queue until [Environment.Errors]
    drains them.  Calls that read ([query]) leave the engine state as it
    is; calls that write ([command], [action]) return a new one.
    [findings] is what a network currently holds as evidence: it is the
    observation the rollback claims are about. *)
Class Engine := {
  core : Type;
  findings : core -> cnet -> gmap cnode finding;
  (* constants of Netica.h *)
  UNDEF_STATE : Z;
  GetUndefDbl_ns : float64;
  DISCRETE_TYPE : Z;
  CONTINUOUS_TYPE : Z;
  (* nodes: reads *)
  GetNodeName_bn : cnode -> core -> string * list report;
  GetNodeTitle_bn : cnode -> core -> string * list report;
  GetNodeComment_bn : cnode -> core -> string * list report;
  GetNodeType_bn : cnode -> core -> Z * list report;
  GetStateNamed_bn : string -> cnode -> core -> Z * list report;
  GetNodeNumberStates_bn : cnode -> core -> Z * list report;
  GetNodeStateName_bn : cnode -> Z -> core -> string * list report;
  GetNodeLevels_bn : cnode -> core -> option (Z -> float64) * list report;
  GetNodeBeliefs_bn : cnode -> core -> (Z -> float64) * list report;
  GetNodeExpectedValue_bn : cnode -> core -> (float64 * float64) * list report;
  (* nodes: writes *)
  EnterFinding_bn : cnode -> Z -> core -> list report * core;
  EnterNodeValue_bn : cnode -> float64 -> core -> list report * core;
  RetractNodeFindings_bn : cnode -> core -> list report * core;
  (* networks *)
  GetNetName_bn : cnet -> core -> string * list report;
  GetNetTitle_bn : cnet -> core -> string * list report;
  GetNetComment_bn : cnet -> core -> string * list report;
  GetNodeNamed_bn : string -> cnet -> core -> cnode * list report;
  GetNetNodes2_bn : cnet -> core -> list cnode * list report;
  RetractNetFindings_bn : cnet -> core -> list report * core;
  (* loading *)
  stream_ns : Type;
  NewMemoryStream_ns : string -> core -> stream_ns * list report * core;
  DeleteStream_ns : stream_ns -> core -> list report * core;
  SetStreamContents_ns : stream_ns -> string -> core -> list report * core;
  ReadNet_bn : stream_ns -> core -> cnet * list report * core;
  CompileNet_bn : cnet -> core -> list report * core;
  SetNetAutoUpdate_bn : cnet -> Z -> core -> list report * core;
  DeleteNet_bn : cnet -> core -> list report * core;
}.

(** What the Go code relies on when it retracts findings: after
    [RetractNetFindings_bn] the network holds no finding, and after
    [RetractNodeFindings_bn] the node holds none in any network, whether or
    not the call also raised a report. *)
Class EngineRetracts (E : Engine) : Prop := {
  RetractNetFindings_bn_clears :
    forall net c, findings (RetractNetFindings_bn net c).2 net = ∅;
  RetractNodeFindings_bn_clears :
    forall node c net, findings (RetractNodeFindings_bn node c).2 net !! node = None;
}.

(** ** Program state and the monad of the embedding *)

(** A [sync.RWMutex]: held by a writer, or by some readers. *)
Record RWMutex := mkRWMutex { writer : bool; readers : nat }.

(** Lock events, recorded so that claims can speak about the moment a
    lock is released: [Released] carries the findings the network held at
    that moment. *)
Inductive event :=
| Acquired (net : cnet)
| Released (net : cnet) (held : gmap cnode finding).

Inductive outcome (A : Type) :=
| Returns (a : A)
| Panics (msg : string)
| Blocks.
Arguments Returns {A} a.
Arguments Panics {A} msg.
Arguments Blocks {A}.

Section Monad.
Context {E : Engine}.

(** [Environment] (the engine handle, its error queue and the lock
    table [netlocks]) together with what the process writes to its log
    and the history of lock events. *)
Record State := mkState {
  eng : core;
  errq : list report;
  netlocks : gmap cnet RWMutex;
  logged : list string;
  history : list event;
}.

Definition M (A : Type) : Type := State -> outcome A * State.

Definition ret {A} (a : A) : M A := fun s => (Returns a, s).

Definition bind {A B} (m : M A) (k : A -> M B) : M B :=
  fun s =>
    match m s with
    | (Returns a, s') => k a s'
    | (Panics msg, s') => (Panics msg, s')
    | (Blocks, s') => (Blocks, s')
    end.

Definition panic {A} (msg : string) : M A := fun s => (Panics msg, s).

Definition with_eng (c : core) (rs : list report) (s : State) : State :=
  mkState c (errq s ++ rs) (netlocks s) (logged s) (history s).

(** A reading call: the reports it raises join the queue. *)
Definition ask {A} (q : core -> A * list report) : M A :=
  fun s => let '(a, rs) := q (eng s) in (Returns a, with_eng (eng s) rs s).

(** A writing call. *)
Definition tell (f : core -> list report * core) : M unit :=
  fun s => let '(rs, c) := f (eng s) in (Returns tt, with_eng c rs s).

(** A writing call with a result. *)
Definition act {A} (f : core -> A * list report * core) : M A :=
  fun s => let '(a, rs, c) := f (eng s) in (Returns a, with_eng c rs s).

(** [log.Println]. *)
Definition Println (line : string) : M unit :=
  fun s => (Returns tt,
            mkState (eng s) (errq s) (netlocks s) (logged s ++ [line]) (history s)).

(** A counted loop [for index := 0; index < length; index++] whose body
    appends one element. *)
Fixpoint for_each {A B} (body : A -> M B) (l : list A) : M (list B) :=
  match l with
  | [] => ret []
  | a :: rest =>
      bind (body a) (fun b => bind (for_each body rest) (fun bs => ret (b :: bs)))
  end.

Definition indices (length : Z) : list Z := seqZ 0 length.
End Monad.

Notation "x <- m ;; k" := (bind m (fun x => k))
  (at level 100, m at next level, right associativity).
Notation "m ;;; k" := (bind m (fun _ => k))
  (at level 100, right associativity).

(** ** Package gonetica *)

Definition newline : string := String "010"%char EmptyString.

(** [Network] and [Node] wrap the engine's pointers; the [env] field of a
    network is the one environment of the process, the [State]. *)
Record Network := mkNetwork { Network_c : cnet }.
Record Node := mkNode { Node_c : cnode; Net : Network }.

Section Gonetica.
Context {E : Engine} {G : GoRuntime}.

(** *** environment.go *)

(** The loop of [Environment.Errors]: take the first pending report, save
    its message, clear it, until none is left. *)
Fixpoint drain (pending : list report) (messages : list string) : list string :=
  match pending with
  | [] => messages
  | cRep :: rest =>
      drain rest
        (messages ++ [Itoa (ErrorNumber_ns cRep) +:+ " - " +:+ ErrorMessage_ns cRep])
  end.

Definition Environment_Errors : M error :=
  fun s =>
    let messages := drain (errq s) [] in
    (Returns (match messages with
              | [] => None
              | _ => Some (Join messages newline)
              end),
     mkState (eng s) [] (netlocks s) (logged s) (history s)).

(** *** network.go, first part *)

Definition Network_Errors (net : Network) : M error := Environment_Errors.

Definition Network_Name (net : Network) : M string :=
  ask (GetNetName_bn (Network_c net)).

Definition Network_Title (net : Network) : M string :=
  ask (GetNetTitle_bn (Network_c net)).

Definition Network_Comment (net : Network) : M string :=
  ask (GetNetComment_bn (Network_c net)).

(** *** node.go *)

Definition Node_Errors (node : Node) : M error := Network_Errors (Net node).

Definition Node_Name (node : Node) : M string :=
  ask (GetNodeName_bn (Node_c node)).

Definition Node_Title (node : Node) : M string :=
  ask (GetNodeTitle_bn (Node_c node)).

Definition Node_Comment (node : Node) : M string :=
  ask (GetNodeComment_bn (Node_c node)).

Definition Node_IsDiscreteType (node : Node) : M bool :=
  t <- ask (GetNodeType_bn (Node_c node)) ;; ret (t =? DISCRETE_TYPE).

Definition Node_IsContinuousType (node : Node) : M bool :=
  t <- ask (GetNodeType_bn (Node_c node)) ;; ret (t =? CONTINUOUS_TYPE).

Definition Node_StateNamed (node : Node) (name : string) : M (Z * error) :=
  cIndex <- ask (GetStateNamed_bn name (Node_c node)) ;;
  err <- Node_Errors node ;;
  match err with
  | Some e => ret (0, Some e)
  | None =>
      if cIndex =? UNDEF_STATE then
        nodeName <- Node_Name node ;;
        ret (0, Some ("In function Node.StateNamed: state " +:+ name
                      +:+ " not defined for node " +:+ nodeName))
      else ret (cIndex, None)
  end.

Definition Node_StateNameList (node : Node) : M (list string * error) :=
  length <- ask (GetNodeNumberStates_bn (Node_c node)) ;;
  stateNames <- for_each (fun index => ask (GetNodeStateName_bn (Node_c node) index))
                  (indices length) ;;
  err <- Node_Errors node ;;
  match err with
  | Some e => ret ([], Some e)
  | None => ret (stateNames, None)
  end.

Definition Node_LevelList (node : Node) : M (list float64 * error) :=
  cLevels <- ask (GetNodeLevels_bn (Node_c node)) ;;
  match cLevels with
  | None => ret ([], None)
  | Some NthLevel_bn =>
      length <- ask (GetNodeNumberStates_bn (Node_c node)) ;;
      continuous <- Node_IsContinuousType node ;;
      let length := if continuous then length + 1 else length in
      let levels := map NthLevel_bn (indices length) in
      err <- Node_Errors node ;;
      match err with
      | Some e => ret ([], Some e)
      | None => ret (levels, None)
      end
  end.

Definition Node_ClearFindings (node : Node) : M error :=
  tell (RetractNodeFindings_bn (Node_c node)) ;;;
  Node_Errors node.

Definition Node_SetState (node : Node) (state : Z) : M error :=
  tell (EnterFinding_bn (Node_c node) (to_C_int state)) ;;;
  err <- Node_Errors node ;;
  match err with
  | Some e => _ <- Node_ClearFindings node ;; ret (Some e)
  | None => ret None
  end.

Definition Node_SetValue (node : Node) (value : float64) : M error :=
  tell (EnterNodeValue_bn (Node_c node) value) ;;;
  err <- Node_Errors node ;;
  match err with
  | Some e => _ <- Node_ClearFindings node ;; ret (Some e)
  | None => ret None
  end.

Definition Node_EnterFinding (node : Node) (evidence : string) : M error :=
  match ParseFloat evidence with
  | Some value => Node_SetValue node value
  | None =>
      let by_name :=
        r <- Node_StateNamed node evidence ;;
        match r with
        | (_, Some e) => ret (Some e)
        | (index, None) => Node_SetState node index
        end in
      if HasPrefix evidence "#" then
        let state := TrimPrefix evidence "#" in
        match Atoi state with
        | Some index => Node_SetState node index
        | None => by_name
        end
      else by_name
  end.

Definition Node_BeliefList (node : Node) : M (list float64 * error) :=
  NthProb_bn <- ask (GetNodeBeliefs_bn (Node_c node)) ;;
  length <- ask (GetNodeNumberStates_bn (Node_c node)) ;;
  let beliefs := map NthProb_bn (indices length) in
  err <- Node_Errors node ;;
  match err with
  | Some e => ret ([], Some e)
  | None => ret (beliefs, None)
  end.

(** The loop of [Node.State]: [for index, belief := range beliefList]. *)
Fixpoint State_loop (beliefList : list float64) (index maxIndex : Z)
    (maxBelief : float64) : Z :=
  match beliefList with
  | [] => maxIndex
  | belief :: rest =>
      if PrimFloat.ltb maxBelief belief
      then State_loop rest (index + 1) index belief
      else State_loop rest (index + 1) maxIndex maxBelief
  end.

Definition Node_State (node : Node) : M (Z * error) :=
  r <- Node_BeliefList node ;;
  match r with
  | (_, Some e) => ret (0, Some e)
  | (beliefList, None) =>
      match beliefList with
      | [] => panic "runtime error: index out of range [0] with length 0"
      | maxBelief :: _ => ret (State_loop beliefList 0 0 maxBelief, None)
      end
  end.

Definition undefined_expected_value : string :=
  "In function Node.Value: undefined expected value".

Definition Node_Value (node : Node) : M (float64 * float64 * error) :=
  r <- ask (GetNodeExpectedValue_bn (Node_c node)) ;;
  let '(cValue, cStdDev) := r in
  err <- Node_Errors node ;;
  match err with
  | Some e => ret (0%float, 0%float, Some e)
  | None =>
      if PrimFloat.eqb cValue GetUndefDbl_ns
      then ret (0%float, 0%float, Some undefined_expected_value)
      else ret (cValue, cStdDev, None)
  end.

Definition Node_Infer (node : Node) : M (string * error) :=
  r <- Node_Value node ;;
  match r with
  | (value, _, None) => ret (FormatFloat value, None)
  | (_, _, Some _) =>
      r <- Node_State node ;;
      match r with
      | (index, None) =>
          cName <- ask (GetNodeStateName_bn (Node_c node) (to_C_int index)) ;;
          err <- Node_Errors node ;;
          match err with
          | Some e => ret ("", Some e)
          | None =>
              if String.eqb cName "" then ret ("#" +:+ Itoa index, None)
              else ret (cName, None)
          end
      | (_, Some e) => ret ("", Some e)
      end
  end.

(** *** network.go, second part *)

Definition Network_NodeNamed (net : Network) (name : string) : M (option Node * error) :=
  cNode <- ask (GetNodeNamed_bn name (Network_c net)) ;;
  if (cNode =? 0)%N then
    netName <- Network_Name net ;;
    ret (None, Some ("In function Network.NodeNamed: node " +:+ name
                     +:+ " not defined for network " +:+ netName))
  else ret (Some (mkNode cNode net), None).

(** The loop of [Network.NodeMap], from the last node of the engine's list
    to the first. *)
Fixpoint NodeMap_loop (net : Network) (cNodes : list cnode)
    (nodes : gmap string Node) : M (gmap string Node) :=
  match cNodes with
  | [] => ret nodes
  | cNode :: rest =>
      let node := mkNode cNode net in
      name <- Node_Name node ;;
      NodeMap_loop net rest (<[name := node]> nodes)
  end.

Definition Network_NodeMap (net : Network) : M (gmap string Node * error) :=
  cNodes <- ask (GetNetNodes2_bn (Network_c net)) ;;
  nodes <- NodeMap_loop net (rev cNodes) ∅ ;;
  err <- Network_Errors net ;;
  match err with
  | Some e => ret (∅, Some e)
  | None => ret (nodes, None)
  end.

(** [sort.Strings]: ascending, bytes compared as unsigned numbers. *)
Fixpoint insert_sorted (x : string) (l : list string) : list string :=
  match l with
  | [] => [x]
  | y :: rest => if String.leb x y then x :: l else y :: insert_sorted x rest
  end.

Definition sort_Strings (names : list string) : list string :=
  foldr insert_sorted [] names.

Definition Network_NodeList (net : Network) : M (list Node * error) :=
  r <- Network_NodeMap net ;;
  match r with
  | (_, Some e) => ret ([], Some e)
  | (nodeMap, None) =>
      let names := (rangeOrder (map_to_list nodeMap)).*1 in
      let names := sort_Strings names in
      ret (omap (fun name => nodeMap !! name) names, None)
  end.

Definition Network_ClearCases (net : Network) : M error :=
  tell (RetractNetFindings_bn (Network_c net)) ;;;
  Network_Errors net.

(** The loop of [Network.EnterCase] over the entries of [nodeMap]. *)
Fixpoint EnterCase_loop (net : Network) (caseMap : gmap string string)
    (entries : list (string * Node)) : M error :=
  match entries with
  | [] => ret None
  | (name, node) :: rest =>
      match caseMap !! name with
      | Some evidence =>
          err <- Node_EnterFinding node evidence ;;
          match err with
          | Some e => _ <- Network_ClearCases net ;; ret (Some e)
          | None => EnterCase_loop net caseMap rest
          end
      | None => EnterCase_loop net caseMap rest
      end
  end.

Definition Network_EnterCase (net : Network) (caseMap : gmap string string) : M error :=
  r <- Network_NodeMap net ;;
  match r with
  | (_, Some e) => ret (Some e)
  | (nodeMap, None) =>
      EnterCase_loop net caseMap (rangeOrder (map_to_list nodeMap))
  end.

(** [Network.Lock] and [Network.Unlock] go through the lock table of the
    environment; a network that is not in the table has a nil mutex. *)
Definition set_lock (c : cnet) (mu : RWMutex) (ev : event) (s : State) : State :=
  mkState (eng s) (errq s) (<[c := mu]> (netlocks s)) (logged s) (history s ++ [ev]).

Definition Network_Lock (net : Network) : M unit :=
  fun s =>
    match netlocks s !! Network_c net with
    | None => (Panics "invalid memory address or nil pointer dereference", s)
    | Some mu =>
        if writer mu || negb (Nat.eqb (readers mu) 0) then (Blocks, s)
        else (Returns tt,
              set_lock (Network_c net) (mkRWMutex true 0) (Acquired (Network_c net)) s)
    end.

Definition Network_Unlock (net : Network) : M unit :=
  fun s =>
    match netlocks s !! Network_c net with
    | None => (Panics "invalid memory address or nil pointer dereference", s)
    | Some mu =>
        if writer mu then
          (Returns tt,
           set_lock (Network_c net) (mkRWMutex false 0)
             (Released (Network_c net) (findings (eng s) (Network_c net))) s)
        else (Panics "sync: Unlock of unlocked RWMutex", s)
    end.

(** A deferred call runs when the function returns, on every path. *)
Definition defer {A} (deferred : M unit) (body : M A) : M A :=
  a <- body ;; deferred ;;; ret a.

(** Each engine call of [NewNetwork] is followed by the same check. *)
Definition check {A} (fail : error -> A) (next : M A) : M A :=
  err <- Environment_Errors ;;
  match err with
  | Some e => ret (fail (Some e))
  | None => next
  end.

Definition register_lock (c : cnet) : M unit :=
  fun s => (Returns tt,
            mkState (eng s) (errq s) (<[c := mkRWMutex false 0]> (netlocks s))
              (logged s) (history s)).

Definition NewNetwork (path : string) : M (option Network * error) :=
  let fail := fun e : error => (@None Network, e) in
  match os_Open path with
  | Some e => ret (fail (Some e))
  | None =>
      let name := filepath_Base path in
      check fail (
      cStrm <- act (NewMemoryStream_ns name) ;;
      defer (tell (DeleteStream_ns cStrm)) (
      check fail (
      match ioutil_ReadAll path with
      | inr e => ret (fail (Some e))
      | inl buf =>
          tell (SetStreamContents_ns cStrm buf) ;;;
          check fail (
          c <- act (ReadNet_bn cStrm) ;;
          check fail (
          tell (CompileNet_bn c) ;;;
          check fail (
          tell (RetractNetFindings_bn c) ;;;
          check fail (
          tell (SetNetAutoUpdate_bn c 0) ;;;
          check fail (
          register_lock c ;;;
          ret (Some (mkNetwork c), None))))))
      end)))
  end.

Definition unregister_lock (c : cnet) : M unit :=
  fun s => (Returns tt,
            mkState (eng s) (errq s) (delete c (netlocks s)) (logged s) (history s)).

Definition Network_CloseNetwork (net : Network) : M error :=
  tell (DeleteNet_bn (Network_c net)) ;;;
  unregister_lock (Network_c net) ;;;
  Network_Errors net.

End Gonetica.

(** ** Package cmd *)

(** [filepath.Ext]: the suffix from the last dot of the last path element
    (the separator is the slash). *)
Fixpoint Ext_scan (rev_path : list ascii) (suffix : list ascii) : list ascii :=
  match rev_path with
  | [] => []
  | a :: rest =>
      if Ascii.eqb a "/"%char then []
      else if Ascii.eqb a "."%char then a :: suffix
      else Ext_scan rest (a :: suffix)
  end.

Definition filepath_Ext (path : string) : string :=
  string_of_list_ascii (Ext_scan (rev (list_ascii_of_string path)) []).

(** The JSON structures of serveJSON.go. *)
Record nodeJSON := mkNodeJSON {
  nodeJSON_Index : Z;
  nodeJSON_Name : string;
  nodeJSON_Title : string;
  nodeJSON_Comment : string;
  nodeJSON_States : list string;
  nodeJSON_Levels : list float64;
}.

Record netJSON := mkNetJSON {
  netJSON_Index : Z;
  netJSON_Name : string;
  netJSON_Title : string;
  netJSON_Comment : string;
  netJSON_Nodes : list nodeJSON;
}.

Record caseJSON := mkCaseJSON {
  caseJSON_ID : string;
  caseJSON_Cases : list (gmap string string);
}.

Record singleJSON := mkSingleJSON {
  singleJSON_Index : Z;
  singleJSON_Error : string;
  singleJSON_Value : string;
}.

Record batchJSON := mkBatchJSON {
  batchJSON_ID : string;
  batchJSON_Results : list singleJSON;
}.

(** The package variables the handlers read. *)
Record Globals := mkGlobals {
  netList : list Network;
  netLookup : gmap string Network;
  netJSONList : list netJSON;
  netsJSON : gmap string netJSON;
}.

(** A request as the handlers see it: the two path parameters and what
    [DecodeJsonPayload] makes of the body. *)
Record Request := mkRequest {
  netid : string;
  nodeid : string;
  payload : caseJSON + string;
}.

(** What a handler writes. *)
Inductive Response :=
| WriteNets (list_ : list netJSON)
| WriteNet (repr : netJSON)
| WriteNodes (nodes : list nodeJSON)
| WriteNode (node : nodeJSON)
| WriteBatch (batch : batchJSON)
| NotFound
| InternalServerError (msg : string).

(** One entry of [filepath.Walk]: its path and its [os.FileInfo] (nil when
    the entry could not be examined). *)
Record FileInfo := mkFileInfo { IsDir : bool }.

Section Cmd.
Context {E : Engine} {G : GoRuntime}.

(** *** serve.go *)

(** The function that [indexNets] hands to [filepath.Walk]; [nets] and
    [lookup] are the variables it closes over.  It always returns nil, so
    the walk visits every entry. *)
Definition indexNets_visit (root : string)
    (acc : list Network * gmap string Network)
    (entry : string * option FileInfo)
    : M (list Network * gmap string Network) :=
  let '(nets, lookup) := acc in
  let '(path, info) := entry in
  match info with
  | None => panic "invalid memory address or nil pointer dereference"
  | Some info =>
      if negb (IsDir info)
         && (String.eqb (filepath_Ext path) ".dne"
             || String.eqb (filepath_Ext path) ".neta") then
        r <- NewNetwork path ;;
        match r with
        | (_, Some e) => Println e ;;; ret (nets, lookup)
        | (None, None) => panic "invalid memory address or nil pointer dereference"
        | (Some net, None) =>
            name <- Network_Name net ;;
            let relPath := filepath_Rel root path in
            match lookup !! name with
            | Some _ =>
                _ <- Network_CloseNetwork net ;;
                Println ("In function serve: network named " +:+ name
                         +:+ " already loaded from path " +:+ relPath) ;;;
                ret (nets, lookup)
            | None =>
                let nets := (nets ++ [net])%list in
                let lookup := <[name := net]> lookup in
                let lookup := <[Itoa (Z.of_nat (length nets) - 1) := net]> lookup in
                ret (nets, lookup)
            end
        end
      else ret (nets, lookup)
  end.

Fixpoint Walk (root : string) (entries : list (string * option FileInfo))
    (acc : list Network * gmap string Network)
    : M (list Network * gmap string Network) :=
  match entries with
  | [] => ret acc
  | entry :: rest =>
      acc <- indexNets_visit root acc entry ;;
      Walk root rest acc
  end.

(** [indexNets], given the entries the walk of [dir] visits, in order. *)
Definition indexNets (root : string) (entries : list (string * option FileInfo))
    : M (list Network * gmap string Network * error) :=
  r <- Walk root entries ([], ∅) ;;
  ret (r.1, r.2, None).

(** *** serveJSON.go *)

(** The inner loop of [buildJSON]; it stops at the first node whose
    states or levels cannot be read. *)
Fixpoint buildJSON_nodes (index : Z) (nodeList : list Node) (nodes : list nodeJSON)
    : M (list nodeJSON) :=
  match nodeList with
  | [] => ret nodes
  | node :: rest =>
      name <- Node_Name node ;;
      title <- Node_Title node ;;
      comment <- Node_Comment node ;;
      r <- Node_StateNameList node ;;
      match r with
      | (_, Some _) => ret nodes
      | (names, None) =>
          r <- Node_LevelList node ;;
          match r with
          | (_, Some _) => ret nodes
          | (levels, None) =>
              buildJSON_nodes (index + 1) rest
                (nodes ++ [mkNodeJSON index name title comment names levels])
          end
      end
  end.

(** The outer loop of [buildJSON] over [netList]. *)
Fixpoint buildJSON_nets (netIndex : Z) (nets_ : list Network)
    (acc : list netJSON * gmap string netJSON)
    : M (list netJSON * gmap string netJSON) :=
  match nets_ with
  | [] => ret acc
  | net :: rest =>
      let '(list_, nets) := acc in
      name <- Network_Name net ;;
      title <- Network_Title net ;;
      comment <- Network_Comment net ;;
      let netRepr := mkNetJSON netIndex name title comment [] in
      r <- Network_NodeList net ;;
      match r with
      | (_, Some e) =>
          Println e ;;;
          buildJSON_nets (netIndex + 1) rest (list_, nets)
      | (nodeList, None) =>
          nodes <- buildJSON_nodes 0 nodeList [] ;;
          (* the second test of [err] reads the variable set by NodeList,
             which is nil here: the errors of the inner loop are declared
             in its own scope *)
          let list_ := (list_ ++ [netRepr])%list in
          let modRepr := mkNetJSON netIndex name title comment nodes in
          let nets := <[name := modRepr]> nets in
          let nets := <[Itoa netIndex := modRepr]> nets in
          buildJSON_nets (netIndex + 1) rest (list_, nets)
      end
  end.

Definition buildJSON (g : Globals) : M (list netJSON * gmap string netJSON * error) :=
  r <- buildJSON_nets 0 (netList g) ([], ∅) ;;
  ret (r.1, r.2, None).

Definition getNets (g : Globals) (r : Request) : M Response :=
  ret (WriteNets (netJSONList g)).

Definition getNet (g : Globals) (r : Request) : M Response :=
  match netsJSON g !! netid r with
  | Some repr => ret (WriteNet repr)
  | None => ret NotFound
  end.

Definition getNetNodes (g : Globals) (r : Request) : M Response :=
  match netsJSON g !! netid r with
  | Some repr => ret (WriteNodes (netJSON_Nodes repr))
  | None => ret NotFound
  end.

Fixpoint getNetNode_loop (nodeID : string) (index : Z) (nodes : list nodeJSON)
    : Response :=
  match nodes with
  | [] => NotFound
  | node :: rest =>
      if String.eqb (Itoa index) nodeID || String.eqb (nodeJSON_Name node) nodeID
      then WriteNode node
      else getNetNode_loop nodeID (index + 1) rest
  end.

Definition getNetNode (g : Globals) (r : Request) : M Response :=
  match netsJSON g !! netid r with
  | Some repr => ret (getNetNode_loop (nodeid r) 0 (netJSON_Nodes repr))
  | None => ret NotFound
  end.

(** The body of the loop of [postNetNode] for one case: the result it
    appends to the batch. *)
Definition postNetNode_case (net : Network) (node : Node) (index : Z)
    (evidence : gmap string string) : M singleJSON :=
  Network_Lock net ;;;
  err <- Network_EnterCase net evidence ;;
  match err with
  | Some e =>
      Network_Unlock net ;;;
      Println e ;;;
      ret (mkSingleJSON index e "")
  | None =>
      r <- Node_Infer node ;;
      match r with
      | (_, Some e) =>
          _ <- Network_ClearCases net ;;
          Network_Unlock net ;;;
          Println e ;;;
          ret (mkSingleJSON index e "")
      | (result, None) =>
          _ <- Network_ClearCases net ;;
          Network_Unlock net ;;;
          ret (mkSingleJSON index "" result)
      end
  end.

Fixpoint postNetNode_loop (net : Network) (node : Node) (index : Z)
    (cases : list (gmap string string)) (results : list singleJSON)
    : M (list singleJSON) :=
  match cases with
  | [] => ret results
  | evidence :: rest =>
      single <- postNetNode_case net node index evidence ;;
      postNetNode_loop net node (index + 1) rest (results ++ [single])
  end.

(** [repr.Nodes[index]] with the bounds check of the Go runtime. *)
Definition index_nodes (nodes : list nodeJSON) (index : Z) : M nodeJSON :=
  if index <? 0 then panic "runtime error: index out of range"
  else match nodes !! Z.to_nat index with
       | Some node => ret node
       | None => panic "runtime error: index out of range"
       end.

Definition postNetNode (g : Globals) (r : Request) : M Response :=
  match netsJSON g !! netid r with
  | None => ret NotFound
  | Some repr =>
      match netLookup g !! netid r with
      | None => panic "invalid memory address or nil pointer dereference"
      | Some net =>
          let nodeID := nodeid r in
          let run (node : Node) : M Response :=
            match payload r with
            | inr e => ret (InternalServerError e)
            | inl infer =>
                results <- postNetNode_loop net node 0 (caseJSON_Cases infer) [] ;;
                ret (WriteBatch (mkBatchJSON (caseJSON_ID infer) results))
            end in
          found <- Network_NodeNamed net nodeID ;;
          match found with
          | (Some node, None) => run node
          | _ =>
              match Atoi nodeID with
              | None => ret NotFound
              | Some index =>
                  indexed <- index_nodes (netJSON_Nodes repr) index ;;
                  found <- Network_NodeNamed net (nodeJSON_Name indexed) ;;
                  match found with
                  | (Some node, None) => run node
                  | _ => ret NotFound
                  end
              end
          end
      end
  end.

End Cmd.

(** ** A table-driven engine

    A small engine on which the embedding runs: its networks and nodes are
    rows of a table, its findings a map per network.  It stands in for
    Netica in the examples below. *)

Module Table.

(** What the engine answers when asked for a node's expected value. *)
Inductive expected :=
| Defined (value stdDev : float64)
| Undefined
| Raises (r : report).

Record node_row := mkNodeRow {
  owner : cnet;
  name : string;
  states : list string;
  beliefs : list float64;
  expects : expected;
}.

Record table := mkTable {
  nets : list (cnet * string);
  held : gmap cnet (gmap cnode finding);
  buffer : string;
}.

Definition undef_dbl : float64 := neg_infinity.

Section Engine.
(** The nodes of the engine's networks: they do not change. *)
Variable nodes : list (cnode * node_row).

Definition row (c : cnode) : option node_row :=
  snd <$> List.find (fun r => (r.1 =? c)%N) nodes.

Definition net_name (t : table) (c : cnet) : string :=
  default "" (snd <$> List.find (fun r => (r.1 =? c)%N) (nets t)).

Definition node_field {A} (f : node_row -> A) (d : A) (c : cnode) (t : table)
    : A * list report :=
  (default d (f <$> row c), []).

Fixpoint state_named (name : string) (states : list string) (index : Z) : Z :=
  match states with
  | [] => -3
  | s :: rest => if String.eqb s name then index else state_named name rest (index + 1)
  end.

Definition with_held (t : table) (h : gmap cnet (gmap cnode finding)) : table :=
  mkTable (nets t) h (buffer t).

Definition enter (c : cnode) (f : finding) (t : table) : table :=
  match row c with
  | Some r => with_held t (<[owner r := <[c := f]> (default ∅ (held t !! owner r))]> (held t))
  | None => t
  end.

Definition enter_state (c : cnode) (state : Z) (t : table) : list report * table :=
  match row c with
  | Some r =>
      if (0 <=? state) && (state <? Z.of_nat (length (states r)))
      then ([], enter c (StateFinding state) t)
      else ([mkReport 2500 "state index out of range"], t)
  | None => ([mkReport 2501 "no such node"], t)
  end.

(** A network file of this engine holds the name of its network. *)
Definition read_net (t : table) : cnet * list report * table :=
  match buffer t with
  | EmptyString => (0%N, [mkReport 5600 "not a network file"], t)
  | contents =>
      let c := N.of_nat (S (length (nets t))) in
      (c, [], mkTable (nets t ++ [(c, contents)]) (held t) "")
  end.

Definition engine : Engine := {|
  core := table;
  findings t net := default ∅ (held t !! net);
  UNDEF_STATE := -3;
  GetUndefDbl_ns := undef_dbl;
  DISCRETE_TYPE := 1;
  CONTINUOUS_TYPE := 2;
  GetNodeName_bn := node_field name "";
  GetNodeTitle_bn := node_field name "";
  GetNodeComment_bn := node_field (fun _ => "") "";
  GetNodeType_bn := node_field (fun _ => 1) 0;
  GetStateNamed_bn nm := node_field (fun r => state_named nm (states r) 0) (-3);
  GetNodeNumberStates_bn := node_field (fun r => Z.of_nat (length (states r))) 0;
  GetNodeStateName_bn c i t :=
    (default "" (row c ≫= fun r => states r !! Z.to_nat i), []);
  GetNodeLevels_bn c t := (None, []);
  GetNodeBeliefs_bn c t :=
    (fun i => default 0%float (row c ≫= fun r => beliefs r !! Z.to_nat i), []);
  GetNodeExpectedValue_bn c t :=
    match expects <$> row c with
    | Some (Defined v sd) => ((v, sd), [])
    | Some Undefined => ((undef_dbl, 0%float), [])
    | Some (Raises r) => ((0%float, 0%float), [r])
    | None => ((undef_dbl, 0%float), [])
    end;
  EnterFinding_bn := enter_state;
  EnterNodeValue_bn c v t := ([], enter c (ValueFinding v) t);
  RetractNodeFindings_bn c t := ([], with_held t (delete c <$> held t));
  GetNetName_bn c t := (net_name t c, []);
  GetNetTitle_bn c t := (net_name t c, []);
  GetNetComment_bn c t := ("", []);
  GetNodeNamed_bn nm net t :=
    (default 0%N
       (fst <$> List.find (fun r => (owner r.2 =? net)%N && String.eqb (name r.2) nm)
                  nodes), []);
  GetNetNodes2_bn net t :=
    ((List.filter (fun r => (owner r.2 =? net)%N) nodes).*1, []);
  RetractNetFindings_bn net t := ([], with_held t (delete net (held t)));
  stream_ns := unit;
  NewMemoryStream_ns nm t := (tt, [], t);
  DeleteStream_ns strm t := ([], t);
  SetStreamContents_ns strm buf t := ([], mkTable (nets t) (held t) buf);
  ReadNet_bn strm t := read_net t;
  CompileNet_bn net t := ([], t);
  SetNetAutoUpdate_bn net v t := ([], t);
  DeleteNet_bn net t :=
    ([], mkTable (List.filter (fun r => negb (r.1 =? net)%N) (nets t))
           (delete net (held t)) (buffer t));
|}.

Definition start (t : table) (locks : gmap cnet RWMutex) : @State engine :=
  @mkState engine t [] locks [] [].

End Engine.

Definition assoc {A} (l : list (string * A)) (key : string) : option A :=
  snd <$> List.find (fun r => String.eqb r.1 key) l.

(** The Go runtime for the examples: a disk given as a list of files, and
    the few numerals the examples use. *)
Definition runtime (disk : list (string * string)) : GoRuntime := {|
  ParseFloat := assoc [("42", 42%float); ("0.5", 0.5%float); ("-1", (-1)%float)];
  FormatFloat v :=
    if PrimFloat.eqb v 42%float then "4.2E+01"
    else if PrimFloat.eqb v 0.5%float then "5E-01"
    else "0E+00";
  rangeOrder V l := l;
  os_Open path :=
    match assoc disk path with
    | Some _ => None
    | None => Some ("open " +:+ path +:+ ": no such file or directory")
    end;
  ioutil_ReadAll path :=
    match assoc disk path with
    | Some contents => inl contents
    | None => inr "read: bad file descriptor"
    end;
  filepath_Base path := path;
  filepath_Rel root path := path;
|}.

End Table.

(** * Properties *)

Set Warnings "-inexact-float".

(** ** Reasoning about the monad *)

Section Logic.
Context {E : Engine} {G : GoRuntime}.

(** [hoare P m R I]: from a state in [P], [m] returns a result and a state
    in [R], or stops (panics, blocks) in a state in [I]. *)
Definition hoare {A} (P : State -> Prop) (m : M A)
    (R : A -> State -> Prop) (I : State -> Prop) : Prop :=
  forall s, P s ->
    match m s with
    | (Returns a, s') => R a s'
    | (_, s') => I s'
    end.

Lemma hoare_ret {A} (P : State -> Prop) (a : A) (R : A -> State -> Prop) I :
  (forall s, P s -> R a s) -> hoare P (ret a) R I.
Proof. intros HR s HP. simpl. auto. Qed.

Lemma hoare_bind {A B} P (m : M A) (k : A -> M B) R' R I :
  hoare P m R' I ->
  (forall a, hoare (R' a) (k a) R I) ->
  hoare P (bind m k) R I.
Proof.
  intros Hm Hk s HP. unfold bind. specialize (Hm s HP).
  destruct (m s) as [[a | msg |] s']; auto.
  apply Hk. exact Hm.
Qed.

Lemma hoare_weaken {A} (P P' : State -> Prop) (m : M A) (R R' : A -> State -> Prop)
    (I I' : State -> Prop) :
  hoare P' m R' I' ->
  (forall s, P s -> P' s) ->
  (forall a s, R' a s -> R a s) ->
  (forall s, I' s -> I s) ->
  hoare P m R I.
Proof.
  intros Hm HP HR HI s Hs. specialize (Hm s (HP s Hs)).
  destruct (m s) as [[a | msg |] s']; auto.
Qed.

Lemma hoare_ask {A} P (q : core -> A * list report) R I :
  (forall s, P s -> R (q (eng s)).1 (with_eng (eng s) (q (eng s)).2 s)) ->
  hoare P (ask q) R I.
Proof.
  intros HR s HP. unfold ask. specialize (HR s HP).
  destruct (q (eng s)) as [a rs]. exact HR.
Qed.

Lemma hoare_tell P (f : core -> list report * core) R I :
  (forall s, P s -> R tt (with_eng (f (eng s)).2 (f (eng s)).1 s)) ->
  hoare P (tell f) R I.
Proof.
  intros HR s HP. unfold tell. specialize (HR s HP).
  destruct (f (eng s)) as [rs c]. exact HR.
Qed.

Lemma hoare_act {A} P (f : core -> A * list report * core) R I :
  (forall s, P s ->
     R (f (eng s)).1.1 (with_eng (f (eng s)).2 (f (eng s)).1.2 s)) ->
  hoare P (act f) R I.
Proof.
  intros HR s HP. unfold act. specialize (HR s HP).
  destruct (f (eng s)) as [[a rs] c]. exact HR.
Qed.

(** What [Environment.Errors] returns for a queue of reports. *)
Definition errors_of (pending : list report) : error :=
  match drain pending [] with
  | [] => None
  | messages => Some (Join messages newline)
  end.

Definition drained (s : State) : State :=
  mkState (eng s) [] (netlocks s) (logged s) (history s).

Lemma Environment_Errors_eq s :
  Environment_Errors s = (Returns (errors_of (errq s)), drained s).
Proof. unfold Environment_Errors, errors_of, drained. destruct (drain _ _); reflexivity. Qed.

Lemma ask_eq {A} (q : core -> A * list report) s :
  ask q s = (Returns (q (eng s)).1, with_eng (eng s) (q (eng s)).2 s).
Proof. unfold ask. destruct (q (eng s)). reflexivity. Qed.

Lemma tell_eq (f : core -> list report * core) s :
  tell f s = (Returns tt, with_eng (f (eng s)).2 (f (eng s)).1 s).
Proof. unfold tell. destruct (f (eng s)). reflexivity. Qed.

Lemma act_eq {A} (f : core -> A * list report * core) s :
  act f s = (Returns (f (eng s)).1.1, with_eng (f (eng s)).2 (f (eng s)).1.2 s).
Proof. unfold act. destruct (f (eng s)) as [[a rs] c]. reflexivity. Qed.

Lemma bind_eq {A B} (m : M A) (k : A -> M B) s a s' :
  m s = (Returns a, s') -> bind m k s = k a s'.
Proof. intros Hm. unfold bind. rewrite Hm. reflexivity. Qed.

(** The result of a computation that returned, and the equation a
    returned result gives. *)
Definition returned {A} (d : A) (o : outcome A) : A :=
  match o with
  | Returns a => a
  | _ => d
  end.

Lemma returns_eq {A} (r : outcome A * State) (a : A) :
  r.1 = Returns a -> r = (Returns a, r.2).
Proof. destruct r as [o s]. simpl. intros ->. reflexivity. Qed.

Lemma hoare_Errors P R I :
  (forall s, P s -> R (errors_of (errq s)) (drained s)) ->
  hoare P Environment_Errors R I.
Proof. intros HR s HP. rewrite Environment_Errors_eq. auto. Qed.

Lemma hoare_Println P line R I :
  (forall s, P s ->
     R tt (mkState (eng s) (errq s) (netlocks s) (logged s ++ [line]) (history s))) ->
  hoare P (Println line) R I.
Proof. intros HR s HP. simpl. auto. Qed.

(** The first byte of an engine error is a sign or a digit: its text
    starts with the number of the first report. *)
Definition is_numeral (a : ascii) : Prop :=
  a = "-"%char \/ exists d, digit_of a = Some d.

Lemma Itoa_head z : exists a rest, Itoa z = String a rest /\ is_numeral a.
Proof.
  unfold Itoa, is_numeral. destruct z as [| p | p]; simpl.
  - eexists _, _. split; [reflexivity |]. right. eexists. reflexivity.
  - destruct (Pos.to_uint p); simpl;
      eexists _, _; (split; [reflexivity |]); right; eexists; reflexivity.
  - eexists _, _. split; [reflexivity |]. left. reflexivity.
Qed.

Lemma drain_app pending : forall messages,
  drain pending messages = (messages ++ drain pending [])%list.
Proof.
  induction pending as [| r rest IH]; intros messages; simpl.
  - rewrite app_nil_r. reflexivity.
  - rewrite IH. rewrite (IH [_]). rewrite <- app_assoc. reflexivity.
Qed.

Lemma errors_of_head pending e :
  errors_of pending = Some e -> exists a rest, e = String a rest /\ is_numeral a.
Proof.
  unfold errors_of. destruct pending as [| r rest]; [discriminate |].
  cbn [drain]. rewrite drain_app. cbn [app]. intros [= <-].
  destruct (Itoa_head (ErrorNumber_ns r)) as (a & tl & Hi & Hn).
  rewrite Hi. destruct (drain rest []); simpl; eauto.
Qed.

Lemma errors_of_nonempty pending e : errors_of pending = Some e -> e <> "".
Proof. intros He. apply errors_of_head in He as (a & rest & -> & _). discriminate. Qed.

Lemma errors_of_nil : errors_of [] = None.
Proof. reflexivity. Qed.

End Logic.

(** ** Nodes: most likely state, inference, findings *)

Section NodeProperties.
Context {E : Engine} {G : GoRuntime}.

Lemma State_loop_range beliefList : forall index maxIndex maxBelief,
  State_loop beliefList index maxIndex maxBelief = maxIndex \/
  index <= State_loop beliefList index maxIndex maxBelief
        < index + Z.of_nat (length beliefList).
Proof.
  induction beliefList as [| belief rest IH]; intros index maxIndex maxBelief; simpl.
  - left. reflexivity.
  - destruct (PrimFloat.ltb maxBelief belief).
    + right. destruct (IH (index + 1) index belief) as [-> | Hr]; lia.
    + destruct (IH (index + 1) maxIndex maxBelief) as [-> | Hr]; [left | right]; lia.
Qed.

Lemma BeliefList_length (node : Node) (s s' : State) beliefList :
  Node_BeliefList node s = (Returns (beliefList, None), s') ->
  length beliefList = Z.to_nat (GetNodeNumberStates_bn (Node_c node) (eng s)).1.
Proof.
  unfold Node_BeliefList, Node_Errors, Network_Errors.
  rewrite (bind_eq _ _ _ _ _ (ask_eq _ _)).
  rewrite (bind_eq _ _ _ _ _ (ask_eq _ _)).
  rewrite (bind_eq _ _ _ _ _ (Environment_Errors_eq _)).
  destruct (errors_of _); intros [= <- _].
  rewrite length_map. unfold indices. rewrite length_seqZ. reflexivity.
Qed.

(** C10: [Node.State] reads [beliefList[0]] unguarded.  When the belief
    list of the node has an entry, the index it returns lies within the
    list; when the node has no state the list is empty and the access
    panics.  The list has one entry per state of the node. *)
Theorem State_first_belief_unguarded (node : Node) (s s' : State)
    (beliefList : list float64) :
  Node_BeliefList node s = (Returns (beliefList, None), s') ->
  length beliefList = Z.to_nat (GetNodeNumberStates_bn (Node_c node) (eng s)).1 /\
  (beliefList <> [] ->
     exists index, Node_State node s = (Returns (index, None), s') /\
                   0 <= index < Z.of_nat (length beliefList)) /\
  (beliefList = [] -> exists msg, Node_State node s = (Panics msg, s')).
Proof.
  intros HB. split; [exact (BeliefList_length node s s' beliefList HB) |].
  unfold Node_State, bind. rewrite HB. split.
  - intros Hne. destruct beliefList as [| maxBelief rest]; [congruence |].
    eexists. split; [reflexivity |].
    destruct (State_loop_range (maxBelief :: rest) 0 0 maxBelief) as [-> | Hr];
      simpl length in *; lia.
  - intros ->. eexists. reflexivity.
Qed.

(** What the next functions compute, one engine call at a time. *)
Lemma Node_ClearFindings_eq (node : Node) s :
  Node_ClearFindings node s =
    let r := RetractNodeFindings_bn (Node_c node) (eng s) in
    (Returns (errors_of (errq s ++ r.1)), drained (with_eng r.2 r.1 s)).
Proof.
  unfold Node_ClearFindings, Node_Errors, Network_Errors.
  rewrite (bind_eq _ _ _ _ _ (tell_eq _ _)).
  rewrite Environment_Errors_eq. reflexivity.
Qed.

Lemma Node_SetState_eq (node : Node) state s :
  Node_SetState node state s =
    let r := EnterFinding_bn (Node_c node) (to_C_int state) (eng s) in
    let s1 := drained (with_eng r.2 r.1 s) in
    match errors_of (errq s ++ r.1) with
    | Some e =>
        (Returns (Some e),
         drained (with_eng (RetractNodeFindings_bn (Node_c node) r.2).2
                    (RetractNodeFindings_bn (Node_c node) r.2).1 s1))
    | None => (Returns None, s1)
    end.
Proof.
  unfold Node_SetState, Node_Errors, Network_Errors.
  rewrite (bind_eq _ _ _ _ _ (tell_eq _ _)).
  rewrite (bind_eq _ _ _ _ _ (Environment_Errors_eq _)).
  cbn zeta. destruct (errors_of _); [| reflexivity].
  rewrite (bind_eq _ _ _ _ _ (Node_ClearFindings_eq _ _)). reflexivity.
Qed.

Lemma Node_SetValue_eq (node : Node) value s :
  Node_SetValue node value s =
    let r := EnterNodeValue_bn (Node_c node) value (eng s) in
    let s1 := drained (with_eng r.2 r.1 s) in
    match errors_of (errq s ++ r.1) with
    | Some e =>
        (Returns (Some e),
         drained (with_eng (RetractNodeFindings_bn (Node_c node) r.2).2
                    (RetractNodeFindings_bn (Node_c node) r.2).1 s1))
    | None => (Returns None, s1)
    end.
Proof.
  unfold Node_SetValue, Node_Errors, Network_Errors.
  rewrite (bind_eq _ _ _ _ _ (tell_eq _ _)).
  rewrite (bind_eq _ _ _ _ _ (Environment_Errors_eq _)).
  cbn zeta. destruct (errors_of _); [| reflexivity].
  rewrite (bind_eq _ _ _ _ _ (Node_ClearFindings_eq _ _)). reflexivity.
Qed.


Lemma Node_StateNamed_eq (node : Node) name s :
  Node_StateNamed node name s =
    let q := GetStateNamed_bn name (Node_c node) (eng s) in
    let s1 := drained (with_eng (eng s) q.2 s) in
    match errors_of (errq s ++ q.2) with
    | Some e => (Returns (0, Some e), s1)
    | None =>
        if q.1 =? UNDEF_STATE then
          let n := GetNodeName_bn (Node_c node) (eng s) in
          (Returns (0, Some ("In function Node.StateNamed: state " +:+ name
                             +:+ " not defined for node " +:+ n.1)),
           with_eng (eng s) n.2 s1)
        else (Returns (q.1, None), s1)
    end.
Proof.
  unfold Node_StateNamed, Node_Errors, Network_Errors, Node_Name.
  rewrite (bind_eq _ _ _ _ _ (ask_eq _ _)).
  rewrite (bind_eq _ _ _ _ _ (Environment_Errors_eq _)).
  cbn zeta. cbn [errq with_eng]. destruct (errors_of _); [reflexivity |].
  destruct (_ =? _); [| reflexivity].
  rewrite (bind_eq _ _ _ _ _ (ask_eq _ _)). reflexivity.
Qed.

(** The third way of [Node.EnterFinding]: the whole token as a state
    name. *)
Definition enter_named_state (node : Node) (evidence : string) : M error :=
  r <- Node_StateNamed node evidence ;;
  match r with
  | (_, Some e) => ret (Some e)
  | (index, None) => Node_SetState node index
  end.

(** C5: the precedence of [Node.EnterFinding].  A token that
    [strconv.ParseFloat] accepts is entered as a value.  Otherwise a token
    that starts with the marker and whose remainder [strconv.Atoi] accepts
    is entered as that state index.  Otherwise the whole token is looked
    up as a state name, and when the node has no state of that name an
    error is returned and the engine state is left as it was. *)
Theorem EnterFinding_precedence (node : Node) (evidence : string) :
  (forall value, ParseFloat evidence = Some value ->
     Node_EnterFinding node evidence = Node_SetValue node value) /\
  (forall index, ParseFloat evidence = None ->
     HasPrefix evidence "#" = true ->
     Atoi (TrimPrefix evidence "#") = Some index ->
     Node_EnterFinding node evidence = Node_SetState node index) /\
  (ParseFloat evidence = None ->
     HasPrefix evidence "#" = false \/ Atoi (TrimPrefix evidence "#") = None ->
     Node_EnterFinding node evidence = enter_named_state node evidence) /\
  (forall s, (GetStateNamed_bn evidence (Node_c node) (eng s)).1 = UNDEF_STATE ->
     errors_of (errq s ++ (GetStateNamed_bn evidence (Node_c node) (eng s)).2) = None ->
     exists e s', enter_named_state node evidence s = (Returns (Some e), s') /\
                  eng s' = eng s).
Proof.
  repeat split.
  - intros value Hp. unfold Node_EnterFinding. rewrite Hp. reflexivity.
  - intros index Hp Hh Ha. unfold Node_EnterFinding. rewrite Hp, Hh, Ha. reflexivity.
  - intros Hp [Hh | Ha]; unfold Node_EnterFinding, enter_named_state; rewrite Hp.
    + rewrite Hh. reflexivity.
    + rewrite Ha. destruct (HasPrefix evidence "#"); reflexivity.
  - intros s Hu He. unfold enter_named_state, bind.
    rewrite Node_StateNamed_eq. cbn zeta. rewrite He, Hu, Z.eqb_refl.
    eexists _, _. split; reflexivity.
Qed.

Lemma Node_Value_eq (node : Node) s :
  Node_Value node s =
    let q := GetNodeExpectedValue_bn (Node_c node) (eng s) in
    let s1 := drained (with_eng (eng s) q.2 s) in
    match errors_of (errq s ++ q.2) with
    | Some e => (Returns (0%float, 0%float, Some e), s1)
    | None =>
        if PrimFloat.eqb q.1.1 GetUndefDbl_ns
        then (Returns (0%float, 0%float, Some undefined_expected_value), s1)
        else (Returns (q.1.1, q.1.2, None), s1)
    end.
Proof.
  unfold Node_Value, Node_Errors, Network_Errors.
  rewrite (bind_eq _ _ _ _ _ (ask_eq _ _)).
  destruct (GetNodeExpectedValue_bn (Node_c node) (eng s)) as [[cValue cStdDev] rs].
  cbn [fst snd]. cbn beta iota.
  rewrite (bind_eq _ _ _ _ _ (Environment_Errors_eq _)).
  cbn zeta. cbn [errq with_eng fst snd]. destruct (errors_of _); [reflexivity |].
  destruct (PrimFloat.eqb _ _); reflexivity.
Qed.

Lemma Node_BeliefList_eq (node : Node) s :
  Node_BeliefList node s =
    let b := GetNodeBeliefs_bn (Node_c node) (eng s) in
    let n := GetNodeNumberStates_bn (Node_c node) (eng s) in
    let s1 := drained (with_eng (eng s) n.2 (with_eng (eng s) b.2 s)) in
    match errors_of ((errq s ++ b.2) ++ n.2) with
    | Some e => (Returns ([], Some e), s1)
    | None => (Returns (map b.1 (indices n.1), None), s1)
    end.
Proof.
  unfold Node_BeliefList, Node_Errors, Network_Errors.
  rewrite (bind_eq _ _ _ _ _ (ask_eq _ _)).
  rewrite (bind_eq _ _ _ _ _ (ask_eq _ _)).
  rewrite (bind_eq _ _ _ _ _ (Environment_Errors_eq _)).
  cbn zeta. cbn [errq with_eng eng]. destruct (errors_of _); reflexivity.
Qed.

(** An error of [Node.State] is an error drained from the engine. *)
Lemma Node_State_error (node : Node) s index e s' :
  Node_State node s = (Returns (index, Some e), s') ->
  exists pending, errors_of pending = Some e.
Proof.
  unfold Node_State, bind. rewrite Node_BeliefList_eq. cbn zeta.
  destruct (errors_of _) as [e' |] eqn:He.
  - intros [= _ <- _]. eauto.
  - destruct (map _ _); discriminate.
Qed.

Lemma engine_error_not_undefined pending e :
  errors_of pending = Some e -> e <> undefined_expected_value.
Proof.
  intros He. apply errors_of_head in He as (a & rest & -> & Hn).
  unfold undefined_expected_value. intros [= -> _].
  destruct Hn as [Hn | [d Hd]]; [discriminate Hn | discriminate Hd].
Qed.

(** The name query at the end of [Node.Infer]. *)
Definition state_name_query (node : Node) (index : Z) (s : State) : string * list report :=
  GetNodeStateName_bn (Node_c node) (to_C_int index) (eng s).

Lemma Node_Infer_fallback_eq (node : Node) s v sd e0 s1 index s2 :
  Node_Value node s = (Returns (v, sd, Some e0), s1) ->
  Node_State node s1 = (Returns (index, None), s2) ->
  Node_Infer node s =
    let q := state_name_query node index s2 in
    let s3 := drained (with_eng (eng s2) q.2 s2) in
    match errors_of (errq s2 ++ q.2) with
    | Some e => (Returns ("", Some e), s3)
    | None => (Returns (if String.eqb q.1 "" then "#" +:+ Itoa index else q.1, None), s3)
    end.
Proof.
  intros HV HS. unfold Node_Infer.
  rewrite (bind_eq _ _ _ _ _ HV). cbn iota beta.
  rewrite (bind_eq _ _ _ _ _ HS). cbn iota beta.
  unfold Node_Errors, Network_Errors.
  rewrite (bind_eq _ _ _ _ _ (ask_eq _ _)).
  rewrite (bind_eq _ _ _ _ _ (Environment_Errors_eq _)).
  cbn zeta. cbn [errq with_eng]. unfold state_name_query.
  destruct (errors_of _); [reflexivity |].
  destruct (String.eqb _ _); reflexivity.
Qed.

(** C3, as the code has it: [Node.Infer] tries the expected value first
    and returns it formatted.  On any failure of that query, an engine
    error as much as the undefined expected value, it falls back to the
    most likely state and renders its name, or the index after the marker
    when the name is empty.  The error of the expected-value query is never
    returned: an error of [Node.Infer] is an engine error of the fallback
    path, with an empty result, and it is never the undefined-value
    error. *)
Theorem Infer_falls_back_on_any_failure (node : Node) (s : State) :
  (forall value stdDev s1,
     Node_Value node s = (Returns (value, stdDev, None), s1) ->
     Node_Infer node s = (Returns (FormatFloat value, None), s1)) /\
  (forall v sd e s1 index s2,
     Node_Value node s = (Returns (v, sd, Some e), s1) ->
     Node_State node s1 = (Returns (index, None), s2) ->
     let q := state_name_query node index s2 in
     errors_of (errq s2 ++ q.2) = None ->
     Node_Infer node s =
       (Returns (if String.eqb q.1 "" then "#" +:+ Itoa index else q.1, None),
        drained (with_eng (eng s2) q.2 s2))) /\
  (forall result e s',
     Node_Infer node s = (Returns (result, Some e), s') ->
     result = "" /\ e <> undefined_expected_value /\
     exists v sd e0 s1,
       Node_Value node s = (Returns (v, sd, Some e0), s1) /\
       ((exists index, Node_State node s1 = (Returns (index, Some e), s')) \/
        (exists index s2,
           Node_State node s1 = (Returns (index, None), s2) /\
           errors_of (errq s2 ++ (state_name_query node index s2).2) = Some e))).
Proof.
  split; [| split].
  - intros value stdDev s1 HV. unfold Node_Infer. rewrite (bind_eq _ _ _ _ _ HV).
    reflexivity.
  - intros v sd e s1 index s2 HV HS q Hq.
    rewrite (Node_Infer_fallback_eq node s v sd e s1 index s2 HV HS).
    cbn zeta. fold q. rewrite Hq. reflexivity.
  - intros result e s'.
    destruct (Node_Value node s) as [[[[v sd] [e0 |]] | |] s1] eqn:HV.
    + destruct (Node_State node s1) as [[[index [e1 |]] | |] s2] eqn:HS.
      * unfold Node_Infer. rewrite (bind_eq _ _ _ _ _ HV). cbn iota beta.
        rewrite (bind_eq _ _ _ _ _ HS). cbn iota beta. intros [= <- <- <-].
        split; [reflexivity |]. split.
        -- destruct (Node_State_error node s1 index e1 s2 HS) as [pending Hp].
           exact (engine_error_not_undefined _ _ Hp).
        -- exists v, sd, e0, s1. split; [reflexivity |]. left. eauto.
      * rewrite (Node_Infer_fallback_eq node s v sd e0 s1 index s2 HV HS). cbn zeta.
        destruct (errors_of _) as [e1 |] eqn:He; [| discriminate].
        intros [= <- <- <-]. split; [reflexivity |]. split.
        -- exact (engine_error_not_undefined _ _ He).
        -- exists v, sd, e0, s1. split; [reflexivity |]. right.
           exists index, s2. split; [exact HS | exact He].
      * unfold Node_Infer, bind. rewrite HV, HS. discriminate.
      * unfold Node_Infer, bind. rewrite HV, HS. discriminate.
    + unfold Node_Infer, bind. rewrite HV. discriminate.
    + unfold Node_Infer, bind. rewrite HV. discriminate.
    + unfold Node_Infer, bind. rewrite HV. discriminate.
Qed.

End NodeProperties.

(** ** Networks: entering a case *)

Section NetworkProperties.
Context {E : Engine} {G : GoRuntime}.

(** A step that leaves the lock table and the lock history alone. *)
Definition quiet (s0 s : State) : Prop :=
  netlocks s = netlocks s0 /\ history s = history s0.

Lemma quiet_refl s : quiet s s.
Proof. split; reflexivity. Qed.

Lemma quiet_trans s0 s1 s2 : quiet s0 s1 -> quiet s1 s2 -> quiet s0 s2.
Proof. intros [H1 H2] [H3 H4]. split; congruence. Qed.

Lemma hoare_pre_eq {A} (P : State -> Prop) (m : M A) R I :
  (forall s0, P s0 -> hoare (eq s0) m R I) -> hoare P m R I.
Proof. intros Hm s HP. exact (Hm s HP s eq_refl). Qed.

Lemma hoare_post {A} (P : State -> Prop) (m : M A) (R R' : A -> State -> Prop) I :
  hoare P m R' I -> (forall a s, R' a s -> R a s) -> hoare P m R I.
Proof. intros Hm HR. eapply hoare_weaken; [exact Hm | auto | exact HR | auto]. Qed.

Lemma hoare_pre {A} (P P' : State -> Prop) (m : M A) R I :
  hoare P' m R I -> (forall s, P s -> P' s) -> hoare P m R I.
Proof. intros Hm HP s Hs. exact (Hm s (HP s Hs)). Qed.

Definition nonempty_error (err : error) : Prop := forall e, err = Some e -> e <> "".

Lemma nonempty_error_of pending : nonempty_error (errors_of pending).
Proof. intros e He. exact (errors_of_nonempty _ _ He). Qed.

Lemma nonempty_error_nil : nonempty_error None.
Proof. intros e He. discriminate. Qed.

Lemma Node_SetState_spec (node : Node) state s0 :
  hoare (eq s0) (Node_SetState node state)
    (fun err s => quiet s0 s /\ nonempty_error err) (fun _ => False).
Proof.
  intros s <-. rewrite Node_SetState_eq. cbn zeta.
  destruct (errors_of _) eqn:He; (split; [split; reflexivity |]).
  - rewrite <- He. apply nonempty_error_of.
  - apply nonempty_error_nil.
Qed.

Lemma Node_SetValue_spec (node : Node) value s0 :
  hoare (eq s0) (Node_SetValue node value)
    (fun err s => quiet s0 s /\ nonempty_error err) (fun _ => False).
Proof.
  intros s <-. rewrite Node_SetValue_eq. cbn zeta.
  destruct (errors_of _) eqn:He; (split; [split; reflexivity |]).
  - rewrite <- He. apply nonempty_error_of.
  - apply nonempty_error_nil.
Qed.

Lemma Node_StateNamed_spec (node : Node) name s0 :
  hoare (eq s0) (Node_StateNamed node name)
    (fun r s => quiet s0 s /\ eng s = eng s0 /\ nonempty_error r.2) (fun _ => False).
Proof.
  intros s <-. rewrite Node_StateNamed_eq. cbn zeta.
  destruct (errors_of _) eqn:He.
  - repeat split. rewrite <- He. apply nonempty_error_of.
  - destruct (_ =? _); repeat split.
    + intros e [= <-]. discriminate.
    + apply nonempty_error_nil.
Qed.

Lemma enter_named_state_spec (node : Node) evidence s0 :
  hoare (eq s0) (enter_named_state node evidence)
    (fun err s => quiet s0 s /\ nonempty_error err) (fun _ => False).
Proof.
  unfold enter_named_state.
  eapply hoare_bind; [apply Node_StateNamed_spec |].
  intros [index [e |]]; apply hoare_pre_eq; intros s1 (Hq & _ & Hn).
  - apply hoare_ret. intros s <-. split; [exact Hq | exact Hn].
  - eapply hoare_post; [apply Node_SetState_spec |].
    intros err s [Hq' Hn']. split; [exact (quiet_trans _ _ _ Hq Hq') | exact Hn'].
Qed.

Lemma Node_EnterFinding_spec (node : Node) evidence s0 :
  hoare (eq s0) (Node_EnterFinding node evidence)
    (fun err s => quiet s0 s /\ nonempty_error err) (fun _ => False).
Proof.
  unfold Node_EnterFinding. fold (enter_named_state node evidence).
  destruct (ParseFloat evidence); [apply Node_SetValue_spec |].
  destruct (HasPrefix evidence "#"); [| apply enter_named_state_spec].
  destruct (Atoi _); [apply Node_SetState_spec | apply enter_named_state_spec].
Qed.

Lemma Network_ClearCases_eq (net : Network) s :
  Network_ClearCases net s =
    let r := RetractNetFindings_bn (Network_c net) (eng s) in
    (Returns (errors_of (errq s ++ r.1)), drained (with_eng r.2 r.1 s)).
Proof.
  unfold Network_ClearCases, Network_Errors.
  rewrite (bind_eq _ _ _ _ _ (tell_eq _ _)).
  rewrite Environment_Errors_eq. reflexivity.
Qed.

Lemma Network_ClearCases_spec (net : Network) s0 :
  hoare (eq s0) (Network_ClearCases net)
    (fun _ s => quiet s0 s /\
                eng s = (RetractNetFindings_bn (Network_c net) (eng s0)).2)
    (fun _ => False).
Proof.
  intros s <-. rewrite Network_ClearCases_eq. cbn zeta.
  split; [split; reflexivity | reflexivity].
Qed.

(** A property of the engine state that retracting the findings of the
    network establishes: for the claims, that the network has no
    findings. *)
Definition after_retract (net : Network) (cleared : core -> Prop) : Prop :=
  forall c, cleared (RetractNetFindings_bn (Network_c net) c).2.

Definition no_findings (net : Network) (c : core) : Prop :=
  findings c (Network_c net) = ∅.

Lemma no_findings_after_retract `{!EngineRetracts E} (net : Network) :
  after_retract net (no_findings net).
Proof. intros c. apply RetractNetFindings_bn_clears. Qed.

(** [Network.EnterCase] after the node map: an error comes with the
    findings of the whole network retracted. *)
Lemma EnterCase_loop_spec (net : Network) cleared caseMap entries :
  after_retract net cleared ->
  forall s0,
  hoare (eq s0) (EnterCase_loop net caseMap entries)
    (fun err s => quiet s0 s /\ nonempty_error err /\
                  (forall e, err = Some e -> cleared (eng s)))
    (fun _ => False).
Proof.
  intros Hclr.
  induction entries as [| [name node] rest IH]; intros s0; cbn [EnterCase_loop].
  - apply hoare_ret. intros s <-.
    split; [apply quiet_refl |]. split; [apply nonempty_error_nil | discriminate].
  - destruct (caseMap !! name) as [evidence |]; [| apply IH].
    eapply hoare_bind; [apply Node_EnterFinding_spec |].
    intros [e |]; apply hoare_pre_eq; intros s1 [Hq Hn].
    + eapply hoare_bind; [apply Network_ClearCases_spec |].
      intros cleared_err. apply hoare_ret. intros s [Hq' Hf].
      split; [exact (quiet_trans _ _ _ Hq Hq') |]. split; [exact Hn |].
      intros _ _. rewrite Hf. apply Hclr.
    + eapply hoare_post; [apply IH |].
      intros err s (Hq' & Hn' & Hf).
      split; [exact (quiet_trans _ _ _ Hq Hq') |]. auto.
Qed.

(** A step that only reads the engine. *)
Definition reads (s0 s : State) : Prop := quiet s0 s /\ eng s = eng s0.

Lemma reads_refl s : reads s s.
Proof. split; [apply quiet_refl | reflexivity]. Qed.

Lemma reads_ask {A} (q : core -> A * list report) s0 I :
  hoare (reads s0) (ask q) (fun _ => reads s0) I.
Proof. apply hoare_ask. intros s [[Hl Hh] He]. repeat split; assumption. Qed.

Lemma reads_Errors s0 I :
  hoare (reads s0) Environment_Errors
    (fun err s => reads s0 s /\ nonempty_error err) I.
Proof.
  apply hoare_Errors. intros s [[Hl Hh] He].
  split; [repeat split; assumption | apply nonempty_error_of].
Qed.

Lemma NodeMap_loop_reads (net : Network) cNodes s0 : forall nodes,
  hoare (reads s0) (NodeMap_loop net cNodes nodes) (fun _ => reads s0) (fun _ => False).
Proof.
  induction cNodes as [| cNode rest IH]; intros nodes; cbn [NodeMap_loop].
  - apply hoare_ret. auto.
  - eapply hoare_bind; [apply reads_ask |]. intros name. apply IH.
Qed.

Lemma Network_NodeMap_spec (net : Network) s0 :
  hoare (eq s0) (Network_NodeMap net)
    (fun r s => reads s0 s /\ nonempty_error r.2) (fun _ => False).
Proof.
  unfold Network_NodeMap, Network_Errors.
  eapply hoare_bind.
  { eapply hoare_pre; [apply (reads_ask _ s0) |]. intros s <-. apply reads_refl. }
  intros cNodes. eapply hoare_bind; [apply NodeMap_loop_reads |].
  intros nodes. eapply hoare_bind; [apply reads_Errors |].
  intros [e |]; apply hoare_ret; intros s [Hr Hn]; (split; [exact Hr |]).
  - exact Hn.
  - apply nonempty_error_nil.
Qed.

Lemma Network_EnterCase_spec (net : Network) cleared caseMap s0 :
  after_retract net cleared ->
  hoare (eq s0) (Network_EnterCase net caseMap)
    (fun err s =>
       quiet s0 s /\ nonempty_error err /\
       (forall e, err = Some e -> cleared (eng s0) -> cleared (eng s)))
    (fun _ => False).
Proof.
  intros Hclr. unfold Network_EnterCase.
  eapply hoare_bind; [apply Network_NodeMap_spec |].
  intros [nodeMap [e |]]; apply hoare_pre_eq; intros s1 [[Hq He] Hn].
  - apply hoare_ret. intros s <-. split; [exact Hq |]. split; [exact Hn |].
    intros _ _ Hf. rewrite He. exact Hf.
  - eapply hoare_post; [apply (EnterCase_loop_spec net cleared _ _ Hclr) |].
    intros err s (Hq' & Hn' & Hf).
    split; [exact (quiet_trans _ _ _ Hq Hq') |]. split; [exact Hn' |]. eauto.
Qed.

(** C2, as the code has it: when [Network.EnterCase] returns the error
    of a node and its evidence (the node map itself was read without an
    error), the whole network holds no finding afterwards.  That is the
    finding set from before the call whenever the network held no finding
    then. *)
Theorem EnterCase_error_retracts_all `{!EngineRetracts E} (net : Network)
    (caseMap : gmap string string) (s s1 s' : State)
    (nodeMap : gmap string Node) (e : string) :
  Network_NodeMap net s = (Returns (nodeMap, None), s1) ->
  Network_EnterCase net caseMap s = (Returns (Some e), s') ->
  findings (eng s') (Network_c net) = ∅ /\
  (findings (eng s) (Network_c net) = ∅ ->
   findings (eng s') (Network_c net) = findings (eng s) (Network_c net)).
Proof.
  intros HM HE. unfold Network_EnterCase in HE.
  rewrite (bind_eq _ _ _ _ _ HM) in HE. cbn iota beta in HE.
  pose proof (EnterCase_loop_spec net (no_findings net) caseMap
                (rangeOrder (map_to_list nodeMap))
                (no_findings_after_retract net) s1 s1 eq_refl) as Hl.
  rewrite HE in Hl. destruct Hl as (_ & _ & Hf).
  assert (Hempty : findings (eng s') (Network_c net) = ∅) by exact (Hf e eq_refl).
  split; [exact Hempty |]. intros H0. rewrite Hempty, H0. reflexivity.
Qed.

End NetworkProperties.

(** ** The batch loop of [postNetNode] *)

Section BatchProperties.
Context {E : Engine} {G : GoRuntime}.

Lemma reads_trans s0 s1 s2 : reads s0 s1 -> reads s1 s2 -> reads s0 s2.
Proof.
  intros [Hq He] [Hq' He']. split; [exact (quiet_trans _ _ _ Hq Hq') | congruence].
Qed.

Lemma indices_nil length : indices length = [] -> length <= 0.
Proof.
  unfold indices. intros Hn. apply (f_equal List.length) in Hn.
  rewrite length_seqZ in Hn. simpl in Hn. lia.
Qed.

(** [Node.State] only reads the engine; it panics only on a node without
    states. *)
Lemma Node_State_spec (node : Node) s0 (I : State -> Prop) :
  (forall s, reads s0 s ->
     (GetNodeNumberStates_bn (Node_c node) (eng s0)).1 <= 0 -> I s) ->
  hoare (reads s0) (Node_State node)
    (fun r s => reads s0 s /\ nonempty_error r.2) I.
Proof.
  intros HI s [[Hl Hh] He]. unfold Node_State, bind.
  rewrite Node_BeliefList_eq. cbn zeta.
  destruct (errors_of _) as [e |] eqn:Herr.
  - split; [repeat split; assumption |]. rewrite <- Herr. apply nonempty_error_of.
  - destruct (map _ _) eqn:Hmap.
    + apply HI; [repeat split; assumption |].
      apply map_eq_nil in Hmap. apply indices_nil in Hmap. rewrite <- He. exact Hmap.
    + split; [repeat split; assumption | apply nonempty_error_nil].
Qed.

Lemma Node_Value_reads (node : Node) s0 I :
  hoare (reads s0) (Node_Value node) (fun _ => reads s0) I.
Proof.
  intros s [[Hl Hh] He]. rewrite Node_Value_eq. cbn zeta.
  destruct (errors_of _); [| destruct (PrimFloat.eqb _ _)]; repeat split; assumption.
Qed.

Lemma Node_Infer_spec (node : Node) s0 (I : State -> Prop) :
  (forall s, reads s0 s ->
     (GetNodeNumberStates_bn (Node_c node) (eng s0)).1 <= 0 -> I s) ->
  hoare (reads s0) (Node_Infer node)
    (fun r s => reads s0 s /\ nonempty_error r.2) I.
Proof.
  intros HI. unfold Node_Infer.
  eapply hoare_bind; [apply Node_Value_reads |].
  intros [[value stdDev] [e0 |]].
  - eapply hoare_bind; [apply (Node_State_spec node s0 I HI) |].
    intros [index [e |]].
    + apply hoare_ret. intros s [Hr Hn]. split; [exact Hr | exact Hn].
    + eapply hoare_bind.
      { eapply hoare_pre; [apply (reads_ask _ s0) |]. intros s [Hr _]. exact Hr. }
      intros cName. unfold Node_Errors, Network_Errors.
      eapply hoare_bind; [apply reads_Errors |].
      intros [e |].
      * apply hoare_ret. intros s [Hr Hn]. split; [exact Hr | exact Hn].
      * destruct (String.eqb cName ""); apply hoare_ret; intros s [Hr Hn];
          (split; [exact Hr | apply nonempty_error_nil]).
  - apply hoare_ret. intros s Hr. split; [exact Hr | apply nonempty_error_nil].
Qed.

(** The lock of a network, free and held. *)
Definition free : RWMutex := mkRWMutex false 0.
Definition held_by_writer : RWMutex := mkRWMutex true 0.

Lemma Network_Lock_free (net : Network) s0 :
  netlocks s0 !! Network_c net = Some free ->
  Network_Lock net s0 =
    (Returns tt, set_lock (Network_c net) held_by_writer (Acquired (Network_c net)) s0).
Proof. intros Hf. unfold Network_Lock. rewrite Hf. reflexivity. Qed.

Lemma Network_Unlock_held (net : Network) s0 :
  netlocks s0 !! Network_c net = Some held_by_writer ->
  Network_Unlock net s0 =
    (Returns tt,
     set_lock (Network_c net) free
       (Released (Network_c net) (findings (eng s0) (Network_c net))) s0).
Proof. intros Hf. unfold Network_Unlock. rewrite Hf. reflexivity. Qed.

Lemma locked_after_Lock (net : Network) ev s :
  netlocks (set_lock (Network_c net) held_by_writer ev s) !! Network_c net
  = Some held_by_writer.
Proof. simpl. apply lookup_insert_eq. Qed.

Lemma free_after_Unlock (net : Network) ev s :
  netlocks (set_lock (Network_c net) free ev s) !! Network_c net = Some free.
Proof. simpl. apply lookup_insert_eq. Qed.

(** A history is clean for a network when every release of its lock
    found the network without findings. *)
Definition released_clean (c : cnet) (ev : event) : Prop :=
  match ev with
  | Released c' held => c' = c -> held = ∅
  | Acquired _ => True
  end.

Definition clean (c : cnet) (h : list event) : Prop := Forall (released_clean c) h.

Lemma clean_release c h held : clean c h -> held = ∅ -> clean c (h ++ [Released c held]).
Proof.
  intros Hc ->. apply Forall_app. split; [exact Hc |].
  apply Forall_singleton. simpl. reflexivity.
Qed.

Lemma clean_acquire c h : clean c h -> clean c (h ++ [Acquired c]).
Proof.
  intros Hc. apply Forall_app. split; [exact Hc |]. apply Forall_singleton. exact I.
Qed.

(** The end of each branch of the loop body: release, log, append. *)
Definition released (net : Network) (s : State) : State :=
  set_lock (Network_c net) free
    (Released (Network_c net) (findings (eng s) (Network_c net))) s.

Lemma unlock_and_return {A} (net : Network) (a : A) s :
  netlocks s !! Network_c net = Some held_by_writer ->
  (Network_Unlock net ;;; ret a) s = (Returns a, released net s).
Proof.
  intros Hl. rewrite (bind_eq _ _ _ _ _ (Network_Unlock_held net s Hl)). reflexivity.
Qed.

Lemma unlock_log_and_return {A} (net : Network) line (a : A) s :
  netlocks s !! Network_c net = Some held_by_writer ->
  (Network_Unlock net ;;; Println line ;;; ret a) s =
    (Returns a,
     mkState (eng s) (errq s) (netlocks (released net s))
       (logged s ++ [line]) (history (released net s))).
Proof.
  intros Hl. rewrite (bind_eq _ _ _ _ _ (Network_Unlock_held net s Hl)). reflexivity.
Qed.

(** One case keeps the history clean, and leaves the network without
    findings when it comes to its end. *)
Lemma postNetNode_case_safe `{!EngineRetracts E} (net : Network) (node : Node)
    index evidence :
  hoare (fun s => clean (Network_c net) (history s) /\
                  findings (eng s) (Network_c net) = ∅)
    (postNetNode_case net node index evidence)
    (fun _ s => clean (Network_c net) (history s) /\
                findings (eng s) (Network_c net) = ∅)
    (fun s => clean (Network_c net) (history s)).
Proof.
  intros s [Hc Hf]. unfold postNetNode_case.
  unfold bind at 1. unfold Network_Lock.
  destruct (netlocks s !! Network_c net) as [mu |] eqn:Hmu; [| exact Hc].
  destruct (writer mu || negb (Nat.eqb (readers mu) 0)); [exact Hc |].
  fold held_by_writer.
  set (s1 := set_lock (Network_c net) held_by_writer (Acquired (Network_c net)) s).
  assert (Hc1 : clean (Network_c net) (history s1)) by (apply clean_acquire; exact Hc).
  assert (Hl1 : netlocks s1 !! Network_c net = Some held_by_writer)
    by apply locked_after_Lock.
  assert (Hf1 : findings (eng s1) (Network_c net) = ∅) by exact Hf.
  clearbody s1. clear s Hc Hf Hmu.
  unfold bind at 1.
  pose proof (Network_EnterCase_spec net (no_findings net) evidence s1
                (no_findings_after_retract net) s1 eq_refl) as HE.
  destruct (Network_EnterCase net evidence s1) as [[[e |] | |] s2]; try contradiction.
  - destruct HE as ([Hl Hh] & _ & Hempty).
    specialize (Hempty e eq_refl Hf1). unfold no_findings in Hempty.
    rewrite unlock_log_and_return by (rewrite Hl; exact Hl1).
    simpl. rewrite Hh. split; [| exact Hempty].
    apply clean_release; [exact Hc1 | exact Hempty].
  - destruct HE as ([Hl Hh] & _ & _).
    unfold bind at 1.
    pose proof (Node_Infer_spec node s2 (reads s2) (fun s Hr _ => Hr) s2 (reads_refl s2))
      as HI.
    destruct (Node_Infer node s2) as [[[result [e |]] | |] s3].
    + destruct HI as [[[Hl3 Hh3] He3] _].
      rewrite (bind_eq _ _ _ _ _ (Network_ClearCases_eq net s3)). cbn zeta.
      rewrite unlock_log_and_return by (simpl; rewrite Hl3, Hl; exact Hl1).
      simpl. rewrite Hh3, Hh. split; [| apply RetractNetFindings_bn_clears].
      apply clean_release; [exact Hc1 | apply RetractNetFindings_bn_clears].
    + destruct HI as [[[Hl3 Hh3] He3] _].
      rewrite (bind_eq _ _ _ _ _ (Network_ClearCases_eq net s3)). cbn zeta.
      rewrite unlock_and_return by (simpl; rewrite Hl3, Hl; exact Hl1).
      simpl. rewrite Hh3, Hh. split; [| apply RetractNetFindings_bn_clears].
      apply clean_release; [exact Hc1 | apply RetractNetFindings_bn_clears].
    + destruct HI as [[Hl3 Hh3] He3]. rewrite Hh3, Hh. exact Hc1.
    + destruct HI as [[Hl3 Hh3] He3]. rewrite Hh3, Hh. exact Hc1.
Qed.

Lemma postNetNode_loop_safe `{!EngineRetracts E} (net : Network) (node : Node) cases :
  forall index results,
  hoare (fun s => clean (Network_c net) (history s) /\
                  findings (eng s) (Network_c net) = ∅)
    (postNetNode_loop net node index cases results)
    (fun _ s => clean (Network_c net) (history s) /\
                findings (eng s) (Network_c net) = ∅)
    (fun s => clean (Network_c net) (history s)).
Proof.
  induction cases as [| evidence rest IH]; intros index results; cbn [postNetNode_loop].
  - apply hoare_ret. auto.
  - eapply hoare_bind; [apply postNetNode_case_safe |]. intros single. apply IH.
Qed.

(** C1: a batch that starts on a network without findings releases the
    lock of the network only when the network has no findings: every
    release recorded in the history found the finding set empty, whichever
    branch the case took, and also when a later case stops the handler.
    A batch that runs to its end leaves the network without findings. *)
Theorem lock_released_without_findings `{!EngineRetracts E} (net : Network)
    (node : Node) (cases : list (gmap string string)) (s : State) :
  findings (eng s) (Network_c net) = ∅ ->
  clean (Network_c net) (history s) ->
  let run := postNetNode_loop net node 0 cases [] s in
  (forall held, Released (Network_c net) held ∈ history run.2 -> held = ∅) /\
  (forall results, run.1 = Returns results ->
     findings (eng run.2) (Network_c net) = ∅).
Proof.
  intros Hf Hc run.
  pose proof (postNetNode_loop_safe net node cases 0 [] s (conj Hc Hf)) as Hs.
  fold run in Hs. destruct run as [[results | msg |] s'] eqn:Hrun; simpl.
  - destruct Hs as [Hc' Hf']. split.
    + intros held Hin. unfold clean in Hc'. rewrite Forall_forall in Hc'.
      exact (Hc' _ Hin eq_refl).
    + intros _ _. exact Hf'.
  - split; [| discriminate].
    intros held Hin. unfold clean in Hs. rewrite Forall_forall in Hs.
    exact (Hs _ Hin eq_refl).
  - split; [| discriminate].
    intros held Hin. unfold clean in Hs. rewrite Forall_forall in Hs.
    exact (Hs _ Hin eq_refl).
Qed.

(** The shape of one result of a batch: its index, and either an error
    with no value, or no error and a value that [Node.Infer] returned. *)
Definition result_of_case (node : Node) (index : Z) (single : singleJSON) : Prop :=
  singleJSON_Index single = index /\
  ((singleJSON_Error single <> "" /\ singleJSON_Value single = "") \/
   (singleJSON_Error single = "" /\
    exists s2 s3, Node_Infer node s2 = (Returns (singleJSON_Value single, None), s3))).

(** The target node has a state, whatever the engine state. *)
Definition has_states (node : Node) : Prop :=
  forall c, 0 < (GetNodeNumberStates_bn (Node_c node) c).1.

(** One case on a free lock with a target node that has states: the case
    comes to its end, with one well-formed result and the lock free
    again. *)
Lemma postNetNode_case_total (net : Network) (node : Node) index evidence :
  has_states node ->
  hoare (fun s => netlocks s !! Network_c net = Some free)
    (postNetNode_case net node index evidence)
    (fun single s => netlocks s !! Network_c net = Some free /\
                     result_of_case node index single)
    (fun _ => False).
Proof.
  intros Hstates s Hfree. unfold postNetNode_case.
  rewrite (bind_eq _ _ _ _ _ (Network_Lock_free net s Hfree)).
  set (s1 := set_lock (Network_c net) held_by_writer (Acquired (Network_c net)) s).
  assert (Hl1 : netlocks s1 !! Network_c net = Some held_by_writer)
    by apply locked_after_Lock.
  clearbody s1. clear s Hfree.
  unfold bind at 1.
  pose proof (Network_EnterCase_spec net (fun _ => True) evidence s1
                (fun _ => I) s1 eq_refl) as HE.
  destruct (Network_EnterCase net evidence s1) as [[[e |] | |] s2]; try contradiction.
  - destruct HE as ([Hl Hh] & Hn & _).
    rewrite unlock_log_and_return by (rewrite Hl; exact Hl1).
    split; [apply free_after_Unlock |].
    split; [reflexivity |]. left. split; [exact (Hn e eq_refl) | reflexivity].
  - destruct HE as ([Hl Hh] & _ & _).
    unfold bind at 1.
    pose proof (Node_Infer_spec node s2 (fun _ => False)) as HI.
    specialize (HI (fun s _ Hle => Z.lt_irrefl _ (Z.lt_le_trans _ _ _ (Hstates (eng s2)) Hle))
                  s2 (reads_refl s2)).
    destruct (Node_Infer node s2) as [[[result [e |]] | |] s3] eqn:Hinfer;
      try contradiction.
    + destruct HI as [[[Hl3 Hh3] He3] Hn].
      rewrite (bind_eq _ _ _ _ _ (Network_ClearCases_eq net s3)). cbn zeta.
      rewrite unlock_log_and_return by (simpl; rewrite Hl3, Hl; exact Hl1).
      split; [apply free_after_Unlock |].
      split; [reflexivity |]. left. split; [exact (Hn e eq_refl) | reflexivity].
    + destruct HI as [[[Hl3 Hh3] He3] _].
      rewrite (bind_eq _ _ _ _ _ (Network_ClearCases_eq net s3)). cbn zeta.
      rewrite unlock_and_return by (simpl; rewrite Hl3, Hl; exact Hl1).
      split; [apply free_after_Unlock |].
      split; [reflexivity |]. right. split; [reflexivity |]. simpl. eauto.
Qed.

Lemma postNetNode_loop_total (net : Network) (node : Node) cases :
  has_states node ->
  forall index results s,
  netlocks s !! Network_c net = Some free ->
  exists added s',
    postNetNode_loop net node index cases results s = (Returns (results ++ added)%list, s') /\
    netlocks s' !! Network_c net = Some free /\
    length added = length cases /\
    (forall i single, added !! i = Some single ->
       result_of_case node (index + Z.of_nat i) single).
Proof.
  intros Hstates.
  induction cases as [| evidence rest IH]; intros index results s Hfree;
    cbn [postNetNode_loop].
  - exists [], s. rewrite app_nil_r.
    split; [reflexivity |]. split; [exact Hfree |]. split; [reflexivity |].
    intros i single Hi. rewrite lookup_nil in Hi. discriminate.
  - pose proof (postNetNode_case_total net node index evidence Hstates s Hfree) as Hc.
    destruct (postNetNode_case net node index evidence s) as [[single | |] s1] eqn:Hcase;
      try contradiction.
    destruct Hc as [Hfree1 Hsingle].
    destruct (IH (index + 1) (results ++ [single])%list s1 Hfree1)
      as (added & s' & Hloop & Hfree' & Hlen & Hall).
    exists (single :: added), s'.
    rewrite (bind_eq _ _ _ _ _ Hcase), Hloop, <- app_assoc.
    split; [reflexivity |]. split; [exact Hfree' |].
    split; [simpl; rewrite Hlen; reflexivity |].
    intros [| i] single' Hi.
    + injection Hi as <-. rewrite Z.add_0_r. exact Hsingle.
    + replace (index + Z.of_nat (S i)) with (index + 1 + Z.of_nat i) by lia.
      apply Hall. exact Hi.
Qed.



End BatchProperties.

(** ** The registry: loading and listing networks *)

Section RegistryProperties.
Context {E : Engine} {G : GoRuntime}.

(** A computation that comes to its end from every state. *)
Definition total {A} (m : M A) : Prop := forall s, exists a s', m s = (Returns a, s').

Lemma total_ret {A} (a : A) : total (ret a).
Proof. intros s. eexists _, _. reflexivity. Qed.

Lemma total_bind {A B} (m : M A) (k : A -> M B) :
  total m -> (forall a, total (k a)) -> total (bind m k).
Proof.
  intros Hm Hk s. destruct (Hm s) as (a & s1 & H1).
  destruct (Hk a s1) as (b & s2 & H2).
  exists b, s2. rewrite (bind_eq _ _ _ _ _ H1). exact H2.
Qed.

Lemma total_ask {A} (q : core -> A * list report) : total (ask q).
Proof. intros s. rewrite ask_eq. eexists _, _. reflexivity. Qed.

Lemma total_Errors : total Environment_Errors.
Proof. intros s. rewrite Environment_Errors_eq. eexists _, _. reflexivity. Qed.

Lemma total_Println line : total (Println line).
Proof. intros s. eexists _, _. reflexivity. Qed.

Lemma total_for_each {A B} (body : A -> M B) l :
  (forall a, total (body a)) -> total (for_each body l).
Proof.
  intros Hb. induction l as [| a rest IH]; cbn [for_each].
  - apply total_ret.
  - apply total_bind; [apply Hb |]. intros b.
    apply total_bind; [exact IH |]. intros bs. apply total_ret.
Qed.

Lemma total_NodeMap_loop (net : Network) cNodes : forall nodes,
  total (NodeMap_loop net cNodes nodes).
Proof.
  induction cNodes as [| cNode rest IH]; intros nodes; cbn [NodeMap_loop].
  - apply total_ret.
  - apply total_bind; [apply total_ask |]. intros name. apply IH.
Qed.

Lemma total_NodeList (net : Network) : total (Network_NodeList net).
Proof.
  unfold Network_NodeList, Network_NodeMap, Network_Errors.
  apply total_bind.
  - apply total_bind; [apply total_ask |]. intros cNodes.
    apply total_bind; [apply total_NodeMap_loop |]. intros nodes.
    apply total_bind; [apply total_Errors |]. intros [e |]; apply total_ret.
  - intros [nodeMap [e |]]; apply total_ret.
Qed.

Lemma total_StateNameList (node : Node) : total (Node_StateNameList node).
Proof.
  unfold Node_StateNameList, Node_Errors, Network_Errors.
  apply total_bind; [apply total_ask |]. intros n.
  apply total_bind; [apply total_for_each; intros i; apply total_ask |]. intros names.
  apply total_bind; [apply total_Errors |]. intros [e |]; apply total_ret.
Qed.

Lemma total_LevelList (node : Node) : total (Node_LevelList node).
Proof.
  unfold Node_LevelList, Node_IsContinuousType, Node_Errors, Network_Errors.
  apply total_bind; [apply total_ask |]. intros [levels |]; [| apply total_ret].
  apply total_bind; [apply total_ask |]. intros n.
  apply total_bind.
  { apply total_bind; [apply total_ask |]. intros t. apply total_ret. }
  intros continuous.
  apply total_bind; [apply total_Errors |]. intros [e |]; apply total_ret.
Qed.

Lemma total_buildJSON_nodes nodeList : forall index nodes,
  total (buildJSON_nodes index nodeList nodes).
Proof.
  induction nodeList as [| node rest IH]; intros index nodes; cbn [buildJSON_nodes].
  - apply total_ret.
  - unfold Node_Name, Node_Title, Node_Comment.
    apply total_bind; [apply total_ask |]. intros name.
    apply total_bind; [apply total_ask |]. intros title.
    apply total_bind; [apply total_ask |]. intros comment.
    apply total_bind; [apply total_StateNameList |].
    intros [names [e |]]; [apply total_ret |].
    apply total_bind; [apply total_LevelList |].
    intros [levels [e |]]; [apply total_ret | apply IH].
Qed.

(** The entries that [buildJSON] appends: each describes the network at
    its index in [netList], and the indexes grow. *)
Definition describes (nets_ : list Network) (repr : netJSON) : Prop :=
  exists net s1 s2,
    nets_ !! Z.to_nat (netJSON_Index repr) = Some net /\
    Network_Name net s1 = (Returns (netJSON_Name repr), s2).

Lemma buildJSON_nets_spec rest : forall netIndex acc s,
  exists added nets' s',
    buildJSON_nets netIndex rest acc s = (Returns ((acc.1 ++ added)%list, nets'), s') /\
    StronglySorted Z.lt (map netJSON_Index added) /\
    Forall (fun repr =>
              netIndex <= netJSON_Index repr < netIndex + Z.of_nat (length rest) /\
              exists net s1 s2,
                rest !! Z.to_nat (netJSON_Index repr - netIndex) = Some net /\
                Network_Name net s1 = (Returns (netJSON_Name repr), s2)) added.
Proof.
  induction rest as [| net rest IH]; intros netIndex [list_ nets] s;
    cbn [buildJSON_nets].
  - exists [], nets, s. rewrite app_nil_r. repeat constructor.
  - unfold Network_Name at 1. unfold Network_Title, Network_Comment.
    rewrite (bind_eq _ _ _ _ _ (ask_eq _ _)).
    rewrite (bind_eq _ _ _ _ _ (ask_eq _ _)).
    rewrite (bind_eq _ _ _ _ _ (ask_eq _ _)).
    match goal with
    | |- context [bind (Network_NodeList net) _ ?s0] =>
        destruct (total_NodeList net s0) as ([nodeList err] & s1 & HL);
        rewrite (bind_eq _ _ _ _ _ HL)
    end.
    assert (Hshift : forall added,
      Forall (fun repr =>
                netIndex + 1 <= netJSON_Index repr
                  < netIndex + 1 + Z.of_nat (length rest) /\
                exists net0 s1 s2,
                  rest !! Z.to_nat (netJSON_Index repr - (netIndex + 1)) = Some net0 /\
                  Network_Name net0 s1 = (Returns (netJSON_Name repr), s2)) added ->
      Forall (fun repr =>
                netIndex <= netJSON_Index repr
                  < netIndex + Z.of_nat (length (net :: rest)) /\
                exists net0 s1 s2,
                  (net :: rest) !! Z.to_nat (netJSON_Index repr - netIndex) = Some net0 /\
                  Network_Name net0 s1 = (Returns (netJSON_Name repr), s2)) added /\
      Forall (fun repr => netIndex < netJSON_Index repr) added).
    { intros added Ha. split.
      - eapply Forall_impl; [exact Ha |]. intros repr [Hr (net0 & sa & sb & Hn & Hnm)].
        split; [simpl length; lia |]. exists net0, sa, sb. split; [| exact Hnm].
        replace (Z.to_nat (netJSON_Index repr - netIndex))
          with (S (Z.to_nat (netJSON_Index repr - (netIndex + 1)))) by lia.
        exact Hn.
      - eapply Forall_impl; [exact Ha |]. intros repr [Hr _]. lia. }
    destruct err as [e |].
    + rewrite (bind_eq _ _ _ _ _ (eq_refl : Println e s1 = (Returns tt, _))).
      match goal with
      | |- context [buildJSON_nets _ rest _ ?s0] =>
          destruct (IH (netIndex + 1) (list_, nets) s0) as (added & nets' & s' & HB & Hs & Hf)
      end.
      exists added, nets', s'. split; [exact HB |]. split; [exact Hs |].
      apply Hshift. exact Hf.
    + match goal with
      | |- context [bind (buildJSON_nodes 0 nodeList []) _ ?s0] =>
          destruct (total_buildJSON_nodes nodeList 0 [] s0) as (nodes & s2 & HN);
          rewrite (bind_eq _ _ _ _ _ HN)
      end.
      match goal with
      | |- context [buildJSON_nets _ rest ?acc0 ?s0] =>
          destruct (IH (netIndex + 1) acc0 s0) as (added & nets' & s' & HB & Hs & Hf)
      end.
      cbn [fst] in HB. rewrite <- app_assoc in HB.
      eexists (_ :: added), nets', s'. split; [exact HB |].
      destruct (Hshift added Hf) as [Hf1 Hf2].
      split.
      * cbn [map]. constructor; [exact Hs |].
        rewrite Forall_map. exact Hf2.
      * constructor; [| exact Hf1]. cbn [netJSON_Index netJSON_Name].
        split; [simpl length; lia |].
        exists net, s, (with_eng (eng s) (GetNetName_bn (Network_c net) (eng s)).2 s).
        split; [rewrite Z.sub_diag; reflexivity |].
        unfold Network_Name. apply ask_eq.
Qed.

(** C9, as the code has it: the networks are listed in the order in which
    they were loaded, not in the order of their names.  [buildJSON] always
    comes to its end; the list it builds goes through [netList] from the
    first network to the last, each entry under the index of its network
    in [netList] and with the name the engine gives for that network; and
    [getNets] returns this list, the same for every request. *)
Theorem networks_listed_in_load_order (g : Globals) (s : State) :
  exists list_ nets s',
    buildJSON g s = (Returns (list_, nets, None), s') /\
    StronglySorted Z.lt (map netJSON_Index list_) /\
    Forall (describes (netList g)) list_ /\
    forall r1 r2 s1 s2,
      let g' := mkGlobals (netList g) (netLookup g) list_ nets in
      getNets g' r1 s1 = (Returns (WriteNets list_), s1) /\
      (getNets g' r1 s1).1 = (getNets g' r2 s2).1.
Proof.
  destruct (buildJSON_nets_spec (netList g) 0 ([], ∅) s)
    as (added & nets & s' & HB & Hs & Hf).
  exists added, nets, s'. unfold buildJSON.
  rewrite (bind_eq _ _ _ _ _ HB). split; [reflexivity |]. split; [exact Hs |].
  split.
  - eapply Forall_impl; [exact Hf |].
    intros repr [_ (net & s1 & s2 & Hn & Hnm)]. exists net, s1, s2.
    rewrite Z.sub_0_r in Hn. split; assumption.
  - intros r1 r2 s1 s2. split; reflexivity.
Qed.

(** *** Loading *)

Lemma Network_CloseNetwork_eq (net : Network) s :
  Network_CloseNetwork net s =
    let r := DeleteNet_bn (Network_c net) (eng s) in
    (Returns (errors_of (errq s ++ r.1)),
     mkState r.2 [] (delete (Network_c net) (netlocks s)) (logged s) (history s)).
Proof.
  unfold Network_CloseNetwork, Network_Errors.
  rewrite (bind_eq _ _ _ _ _ (tell_eq _ _)).
  rewrite (bind_eq _ _ _ _ _ (eq_refl : unregister_lock _ _ = (Returns tt, _))).
  rewrite Environment_Errors_eq. reflexivity.
Qed.

(** A file that the walk hands to the engine: not a directory, and with
    one of the two extensions. *)
Definition network_file (path : string) (info : FileInfo) : Prop :=
  IsDir info = false /\
  (filepath_Ext path = ".dne" \/ filepath_Ext path = ".neta").

Lemma network_file_test path info :
  network_file path info ->
  negb (IsDir info)
  && (String.eqb (filepath_Ext path) ".dne" || String.eqb (filepath_Ext path) ".neta")
  = true.
Proof.
  intros [-> [-> | ->]]; reflexivity.
Qed.









Lemma Walk_app root entries1 entries2 : forall acc s,
  Walk root (entries1 ++ entries2)%list acc s =
    (acc1 <- Walk root entries1 acc ;; Walk root entries2 acc1) s.
Proof.
  induction entries1 as [| entry rest IH]; intros acc s.
  - reflexivity.
  - cbn [app Walk]. unfold bind.
    destruct (indexNets_visit root acc entry s) as [[acc1 | |] s1];
      [| reflexivity | reflexivity].
    rewrite IH. reflexivity.
Qed.


(** C6, where the code leaves it: a request to [postNetNode] for a known
    network whose node identifier is not the name of a node and reads as
    an integer outside the node list of the network.  The handler indexes
    the list with it and panics; it does not answer not-found. *)
Theorem postNetNode_index_out_of_range (g : Globals) (r : Request) (s : State)
    (repr : netJSON) (net : Network) (index : Z) :
  netsJSON g !! netid r = Some repr ->
  netLookup g !! netid r = Some net ->
  (GetNodeNamed_bn (nodeid r) (Network_c net) (eng s)).1 = 0%N ->
  Atoi (nodeid r) = Some index ->
  index < 0 \/ Z.of_nat (length (netJSON_Nodes repr)) <= index ->
  exists msg s', postNetNode g r s = (Panics msg, s').
Proof.
  intros Hrepr Hnet Hnil Hatoi Hrange. unfold postNetNode.
  rewrite Hrepr, Hnet. cbn zeta.
  unfold Network_NodeNamed at 1. unfold bind at 1. unfold bind at 1.
  rewrite ask_eq, Hnil. cbn [N.eqb]. unfold Network_Name.
  rewrite (bind_eq _ _ _ _ _ (ask_eq _ _)). cbn [ret]. cbn iota beta.
  rewrite Hatoi. unfold bind at 1. unfold index_nodes.
  destruct (index <? 0) eqn:Hneg.
  - eexists _, _. reflexivity.
  - apply Z.ltb_ge in Hneg.
    assert (Hnone : netJSON_Nodes repr !! Z.to_nat index = None).
    { apply lookup_ge_None. lia. }
    rewrite Hnone. eexists _, _. reflexivity.
Qed.

End RegistryProperties.

(** ** The table-driven engine retracts findings *)

Lemma Table_engine_retracts (nodes : list (cnode * Table.node_row)) :
  EngineRetracts (Table.engine nodes).
Proof.
  split.
  - intros net c. cbn. rewrite lookup_delete_eq. reflexivity.
  - intros node c net. cbn. rewrite lookup_fmap.
    destruct (Table.held c !! net) as [m |]; cbn.
    + apply lookup_delete_eq.
    + apply lookup_empty.
Qed.

(** ** An example: one network about the weather *)

(** Closes [m s = (Returns a, s')] on closed terms by running [m]. *)
Ltac returned_by_computation :=
  match goal with
  | |- ?r = (Returns _, _) => apply (returns_eq r); vm_compute; reflexivity
  end.

Module Weather.

Definition nodes : list (cnode * Table.node_row) :=
  [ (10%N, Table.mkNodeRow 1 "Rain" ["Low"; "Medium"; "High"]
             [0.2%float; 0.5%float; 0.3%float] Table.Undefined);
    (11%N, Table.mkNodeRow 1 "Temp" ["42"; "cold"]
             [0.5%float; 0.5%float] (Table.Defined 42%float 1%float));
    (12%N, Table.mkNodeRow 1 "Wind" ["calm"; "gale"]
             [0.25%float; 0.75%float]
             (Table.Raises (mkReport 6503 "expected value not available")));
    (13%N, Table.mkNodeRow 1 "Void" [] [] Table.Undefined) ].

Definition disk : list (string * string) :=
  [ ("nets/a.dne", "Zeta"); ("nets/b.neta", "Alpha"); ("nets/c.dne", "Zeta") ].

#[local] Instance engine : Engine := Table.engine nodes.
#[local] Instance runtime : GoRuntime := Table.runtime disk.
#[local] Instance retracts : EngineRetracts engine := Table_engine_retracts nodes.

Definition net : Network := mkNetwork 1.
Definition rain : Node := mkNode 10 net.
Definition temp : Node := mkNode 11 net.
Definition wind : Node := mkNode 12 net.
Definition void : Node := mkNode 13 net.

(** The network loaded, its lock free, no finding entered. *)
Definition loaded : State :=
  Table.start nodes (Table.mkTable [(1%N, "Weather")] ∅ "") {[1%N := free]}.

(** The same with a finding entered for the wind beforehand. *)
Definition observed : State :=
  Table.start nodes
    (Table.mkTable [(1%N, "Weather")] {[1%N := {[12%N := StateFinding 1]}]} "")
    {[1%N := free]}.

(** *** Most likely state *)

(** The rain has three states and beliefs 0.2, 0.5, 0.3: the index
    returned lies within the list (it is 1), and the node without states
    makes [Node.State] panic. *)
Lemma State_on_rain_and_void :
  (Node_State rain loaded).1 = Returns (1, None) /\
  (length [0.2%float; 0.5%float; 0.3%float]
     = Z.to_nat (GetNodeNumberStates_bn (Node_c rain) (eng loaded)).1 /\
   ([0.2%float; 0.5%float; 0.3%float] <> [] ->
      exists index,
        Node_State rain loaded = (Returns (index, None), (Node_BeliefList rain loaded).2) /\
        0 <= index < Z.of_nat (length [0.2%float; 0.5%float; 0.3%float])) /\
   ([0.2%float; 0.5%float; 0.3%float] = [] ->
      exists msg, Node_State rain loaded = (Panics msg, (Node_BeliefList rain loaded).2))) /\
  (length (@nil float64)
     = Z.to_nat (GetNodeNumberStates_bn (Node_c void) (eng loaded)).1 /\
   (@nil float64 <> [] ->
      exists index,
        Node_State void loaded = (Returns (index, None), (Node_BeliefList void loaded).2) /\
        0 <= index < Z.of_nat (length (@nil float64))) /\
   (@nil float64 = [] ->
      exists msg, Node_State void loaded = (Panics msg, (Node_BeliefList void loaded).2))).
Proof.
  split; [vm_compute; reflexivity |]. split.
  - apply (State_first_belief_unguarded rain loaded).
    returned_by_computation.
  - apply (State_first_belief_unguarded void loaded).
    returned_by_computation.
Defined.

(** *** Findings *)


(** The token 42 on the temperature, which has a state named 42, is
    entered as the value 42; the marker with 1 enters state 1; the name
    cold is looked up. *)
Lemma EnterFinding_on_temp :
  (GetStateNamed_bn "42" (Node_c temp) (eng loaded)).1 = 0 /\
  Node_EnterFinding temp "42" = Node_SetValue temp 42%float /\
  findings (eng (Node_EnterFinding temp "42" loaded).2) 1%N !! Node_c temp
    = Some (ValueFinding 42%float) /\
  Node_EnterFinding temp "#1" = Node_SetState temp 1 /\
  Node_EnterFinding temp "cold" = enter_named_state temp "cold" /\
  findings (eng (Node_EnterFinding temp "cold" loaded).2) 1%N !! Node_c temp
    = Some (StateFinding 1).
Proof.
  split; [vm_compute; reflexivity |].
  split; [refine (proj1 (EnterFinding_precedence temp "42") 42%float _);
          vm_compute; reflexivity |].
  split; [vm_compute; reflexivity |].
  split; [refine (proj1 (proj2 (EnterFinding_precedence temp "#1")) 1 _ _ _);
          vm_compute; reflexivity |].
  split; [refine (proj1 (proj2 (proj2 (EnterFinding_precedence temp "cold"))) _ _);
          [vm_compute; reflexivity | left; vm_compute; reflexivity] |].
  vm_compute. reflexivity.
Defined.

(** *** Inference *)

(** The expected value of the rain is undefined: [Node.Infer] answers
    with the most likely state. *)
Lemma Infer_on_rain :
  (Node_Infer rain loaded).1 = Returns ("Medium", None) /\
  Node_Infer rain loaded =
    (Returns
       (if String.eqb
             (state_name_query rain 1 (Node_State rain (Node_Value rain loaded).2).2).1 ""
        then "#" +:+ Itoa 1
        else (state_name_query rain 1 (Node_State rain (Node_Value rain loaded).2).2).1,
        None),
     drained (with_eng (eng (Node_State rain (Node_Value rain loaded).2).2)
                (state_name_query rain 1 (Node_State rain (Node_Value rain loaded).2).2).2
                (Node_State rain (Node_Value rain loaded).2).2)).
Proof.
  split; [vm_compute; reflexivity |].
  refine (proj1 (proj2 (Infer_falls_back_on_any_failure rain loaded))
            0%float 0%float undefined_expected_value (Node_Value rain loaded).2
            1 (Node_State rain (Node_Value rain loaded).2).2 _ _ _).
  - returned_by_computation.
  - returned_by_computation.
  - vm_compute. reflexivity.
Defined.

(** What C3 says of errors other than the undefined value: that
    [Node.Infer] returns them. *)
Definition propagates_other_errors (node : Node) (s : State) : Prop :=
  forall v sd e s1,
    Node_Value node s = (Returns (v, sd, Some e), s1) ->
    e <> undefined_expected_value ->
    exists result s', Node_Infer node s = (Returns (result, Some e), s').

(** The engine raises a report when asked for the expected value of the
    wind; [Node.Infer] drops it and answers with the most likely state. *)
Lemma Infer_drops_error_of_Value : ~ propagates_other_errors wind loaded.
Proof.
  intros Hp.
  destruct (Hp 0%float 0%float "6503 - expected value not available"
              (Node_Value wind loaded).2) as (result & s' & Hinfer).
  - returned_by_computation.
  - discriminate.
  - apply (f_equal fst) in Hinfer. vm_compute in Hinfer. discriminate Hinfer.
Qed.

(** *** Cases *)

(** What C2 says of the finding set: that it is the same after a failed
    [Network.EnterCase] as before. *)
Definition restores_findings (net : Network) (caseMap : gmap string string)
    (s : State) : Prop :=
  forall e s',
    Network_EnterCase net caseMap s = (Returns (Some e), s') ->
    findings (eng s') (Network_c net) = findings (eng s) (Network_c net).

Definition warm : gmap string string := {["Temp" := "warm"]}.

Definition state_warm_not_defined : string :=
  "In function Node.StateNamed: state warm not defined for node Temp".

(** With a finding entered for the wind beforehand, a case that fails on
    the temperature leaves the network without any finding: the finding of
    the wind is gone too. *)
Lemma EnterCase_does_not_restore : ~ restores_findings net warm observed.
Proof.
  intros Hr.
  specialize (Hr state_warm_not_defined (Network_EnterCase net warm observed).2).
  assert (He : Network_EnterCase net warm observed =
               (Returns (Some state_warm_not_defined),
                (Network_EnterCase net warm observed).2))
    by returned_by_computation.
  specialize (Hr He). apply (f_equal (fun m => m !! 12%N)) in Hr.
  vm_compute in Hr. discriminate Hr.
Qed.

Definition high_and_warm : gmap string string := {["Rain" := "High"; "Temp" := "warm"]}.

(** A case that fails on the temperature after the rain was entered:
    the network holds no finding afterwards. *)
Lemma EnterCase_partial_failure :
  findings (eng (Network_EnterCase net high_and_warm loaded).2) (Network_c net) = ∅ /\
  (findings (eng loaded) (Network_c net) = ∅ ->
   findings (eng (Network_EnterCase net high_and_warm loaded).2) (Network_c net)
   = findings (eng loaded) (Network_c net)).
Proof.
  refine (EnterCase_error_retracts_all net high_and_warm
            loaded (Network_NodeMap net loaded).2
            (Network_EnterCase net high_and_warm loaded).2
            (returned (∅, None) (Network_NodeMap net loaded).1).1
            state_warm_not_defined _ _).
  - returned_by_computation.
  - returned_by_computation.
Defined.

(** *** Batches *)

Definition cases : list (gmap string string) :=
  [ {["Rain" := "High"]}; warm; ∅ ].

(** A batch of three cases on the rain, the second of which fails: the
    lock is released three times, each time without findings. *)
Lemma batch_releases_without_findings :
  history (postNetNode_loop net rain 0 cases [] loaded).2
  = [Acquired 1; Released 1 ∅; Acquired 1; Released 1 ∅; Acquired 1; Released 1 ∅] /\
  (forall held,
     Released (Network_c net) held ∈ history (postNetNode_loop net rain 0 cases [] loaded).2 ->
     held = ∅) /\
  (forall results,
     (postNetNode_loop net rain 0 cases [] loaded).1 = Returns results ->
     findings (eng (postNetNode_loop net rain 0 cases [] loaded).2) (Network_c net) = ∅).
Proof.
  split; [vm_compute; reflexivity |].
  refine (lock_released_without_findings net rain cases loaded _ _).
  - vm_compute. reflexivity.
  - apply Forall_nil. exact I.
Defined.


(** *** Loading and listing *)

Definition directory : option FileInfo := Some (mkFileInfo true).
Definition file : FileInfo := mkFileInfo false.

(** The walk of the directory: a.dne and c.dne both hold a network named
    Zeta, b.neta one named Alpha. *)
Definition walked : list (string * option FileInfo) :=
  [ ("nets", directory); ("nets/a.dne", Some file);
    ("nets/b.neta", Some file); ("nets/c.dne", Some file) ].

(** The process before any network is loaded. *)
Definition fresh : State := Table.start nodes (Table.mkTable [] ∅ "") ∅.

Definition zeta : Network := mkNetwork 1.
Definition alpha : Network := mkNetwork 2.

Definition registry_empty : list Network * gmap string Network := ([], ∅).

Definition at_a : State := (Walk "nets" [("nets", directory)] registry_empty fresh).2.
Definition a_read : State := (NewNetwork "nets/a.dne" at_a).2.
Definition a_named : State := (Network_Name zeta a_read).2.

Definition registry_a : list Network * gmap string Network :=
  ([zeta], <["0" := zeta]> (<["Zeta" := zeta]> ∅)).

Definition registry_ab : list Network * gmap string Network :=
  returned registry_empty
    (Walk "nets" [("nets/b.neta", Some file)] registry_a a_named).1.



(** What C9 says of the listing: that it is sorted by name. *)
Definition sorted_by_name (listing : list netJSON) : Prop :=
  Sorted (fun a b => String.leb (netJSON_Name a) (netJSON_Name b) = true) listing.

(** The server as it starts: the networks are indexed, their JSON is
    built, and the list of networks is asked for. *)
Definition served : outcome Response :=
  ((r <- indexNets "nets" walked ;;
    let '(nets_, lookup, _) := r in
    b <- buildJSON (mkGlobals nets_ lookup [] ∅) ;;
    let '(list_, nets, _) := b in
    getNets (mkGlobals nets_ lookup list_ nets) (mkRequest "" "" (inr "")))
     fresh).1.

(** Zeta was loaded before Alpha and is listed before it. *)
Lemma listing_not_sorted_by_name :
  ~ (forall listing, served = Returns (WriteNets listing) -> sorted_by_name listing).
Proof.
  intros Hs.
  specialize (Hs [mkNetJSON 0 "Zeta" "Zeta" "" []; mkNetJSON 1 "Alpha" "Alpha" "" []]).
  assert (Hl : served = Returns (WriteNets [mkNetJSON 0 "Zeta" "Zeta" "" [];
                                            mkNetJSON 1 "Alpha" "Alpha" "" []]))
    by (vm_compute; reflexivity).
  specialize (Hs Hl). inversion Hs as [| a l Hrest Hhd]; subst.
  inversion Hhd as [| b l' Hle]; subst. vm_compute in Hle. discriminate Hle.
Qed.

(** *** Requests *)

(** The package variables once the weather network is loaded. *)
Definition weather_lookup : gmap string Network := {["Weather" := net; "0" := net]}.

Definition globals : Globals :=
  let b := returned ([], ∅, None) (buildJSON (mkGlobals [net] weather_lookup [] ∅) loaded).1 in
  mkGlobals [net] weather_lookup b.1.1 b.1.2.

Definition weather_repr : netJSON :=
  default (mkNetJSON 0 "" "" "" []) (netsJSON globals !! "0").

(** A request for node 99 of the network, which has four nodes. *)
Definition node_99 : Request := mkRequest "0" "99" (inl (mkCaseJSON "q" [∅])).

(** The describe-node handler answers not-found, the inference handler
    panics. *)
Lemma postNetNode_on_node_99 :
  length (netJSON_Nodes weather_repr) = 4%nat /\
  (getNetNode globals node_99 loaded).1 = Returns NotFound /\
  exists msg s', postNetNode globals node_99 loaded = (Panics msg, s').
Proof.
  split; [vm_compute; reflexivity |]. split; [vm_compute; reflexivity |].
  refine (postNetNode_index_out_of_range globals node_99 loaded weather_repr net 99
            _ _ _ _ _).
  - vm_compute. reflexivity.
  - vm_compute. reflexivity.
  - vm_compute. reflexivity.
  - vm_compute. reflexivity.
  - right. vm_compute. discriminate.
Defined.

End Weather.

(** * Further properties of the code *)

(** [initAPIPrefix] of serve.go. *)
Definition initAPIPrefix (prefix : string) : string :=
  let path := "/" in
  if negb (String.eqb prefix "") then
    if negb (HasPrefix prefix "/") then path +:+ prefix else prefix
  else path.

(** X1: the path prefix that [initAPIPrefix] computes always starts with
    a slash; a prefix that already starts with one is kept as it is, so
    computing the prefix twice changes nothing. *)
Theorem initAPIPrefix_rooted (prefix : string) :
  HasPrefix (initAPIPrefix prefix) "/" = true /\
  (HasPrefix prefix "/" = true -> initAPIPrefix prefix = prefix) /\
  initAPIPrefix (initAPIPrefix prefix) = initAPIPrefix prefix.
Proof.
  assert (Hrooted : HasPrefix (initAPIPrefix prefix) "/" = true).
  { unfold initAPIPrefix. destruct prefix as [| a rest]; [reflexivity |].
    cbn [String.eqb negb]. destruct (HasPrefix (String a rest) "/") eqn:Hp; [exact Hp |].
    reflexivity. }
  assert (Hkept : forall p, HasPrefix p "/" = true -> initAPIPrefix p = p).
  { intros p Hp. unfold initAPIPrefix. destruct p as [| a rest]; [discriminate Hp |].
    cbn [String.eqb negb]. rewrite Hp. reflexivity. }
  split; [exact Hrooted |]. split; [apply Hkept |]. apply Hkept. exact Hrooted.
Qed.

Section EngineErrors.
Context {E : Engine} {G : GoRuntime}.

Lemma errors_of_None_iff pending : errors_of pending = None <-> pending = [].
Proof.
  split; [| intros ->; reflexivity].
  unfold errors_of. destruct pending as [| r rest]; [reflexivity |].
  cbn [drain]. rewrite drain_app. discriminate.
Qed.

(** X2: [Environment.Errors] returns nil exactly when no report is
    pending; it leaves no report pending, so a call right after it returns
    nil; and it does not change the engine state. *)
Theorem Errors_drains_the_queue (s : State) :
  ((Environment_Errors s).1 = Returns None <-> errq s = []) /\
  errq (Environment_Errors s).2 = [] /\
  (Environment_Errors (Environment_Errors s).2).1 = Returns None /\
  eng (Environment_Errors s).2 = eng s.
Proof.
  rewrite !Environment_Errors_eq. cbn [fst snd drained errq eng].
  split; [| split; [reflexivity | split; reflexivity]].
  rewrite <- errors_of_None_iff. split; [intros [= H]; exact H | intros ->; reflexivity].
Qed.

(** X3: [Node.SetState] and [Node.SetValue] return nil exactly when no
    report was pending before the call and the engine raised none for the
    finding.  A report left pending by an earlier call that was not checked
    makes them fail, whatever the engine says of the finding. *)
Theorem finding_entered_iff_no_report (node : Node) (s : State) :
  (forall state,
     (Node_SetState node state s).1 = Returns None <->
     errq s = [] /\ (EnterFinding_bn (Node_c node) (to_C_int state) (eng s)).1 = []) /\
  (forall value,
     (Node_SetValue node value s).1 = Returns None <->
     errq s = [] /\ (EnterNodeValue_bn (Node_c node) value (eng s)).1 = []).
Proof.
  split.
  - intros state. rewrite Node_SetState_eq. cbn zeta.
    destruct (errors_of _) as [e |] eqn:He; cbn [fst].
    + split; [discriminate |]. intros [H1 H2]. rewrite H1, H2 in He. discriminate He.
    + split; [intros _ | reflexivity].
      apply errors_of_None_iff in He. apply app_eq_nil in He. exact He.
  - intros value. rewrite Node_SetValue_eq. cbn zeta.
    destruct (errors_of _) as [e |] eqn:He; cbn [fst].
    + split; [discriminate |]. intros [H1 H2]. rewrite H1, H2 in He. discriminate He.
    + split; [intros _ | reflexivity].
      apply errors_of_None_iff in He. apply app_eq_nil in He. exact He.
Qed.

End EngineErrors.

Section MostLikelyState.
Context {E : Engine} {G : GoRuntime}.

(** Beliefs that compare as numbers do: [<] is asymmetric, and what is
    not below [x] is below everything [x] is below.  A NaN among the
    beliefs breaks the second. *)
Definition compare_as_numbers (beliefs : list float64) : Prop :=
  (forall x y, x ∈ beliefs -> y ∈ beliefs ->
     PrimFloat.ltb x y = true -> PrimFloat.ltb y x = false) /\
  (forall x y z, x ∈ beliefs -> y ∈ beliefs -> z ∈ beliefs ->
     PrimFloat.ltb x y = false -> PrimFloat.ltb x z = true -> PrimFloat.ltb y z = true).

(** The invariant of the loop of [Node.State] after the beliefs [seen]:
    the current maximum is one of them, none of them is above it, and all
    before it are below it. *)
Definition first_maximum (seen : list float64) (maxIndex : nat) (maxBelief : float64)
    : Prop :=
  seen !! maxIndex = Some maxBelief /\
  (forall j b, seen !! j = Some b -> PrimFloat.ltb maxBelief b = false) /\
  (forall j b, (j < maxIndex)%nat -> seen !! j = Some b ->
     PrimFloat.ltb b maxBelief = true).

Lemma State_loop_first_maximum (beliefs : list float64) :
  compare_as_numbers beliefs ->
  forall rest seen maxIndex maxBelief,
  beliefs = (seen ++ rest)%list ->
  first_maximum seen maxIndex maxBelief ->
  exists i b,
    State_loop rest (Z.of_nat (length seen)) (Z.of_nat maxIndex) maxBelief = Z.of_nat i /\
    first_maximum beliefs i b.
Proof.
  intros [Hasym Hweak].
  induction rest as [| belief rest IH]; intros seen maxIndex maxBelief Hb Hinv;
    cbn [State_loop].
  - rewrite app_nil_r in Hb. subst seen. exists maxIndex, maxBelief. split; [reflexivity | exact Hinv].
  - destruct Hinv as (Hmax & Habove & Hbelow).
    assert (Hin : forall j b, seen !! j = Some b -> b ∈ beliefs).
    { intros j b Hj. rewrite Hb. apply elem_of_app. left.
      apply list_elem_of_lookup. eauto. }
    assert (Hbelief : belief ∈ beliefs).
    { rewrite Hb. apply elem_of_app. right. apply elem_of_cons. left. reflexivity. }
    assert (Hm : maxBelief ∈ beliefs) by eauto.
    assert (Hlen : (maxIndex < length seen)%nat) by (eapply lookup_lt_Some; eauto).
    replace (Z.of_nat (length seen) + 1) with (Z.of_nat (length (seen ++ [belief])%list))
      by (rewrite length_app; simpl; lia).
    destruct (PrimFloat.ltb maxBelief belief) eqn:Hlt.
    + apply (IH (seen ++ [belief])%list (length seen) belief).
      * rewrite <- app_assoc. exact Hb.
      * split; [| split].
        -- rewrite lookup_app_r by lia. rewrite Nat.sub_diag. reflexivity.
        -- intros j b Hj. apply lookup_app_Some in Hj as [Hj | [Hge Hj]].
           ++ apply (Hasym b belief); [eauto | exact Hbelief |].
              apply (Hweak maxBelief b belief); eauto.
           ++ apply list_lookup_singleton_Some in Hj as [_ <-].
              destruct (PrimFloat.ltb belief belief) eqn:Hbb; [| reflexivity].
              rewrite (Hasym belief belief Hbelief Hbelief Hbb) in Hbb. discriminate.
        -- intros j b Hj Hjs. rewrite lookup_app_l in Hjs by lia.
           apply (Hweak maxBelief); eauto.
    + apply (IH (seen ++ [belief])%list maxIndex maxBelief).
      * rewrite <- app_assoc. exact Hb.
      * split; [| split].
        -- rewrite lookup_app_l by lia. exact Hmax.
        -- intros j b Hj. apply lookup_app_Some in Hj as [Hj | [Hge Hj]]; [eauto |].
           apply list_lookup_singleton_Some in Hj as [_ <-]. exact Hlt.
        -- intros j b Hj Hjs. rewrite lookup_app_l in Hjs by lia. eauto.
Qed.

(** X4: on beliefs that compare as numbers do, [Node.State] returns the
    first index that holds the largest belief: no belief is above the one
    at the returned index, and every belief before it is below it. *)
Theorem State_returns_first_maximum (node : Node) (s s' : State)
    (beliefList : list float64) :
  Node_BeliefList node s = (Returns (beliefList, None), s') ->
  beliefList <> [] ->
  compare_as_numbers beliefList ->
  exists i b,
    Node_State node s = (Returns (Z.of_nat i, None), s') /\
    beliefList !! i = Some b /\
    (forall j bj, beliefList !! j = Some bj -> PrimFloat.ltb b bj = false) /\
    (forall j bj, (j < i)%nat -> beliefList !! j = Some bj -> PrimFloat.ltb bj b = true).
Proof.
  intros HB Hne Hnum. unfold Node_State. rewrite (bind_eq _ _ _ _ _ HB). cbn iota beta.
  destruct beliefList as [| first rest]; [congruence |].
  assert (Hfirst : first ∈ first :: rest) by (apply elem_of_cons; left; reflexivity).
  assert (Hirr : PrimFloat.ltb first first = false).
  { destruct (PrimFloat.ltb first first) eqn:Hff; [| reflexivity].
    rewrite (proj1 Hnum first first Hfirst Hfirst Hff) in Hff. discriminate. }
  cbn [State_loop]. rewrite Hirr.
  destruct (State_loop_first_maximum (first :: rest) Hnum rest [first] 0%nat first
              eq_refl) as (i & b & Hloop & Hmax & Habove & Hbelow).
  { split; [reflexivity |]. split.
    - intros j b Hj. apply list_lookup_singleton_Some in Hj as [_ <-]. exact Hirr.
    - intros j b Hj. lia. }
  exists i, b. cbn [length Z.of_nat] in Hloop. change (0 + 1) with 1.
  change (Z.of_nat 1) with 1 in Hloop. change (Z.of_nat 0) with 0 in Hloop.
  rewrite Hloop. repeat split; assumption.
Qed.

Lemma for_each_length {A B} (body : A -> M B) (l : list A) : forall s bs s',
  for_each body l s = (Returns bs, s') -> length bs = length l.
Proof.
  induction l as [| a rest IH]; intros s bs s'; cbn [for_each].
  - intros [= <- _]. reflexivity.
  - unfold bind.
    destruct (body a s) as [[b | |] s1]; try discriminate.
    destruct (for_each body rest s1) as [[bs' | |] s2] eqn:Hrest; try discriminate.
    intros [= <- _]. simpl. f_equal. exact (IH _ _ _ Hrest).
Qed.

(** X5: [Node.StateNameList] returns one name per state of the node.
    [Node.LevelList] returns nil when the engine has no levels for the
    node, and otherwise one level per state, and one more for a continuous
    node. *)
Theorem lists_have_one_entry_per_state (node : Node) (s : State) :
  (forall stateNames s',
     Node_StateNameList node s = (Returns (stateNames, None), s') ->
     length stateNames = Z.to_nat (GetNodeNumberStates_bn (Node_c node) (eng s)).1) /\
  (forall levels s',
     Node_LevelList node s = (Returns (levels, None), s') ->
     match (GetNodeLevels_bn (Node_c node) (eng s)).1 with
     | None => levels = []
     | Some _ =>
         length levels =
           Z.to_nat ((GetNodeNumberStates_bn (Node_c node) (eng s)).1
                     + (if (GetNodeType_bn (Node_c node) (eng s)).1 =? CONTINUOUS_TYPE
                        then 1 else 0))
     end).
Proof.
  split.
  - intros stateNames s'. unfold Node_StateNameList, Node_Errors, Network_Errors.
    rewrite (bind_eq _ _ _ _ _ (ask_eq _ _)). unfold bind.
    destruct (for_each _ _ _) as [[names | |] s1] eqn:Hnames; try discriminate.
    rewrite Environment_Errors_eq. destruct (errors_of _); intros [= <- _].
    rewrite (for_each_length _ _ _ _ _ Hnames). unfold indices. apply length_seqZ.
  - intros levels s'. unfold Node_LevelList, Node_IsContinuousType, Node_Errors, Network_Errors.
    rewrite (bind_eq _ _ _ _ _ (ask_eq _ _)).
    destruct (GetNodeLevels_bn (Node_c node) (eng s)).1 as [NthLevel |].
    + rewrite (bind_eq _ _ _ _ _ (ask_eq _ _)).
      rewrite (bind_eq _ _ _ _ _ (bind_eq _ _ _ _ _ (ask_eq _ _))).
      cbn [ret]. rewrite (bind_eq _ _ _ _ _ (Environment_Errors_eq _)).
      cbn [eng with_eng].
      destruct (errors_of _); intros [= <- _].
      rewrite length_map. unfold indices. rewrite length_seqZ.
      destruct (_ =? _); [reflexivity | rewrite Z.add_0_r; reflexivity].
    + intros [= <- _]. reflexivity.
Qed.

End MostLikelyState.

Section Handlers.
Context {E : Engine} {G : GoRuntime}.

(** A node of a JSON node list answers to an identifier by its position
    or by its name. *)
Definition answers_to (nodeID : string) (position : Z) (node : nodeJSON) : Prop :=
  Itoa position = nodeID \/ nodeJSON_Name node = nodeID.

Lemma answers_to_test nodeID position node :
  String.eqb (Itoa position) nodeID || String.eqb (nodeJSON_Name node) nodeID = true
  <-> answers_to nodeID position node.
Proof.
  unfold answers_to. rewrite orb_true_iff, !String.eqb_eq. reflexivity.
Qed.

Lemma getNetNode_loop_spec nodeID nodes : forall index,
  match getNetNode_loop nodeID index nodes with
  | NotFound =>
      forall i node, nodes !! i = Some node ->
        ~ answers_to nodeID (index + Z.of_nat i) node
  | WriteNode node =>
      exists i, nodes !! i = Some node /\
        answers_to nodeID (index + Z.of_nat i) node /\
        forall j before, (j < i)%nat -> nodes !! j = Some before ->
          ~ answers_to nodeID (index + Z.of_nat j) before
  | _ => False
  end.
Proof.
  induction nodes as [| node rest IH]; intros index; cbn [getNetNode_loop].
  - intros i node Hi. rewrite lookup_nil in Hi. discriminate.
  - destruct (String.eqb (Itoa index) nodeID || String.eqb (nodeJSON_Name node) nodeID)
      eqn:Htest.
    + apply answers_to_test in Htest. exists 0%nat.
      split; [reflexivity |]. split; [rewrite Z.add_0_r; exact Htest |].
      intros j before Hj. lia.
    + assert (Hno : ~ answers_to nodeID index node).
      { intros Ha. apply answers_to_test in Ha. congruence. }
      specialize (IH (index + 1)).
      destruct (getNetNode_loop nodeID (index + 1) rest) as [| | | found | | |];
        try contradiction.
      * destruct IH as (i & Hi & Ha & Hfirst). exists (S i).
        split; [exact Hi |].
        split; [replace (index + Z.of_nat (S i)) with (index + 1 + Z.of_nat i) by lia;
                exact Ha |].
        intros [| j] before Hj Hb.
        -- injection Hb as <-. rewrite Z.add_0_r. exact Hno.
        -- replace (index + Z.of_nat (S j)) with (index + 1 + Z.of_nat j) by lia.
           apply (Hfirst j before); [lia | exact Hb].
      * intros [| i] node' Hi.
        -- injection Hi as <-. rewrite Z.add_0_r. exact Hno.
        -- replace (index + Z.of_nat (S i)) with (index + 1 + Z.of_nat i) by lia.
           apply IH. exact Hi.
Qed.

(** X6: [getNetNode] leaves the state alone and answers not-found exactly
    when the network is unknown or no node of it answers to the
    identifier, neither by its 0-based position nor by its name; otherwise
    it writes the first node of the list that answers to it. *)
Theorem getNetNode_finds_first_match (g : Globals) (r : Request) (s : State) :
  exists response,
    getNetNode g r s = (Returns response, s) /\
    match response with
    | NotFound =>
        forall repr, netsJSON g !! netid r = Some repr ->
          forall i node, netJSON_Nodes repr !! i = Some node ->
            ~ answers_to (nodeid r) (Z.of_nat i) node
    | WriteNode node =>
        exists repr i,
          netsJSON g !! netid r = Some repr /\
          netJSON_Nodes repr !! i = Some node /\
          answers_to (nodeid r) (Z.of_nat i) node /\
          forall j before, (j < i)%nat -> netJSON_Nodes repr !! j = Some before ->
            ~ answers_to (nodeid r) (Z.of_nat j) before
    | _ => False
    end.
Proof.
  unfold getNetNode. destruct (netsJSON g !! netid r) as [repr |].
  - eexists. split; [reflexivity |].
    pose proof (getNetNode_loop_spec (nodeid r) (netJSON_Nodes repr) 0) as Hl.
    destruct (getNetNode_loop (nodeid r) 0 (netJSON_Nodes repr)) as [| | | found | | |];
      try contradiction.
    + destruct Hl as (i & Hi & Ha & Hfirst). exists repr, i.
      split; [reflexivity |]. split; [exact Hi |]. split; [exact Ha |].
      intros j before Hj Hb. exact (Hfirst j before Hj Hb).
    + intros repr' [= <-] i node Hi. exact (Hl i node Hi).
  - exists NotFound. split; [reflexivity |]. intros repr Hr. discriminate Hr.
Qed.

Lemma Network_NodeNamed_eq (net : Network) name s :
  Network_NodeNamed net name s =
    let q := GetNodeNamed_bn name (Network_c net) (eng s) in
    let s1 := with_eng (eng s) q.2 s in
    if (q.1 =? 0)%N then
      let n := GetNetName_bn (Network_c net) (eng s) in
      (Returns (None, Some ("In function Network.NodeNamed: node " +:+ name
                            +:+ " not defined for network " +:+ n.1)),
       with_eng (eng s) n.2 s1)
    else (Returns (Some (mkNode q.1 net), None), s1).
Proof.
  unfold Network_NodeNamed, Network_Name.
  rewrite (bind_eq _ _ _ _ _ (ask_eq _ _)). cbn zeta.
  destruct (_ =? _)%N; [| reflexivity].
  rewrite (bind_eq _ _ _ _ _ (ask_eq _ _)). reflexivity.
Qed.

(** X7: [postNetNode] answers not-found, without taking a lock or
    changing the engine state, for an unknown network, and for a known
    network when the identifier is neither the name of a node nor an
    integer. *)
Theorem postNetNode_not_found (g : Globals) (r : Request) (s : State) :
  (netsJSON g !! netid r = None -> postNetNode g r s = (Returns NotFound, s)) /\
  (forall repr net,
     netsJSON g !! netid r = Some repr ->
     netLookup g !! netid r = Some net ->
     (GetNodeNamed_bn (nodeid r) (Network_c net) (eng s)).1 = 0%N ->
     Atoi (nodeid r) = None ->
     exists s',
       postNetNode g r s = (Returns NotFound, s') /\
       eng s' = eng s /\ netlocks s' = netlocks s /\ history s' = history s).
Proof.
  split.
  - intros Hn. unfold postNetNode. rewrite Hn. reflexivity.
  - intros repr net Hrepr Hnet Hnil Hatoi. unfold postNetNode.
    rewrite Hrepr, Hnet. cbn zeta.
    unfold bind at 1. rewrite Network_NodeNamed_eq. cbn zeta.
    rewrite Hnil. cbn [N.eqb]. cbn iota beta. rewrite Hatoi.
    eexists. split; [reflexivity |]. repeat split.
Qed.

(** What [postNetNode] does once it has its node. *)
Lemma postNetNode_with_node (g : Globals) (r : Request) (s : State)
    (repr : netJSON) (net : Network) :
  netsJSON g !! netid r = Some repr ->
  netLookup g !! netid r = Some net ->
  let c := (GetNodeNamed_bn (nodeid r) (Network_c net) (eng s)).1 in
  c <> 0%N ->
  postNetNode g r s =
    match payload r with
    | inr e => ret (InternalServerError e)
    | inl infer =>
        results <- postNetNode_loop net (mkNode c net) 0 (caseJSON_Cases infer) [] ;;
        ret (WriteBatch (mkBatchJSON (caseJSON_ID infer) results))
    end (with_eng (eng s) (GetNodeNamed_bn (nodeid r) (Network_c net) (eng s)).2 s).
Proof.
  intros Hrepr Hnet c Hc. unfold postNetNode. rewrite Hrepr, Hnet. cbn zeta.
  unfold bind at 1. rewrite Network_NodeNamed_eq. cbn zeta. fold c.
  destruct (c =? 0)%N eqn:Hz.
  - apply N.eqb_eq in Hz. contradiction.
  - reflexivity.
Qed.

(** X8: when the payload of a request to [postNetNode] cannot be
    decoded, the handler answers with the decoding error as an internal
    server error; no case is run: the engine state, the locks and their
    history are as before. *)
Theorem postNetNode_undecodable_payload (g : Globals) (r : Request) (s : State)
    (repr : netJSON) (net : Network) (e : string) :
  netsJSON g !! netid r = Some repr ->
  netLookup g !! netid r = Some net ->
  (GetNodeNamed_bn (nodeid r) (Network_c net) (eng s)).1 <> 0%N ->
  payload r = inr e ->
  exists s',
    postNetNode g r s = (Returns (InternalServerError e), s') /\
    eng s' = eng s /\ netlocks s' = netlocks s /\ history s' = history s.
Proof.
  intros Hrepr Hnet Hc Hp.
  rewrite (postNetNode_with_node g r s repr net Hrepr Hnet Hc), Hp.
  eexists. split; [reflexivity |]. repeat split.
Qed.

(** X9: a request to [postNetNode] that names a known network and one of
    its nodes, with a payload that decodes, on a free lock and a target
    node that has states: the handler answers with a batch that carries
    the identifier of the payload and one result per case, each under its
    index, and leaves the lock free. *)
Theorem postNetNode_answers_batch (g : Globals) (r : Request) (s : State)
    (repr : netJSON) (net : Network) (infer : caseJSON) :
  netsJSON g !! netid r = Some repr ->
  netLookup g !! netid r = Some net ->
  payload r = inl infer ->
  (GetNodeNamed_bn (nodeid r) (Network_c net) (eng s)).1 <> 0%N ->
  netlocks s !! Network_c net = Some free ->
  has_states (mkNode (GetNodeNamed_bn (nodeid r) (Network_c net) (eng s)).1 net) ->
  exists results s',
    postNetNode g r s
    = (Returns (WriteBatch (mkBatchJSON (caseJSON_ID infer) results)), s') /\
    length results = length (caseJSON_Cases infer) /\
    (forall i single, results !! i = Some single ->
       result_of_case (mkNode (GetNodeNamed_bn (nodeid r) (Network_c net) (eng s)).1 net)
         (Z.of_nat i) single) /\
    netlocks s' !! Network_c net = Some free.
Proof.
  intros Hrepr Hnet Hp Hc Hfree Hstates.
  rewrite (postNetNode_with_node g r s repr net Hrepr Hnet Hc), Hp.
  destruct (postNetNode_loop_total net _ (caseJSON_Cases infer) Hstates 0 []
              (with_eng (eng s) (GetNodeNamed_bn (nodeid r) (Network_c net) (eng s)).2 s)
              Hfree)
    as (added & s' & Hloop & Hfree' & Hlen & Hall).
  exists added, s'. rewrite (bind_eq _ _ _ _ _ Hloop).
  split; [reflexivity |]. split; [exact Hlen |]. split; [| exact Hfree'].
  intros i single Hi. exact (Hall i single Hi).
Qed.

End Handlers.

Section LoadingNetworks.
Context {E : Engine} {G : GoRuntime}.

(** A step that leaves locks, lock history and log as they are. *)
Definition untouched (s0 s : State) : Prop :=
  netlocks s = netlocks s0 /\ history s = history s0 /\ logged s = logged s0.

Lemma untouched_refl s : untouched s s.
Proof. repeat split. Qed.

(** What [NewNetwork] may return from a state like [s0]: a network with
    a free lock registered for it, or an error with nothing registered. *)
Definition loaded_or_failed (s0 : State) (r : option Network * error) (s : State)
    : Prop :=
  match r with
  | (Some net, None) =>
      netlocks s = <[Network_c net := free]> (netlocks s0) /\
      history s = history s0 /\ logged s = logged s0
  | (None, Some e) => untouched s0 s
  | _ => False
  end.

Lemma loaded_or_failed_with_eng s0 r c rs s :
  loaded_or_failed s0 r s -> loaded_or_failed s0 r (with_eng c rs s).
Proof. destruct r as [[net |] [e |]]; exact (fun H => H). Qed.

Lemma hoare_check {A} s0 (fail : error -> A) (next : M A) R :
  (forall e s, untouched s0 s -> R (fail (Some e)) s) ->
  hoare (untouched s0) next R (fun _ => False) ->
  hoare (untouched s0) (check fail next) R (fun _ => False).
Proof.
  intros Hfail Hnext. unfold check.
  eapply hoare_bind with (R' := fun _ => untouched s0).
  - apply hoare_Errors. intros s Hs. exact Hs.
  - intros [e |]; [apply hoare_ret; intros s Hs; apply Hfail; exact Hs | exact Hnext].
Qed.

Lemma hoare_tell_untouched s0 f (k : M (option Network * error)) R :
  hoare (untouched s0) k R (fun _ => False) ->
  hoare (untouched s0) (tell f ;;; k) R (fun _ => False).
Proof.
  intros Hk. eapply hoare_bind with (R' := fun _ => untouched s0).
  - apply hoare_tell. intros s Hs. exact Hs.
  - intros _. exact Hk.
Qed.

Lemma NewNetwork_spec (path : string) s0 :
  hoare (untouched s0) (NewNetwork path) (loaded_or_failed s0) (fun _ => False).
Proof.
  unfold NewNetwork.
  assert (Hfail : forall e s, untouched s0 s -> loaded_or_failed s0 (None, Some e) s)
    by (intros e s Hs; exact Hs).
  destruct (os_Open path) as [e |]; [apply hoare_ret; intros s Hs; exact Hs |].
  apply hoare_check; [exact Hfail |].
  eapply hoare_bind with (R' := fun _ => untouched s0).
  { apply hoare_act. intros s Hs. exact Hs. }
  intros cStrm. unfold defer.
  eapply hoare_bind with (R' := loaded_or_failed s0).
  2:{ intros r. eapply hoare_bind with (R' := fun _ => loaded_or_failed s0 r).
      - apply hoare_tell. intros s Hs. apply loaded_or_failed_with_eng. exact Hs.
      - intros _. apply hoare_ret. auto. }
  apply hoare_check; [exact Hfail |].
  destruct (ioutil_ReadAll path) as [buf | e]; [| apply hoare_ret; intros s Hs; exact Hs].
  apply hoare_tell_untouched. apply hoare_check; [exact Hfail |].
  eapply hoare_bind with (R' := fun _ => untouched s0).
  { apply hoare_act. intros s Hs. exact Hs. }
  intros c.
  apply hoare_check; [exact Hfail |].
  apply hoare_tell_untouched. apply hoare_check; [exact Hfail |].
  apply hoare_tell_untouched. apply hoare_check; [exact Hfail |].
  apply hoare_tell_untouched. apply hoare_check; [exact Hfail |].
  intros s (Hl & Hh & Hg). cbn. rewrite Hl. repeat split; assumption.
Qed.

(** X10: [NewNetwork] always comes to its end, with a network and no
    error or with an error and no network.  With a network, a free lock is
    registered for it and the other locks are as before; with an error,
    the lock table is as before.  It writes nothing to the log. *)
Theorem NewNetwork_registers_lock_or_fails (path : string) (s : State) :
  exists r s',
    NewNetwork path s = (Returns r, s') /\
    history s' = history s /\ logged s' = logged s /\
    ((exists net, r = (Some net, None) /\
                  netlocks s' = <[Network_c net := free]> (netlocks s)) \/
     (exists e, r = (None, Some e) /\ netlocks s' = netlocks s)).
Proof.
  pose proof (NewNetwork_spec path s s (untouched_refl s)) as Hn.
  destruct (NewNetwork path s) as [[[[net |] [e |]] | |] s']; try contradiction.
  - exists (Some net, None), s'. destruct Hn as (Hl & Hh & Hg).
    split; [reflexivity |]. split; [exact Hh |]. split; [exact Hg |]. left. eauto.
  - exists (None, Some e), s'. destruct Hn as (Hl & Hh & Hg).
    split; [reflexivity |]. split; [exact Hh |]. split; [exact Hg |]. right. eauto.
Qed.

(** X11: after [Network.CloseNetwork] the network has no lock: the lock
    table has lost its entry and kept the others, and [Network.Lock] and
    [Network.Unlock] on the closed network panic. *)
Theorem closed_network_cannot_be_locked (net : Network) (s : State) :
  exists err s',
    Network_CloseNetwork net s = (Returns err, s') /\
    netlocks s' = delete (Network_c net) (netlocks s) /\
    (forall other, other <> Network_c net -> netlocks s' !! other = netlocks s !! other) /\
    (exists msg, Network_Lock net s' = (Panics msg, s')) /\
    (exists msg, Network_Unlock net s' = (Panics msg, s')).
Proof.
  rewrite Network_CloseNetwork_eq. cbn zeta. eexists _, _.
  split; [reflexivity |]. cbn [netlocks]. split; [reflexivity |].
  split; [intros other Ho; apply lookup_delete_ne; congruence |].
  unfold Network_Lock, Network_Unlock. cbn [netlocks]. rewrite lookup_delete_eq.
  split; eexists; reflexivity.
Qed.

End LoadingNetworks.

Section CasesAndNodes.
Context {E : Engine} {G : GoRuntime}.

(** X12: a panic inside a case leaves the lock of the network held (no
    branch of the loop body releases it on a panic), so every later case on
    this network blocks at [Network.Lock]. *)
Theorem panic_leaves_lock_held (net : Network) (node : Node) (index : Z)
    (evidence : gmap string string) (s s' : State) (msg : string) :
  netlocks s !! Network_c net = Some free ->
  postNetNode_case net node index evidence s = (Panics msg, s') ->
  netlocks s' !! Network_c net = Some held_by_writer /\
  forall node' index' evidence',
    postNetNode_case net node' index' evidence' s' = (Blocks, s').
Proof.
  intros Hfree Hcase.
  assert (Hheld : netlocks s' !! Network_c net = Some held_by_writer).
  { revert Hcase. unfold postNetNode_case.
    rewrite (bind_eq _ _ _ _ _ (Network_Lock_free net s Hfree)).
    set (s1 := set_lock (Network_c net) held_by_writer (Acquired (Network_c net)) s).
    assert (Hl1 : netlocks s1 !! Network_c net = Some held_by_writer)
      by apply locked_after_Lock.
    clearbody s1. unfold bind at 1.
    pose proof (Network_EnterCase_spec net (fun _ => True) evidence s1
                  (fun _ => I) s1 eq_refl) as HE.
    destruct (Network_EnterCase net evidence s1) as [[[e |] | |] s2]; try contradiction.
    - destruct HE as ([Hl Hh] & _ & _).
      rewrite unlock_log_and_return by (rewrite Hl; exact Hl1). discriminate.
    - destruct HE as ([Hl Hh] & _ & _). unfold bind at 1.
      pose proof (Node_Infer_spec node s2 (reads s2) (fun s0 Hr _ => Hr) s2 (reads_refl s2))
        as HI.
      destruct (Node_Infer node s2) as [[[result [e |]] | |] s3].
      + destruct HI as [[[Hl3 Hh3] He3] _].
        rewrite (bind_eq _ _ _ _ _ (Network_ClearCases_eq net s3)). cbn zeta.
        rewrite unlock_log_and_return by (simpl; rewrite Hl3, Hl; exact Hl1).
        discriminate.
      + destruct HI as [[[Hl3 Hh3] He3] _].
        rewrite (bind_eq _ _ _ _ _ (Network_ClearCases_eq net s3)). cbn zeta.
        rewrite unlock_and_return by (simpl; rewrite Hl3, Hl; exact Hl1).
        discriminate.
      + intros [= _ <-]. destruct HI as [[Hl3 Hh3] He3]. rewrite Hl3, Hl. exact Hl1.
      + discriminate. }
  split; [exact Hheld |].
  intros node' index' evidence'. unfold postNetNode_case, bind, Network_Lock.
  rewrite Hheld. reflexivity.
Qed.

Lemma EnterCase_loop_agree (net : Network) (case1 case2 : gmap string string) entries :
  (forall name, name ∈ entries.*1 -> case1 !! name = case2 !! name) ->
  forall s, EnterCase_loop net case1 entries s = EnterCase_loop net case2 entries s.
Proof.
  induction entries as [| [name node] rest IH]; intros Hagree s; [reflexivity |].
  cbn [EnterCase_loop]. rewrite <- (Hagree name) by (cbn; apply elem_of_cons; auto).
  assert (Hrest : forall s0, EnterCase_loop net case1 rest s0
                             = EnterCase_loop net case2 rest s0).
  { apply IH. intros name' Hin. apply Hagree. cbn. apply elem_of_cons. auto. }
  destruct (case1 !! name) as [evidence |]; [| apply Hrest].
  unfold bind. destruct (Node_EnterFinding node evidence s) as [[[e |] | |] s1];
    try reflexivity.
  apply Hrest.
Qed.

Lemma EnterCase_loop_no_evidence (net : Network) (caseMap : gmap string string) entries :
  (forall name, name ∈ entries.*1 -> caseMap !! name = None) ->
  forall s, EnterCase_loop net caseMap entries s = (Returns None, s).
Proof.
  induction entries as [| [name node] rest IH]; intros Hnone s; [reflexivity |].
  cbn [EnterCase_loop]. rewrite (Hnone name) by (cbn; apply elem_of_cons; auto).
  apply IH. intros name' Hin. apply Hnone. cbn. apply elem_of_cons. auto.
Qed.

(** X13: [Network.EnterCase] looks at the case only under the names of
    the nodes of the network.  Two cases that agree on these names are
    entered alike, whatever else they hold; and a case with no evidence
    under any of these names returns nil with the engine state as it
    was. *)
Theorem EnterCase_ignores_unknown_names (net : Network) (s s1 : State)
    (nodeMap : gmap string Node) :
  Network_NodeMap net s = (Returns (nodeMap, None), s1) ->
  (forall case1 case2,
     (forall name, name ∈ (rangeOrder (map_to_list nodeMap)).*1 ->
        case1 !! name = case2 !! name) ->
     Network_EnterCase net case1 s = Network_EnterCase net case2 s) /\
  (forall caseMap,
     (forall name, name ∈ (rangeOrder (map_to_list nodeMap)).*1 ->
        caseMap !! name = None) ->
     Network_EnterCase net caseMap s = (Returns None, s1) /\ eng s1 = eng s).
Proof.
  intros HM. split.
  - intros case1 case2 Hagree. unfold Network_EnterCase.
    rewrite !(bind_eq _ _ _ _ _ HM). cbn iota beta.
    apply EnterCase_loop_agree. exact Hagree.
  - intros caseMap Hnone. unfold Network_EnterCase.
    rewrite (bind_eq _ _ _ _ _ HM). cbn iota beta.
    split; [apply EnterCase_loop_no_evidence; exact Hnone |].
    pose proof (Network_NodeMap_spec net s s eq_refl) as Hs. rewrite HM in Hs.
    exact (proj2 (proj1 Hs)).
Qed.

(** *** The node map and the node list *)

(** The map that [Network.NodeMap] builds from the nodes of the engine,
    in the order in which the loop takes them. *)
Definition node_entries (net : Network) (c : core) (cNodes : list cnode)
    (nodes : gmap string Node) : gmap string Node :=
  fold_left (fun m cNode => <[(GetNodeName_bn cNode c).1 := mkNode cNode net]> m)
    cNodes nodes.

Lemma NodeMap_loop_eq (net : Network) cNodes : forall nodes s,
  exists s',
    NodeMap_loop net cNodes nodes s
    = (Returns (node_entries net (eng s) cNodes nodes), s') /\
    eng s' = eng s.
Proof.
  induction cNodes as [| cNode rest IH]; intros nodes s; cbn [NodeMap_loop].
  - exists s. split; reflexivity.
  - unfold Node_Name. rewrite (bind_eq _ _ _ _ _ (ask_eq _ _)). cbn [Node_c].
    destruct (IH (<[(GetNodeName_bn cNode (eng s)).1 := mkNode cNode net]> nodes)
                (with_eng (eng s) (GetNodeName_bn cNode (eng s)).2 s))
      as (s' & Hloop & He).
    exists s'. split; [exact Hloop | exact He].
Qed.

Lemma node_entries_lookup (net : Network) c cNodes : forall nodes name node,
  node_entries net c cNodes nodes !! name = Some node ->
  nodes !! name = Some node \/
  (Net node = net /\ Node_c node ∈ cNodes /\ (GetNodeName_bn (Node_c node) c).1 = name).
Proof.
  induction cNodes as [| cNode rest IH]; intros nodes name node; cbn [node_entries fold_left].
  - auto.
  - intros Hl. apply IH in Hl as [Hl | (Hn & Hin & Hname)].
    + rewrite lookup_insert in Hl. case_decide as Hk.
      * injection Hl as <-. right. cbn. split; [reflexivity |].
        split; [apply elem_of_cons; auto | exact Hk].
      * left. exact Hl.
    + right. split; [exact Hn |]. split; [apply elem_of_cons; auto | exact Hname].
Qed.

Lemma node_entries_keeps_keys (net : Network) c cNodes : forall nodes name,
  is_Some (nodes !! name) -> is_Some (node_entries net c cNodes nodes !! name).
Proof.
  induction cNodes as [| cNode rest IH]; intros nodes name Hs; cbn [node_entries fold_left].
  - exact Hs.
  - apply IH. rewrite lookup_insert. case_decide; [eauto | exact Hs].
Qed.

Lemma node_entries_has_all (net : Network) c cNodes : forall nodes cNode,
  cNode ∈ cNodes ->
  is_Some (node_entries net c cNodes nodes !! (GetNodeName_bn cNode c).1).
Proof.
  induction cNodes as [| first rest IH]; intros nodes cNode Hin.
  - apply elem_of_nil in Hin. contradiction.
  - cbn [node_entries fold_left]. apply elem_of_cons in Hin as [-> | Hin].
    + apply node_entries_keeps_keys. rewrite lookup_insert_eq. eauto.
    + apply IH. exact Hin.
Qed.

Lemma elem_of_rev {A} (l : list A) x : x ∈ rev l <-> x ∈ l.
Proof.
  replace (rev l) with (reverse l) by (unfold reverse; rewrite <- rev_alt; reflexivity).
  apply elem_of_reverse.
Qed.

(** X14: the map of [Network.NodeMap] is keyed by the names the engine
    gives: every entry is a node of this network filed under its own name,
    every node of the network has its name among the keys, and the engine
    state is as before. *)
Theorem NodeMap_keyed_by_name (net : Network) (s s' : State)
    (nodeMap : gmap string Node) :
  Network_NodeMap net s = (Returns (nodeMap, None), s') ->
  eng s' = eng s /\
  (forall name node, nodeMap !! name = Some node ->
     Net node = net /\
     Node_c node ∈ (GetNetNodes2_bn (Network_c net) (eng s)).1 /\
     (GetNodeName_bn (Node_c node) (eng s)).1 = name) /\
  (forall cNode, cNode ∈ (GetNetNodes2_bn (Network_c net) (eng s)).1 ->
     is_Some (nodeMap !! (GetNodeName_bn cNode (eng s)).1)).
Proof.
  unfold Network_NodeMap, Network_Errors.
  rewrite (bind_eq _ _ _ _ _ (ask_eq _ _)).
  set (cNodes := (GetNetNodes2_bn (Network_c net) (eng s)).1).
  destruct (NodeMap_loop_eq net (rev cNodes) ∅
              (with_eng (eng s) (GetNetNodes2_bn (Network_c net) (eng s)).2 s))
    as (s1 & Hloop & He1).
  rewrite (bind_eq _ _ _ _ _ Hloop).
  rewrite (bind_eq _ _ _ _ _ (Environment_Errors_eq _)).
  cbn [eng with_eng] in *.
  destruct (errors_of _); intros [= <- <-]. cbn [eng drained].
  split; [exact He1 |]. split.
  - intros name node Hl. apply node_entries_lookup in Hl as [Hl | (Hn & Hin & Hname)].
    + rewrite lookup_empty in Hl. discriminate.
    + split; [exact Hn |]. split; [| exact Hname].
      exact (proj1 (elem_of_rev _ _) Hin).
  - intros cNode Hin. apply node_entries_has_all. exact (proj2 (elem_of_rev _ _) Hin).
Qed.

End CasesAndNodes.

Section SortedNodes.
Context {E : Engine} {G : GoRuntime}.

(** The order of [sort.Strings]. *)
Definition name_le (a b : string) : Prop := String.leb a b = true.

Lemma insert_sorted_perm x l : insert_sorted x l ≡ₚ x :: l.
Proof.
  induction l as [| y rest IH]; cbn [insert_sorted]; [reflexivity |].
  destruct (String.leb x y); [reflexivity |].
  rewrite IH. apply perm_swap.
Qed.

Lemma insert_sorted_HdRel x y l :
  name_le y x -> HdRel name_le y l -> HdRel name_le y (insert_sorted x l).
Proof.
  intros Hyx Hhd. destruct l as [| z rest]; cbn [insert_sorted].
  - constructor. exact Hyx.
  - destruct (String.leb x z); constructor; [exact Hyx |].
    inversion Hhd; assumption.
Qed.

Lemma insert_sorted_Sorted x l : Sorted name_le l -> Sorted name_le (insert_sorted x l).
Proof.
  induction l as [| y rest IH]; intros Hs; cbn [insert_sorted].
  - repeat constructor.
  - destruct (String.leb x y) eqn:Hxy.
    + constructor; [exact Hs |]. constructor. exact Hxy.
    + inversion Hs as [| ? ? Hrest Hhd]; subst.
      constructor; [apply IH; exact Hrest |].
      apply insert_sorted_HdRel; [| exact Hhd].
      destruct (String.leb_total x y) as [Hle | Hle]; [congruence | exact Hle].
Qed.

Lemma sort_Strings_perm names : sort_Strings names ≡ₚ names.
Proof.
  induction names as [| x rest IH]; [reflexivity |].
  cbn [sort_Strings foldr]. fold (sort_Strings rest).
  rewrite insert_sorted_perm, IH. reflexivity.
Qed.

Lemma sort_Strings_Sorted names : Sorted name_le (sort_Strings names).
Proof.
  induction names as [| x rest IH]; [constructor |].
  cbn [sort_Strings foldr]. apply insert_sorted_Sorted. exact IH.
Qed.

Lemma omap_all_Some {A B} (f : A -> option B) (l : list A) :
  (forall x, x ∈ l -> is_Some (f x)) ->
  Forall2 (fun x y => f x = Some y) l (omap f l).
Proof.
  induction l as [| x rest IH]; intros Hall; cbn [omap list_omap]; [constructor |].
  destruct (Hall x) as [y Hy]; [apply elem_of_cons; auto |].
  rewrite Hy. constructor; [exact Hy |].
  apply IH. intros x' Hin. apply Hall. apply elem_of_cons. auto.
Qed.

(** X15: when [range] visits every entry of a map once,
    [Network.NodeList] returns every node of the node map once, in
    ascending order of the names they are filed under. *)
Theorem NodeList_sorted_by_name (net : Network) (s s' : State) (nodeList : list Node) :
  (forall (V : Type) (l : list (string * V)), rangeOrder l ≡ₚ l) ->
  Network_NodeList net s = (Returns (nodeList, None), s') ->
  exists nodeMap names,
    Network_NodeMap net s = (Returns (nodeMap, None), s') /\
    Sorted name_le names /\
    names ≡ₚ (map_to_list nodeMap).*1 /\
    Forall2 (fun name node => nodeMap !! name = Some node) names nodeList.
Proof.
  intros Hrange. unfold Network_NodeList.
  pose proof (Network_NodeMap_spec net s s eq_refl) as Hspec. unfold bind.
  destruct (Network_NodeMap net s) as [[[nodeMap [e |]] | |] s1]; try contradiction.
  - discriminate.
  - intros [= <- <-].
    set (names := sort_Strings (rangeOrder (map_to_list nodeMap)).*1).
    assert (Hperm : names ≡ₚ (map_to_list nodeMap).*1).
    { unfold names. rewrite sort_Strings_perm. rewrite (Hrange _ (map_to_list nodeMap)).
      reflexivity. }
    exists nodeMap, names. split; [reflexivity |].
    split; [apply sort_Strings_Sorted |]. split; [exact Hperm |].
    apply omap_all_Some. intros name Hin. rewrite Hperm in Hin.
    apply list_elem_of_fmap in Hin as ([name' node] & -> & Hin).
    apply elem_of_map_to_list in Hin. cbn. eauto.
Qed.

End SortedNodes.

(** [strconv.Itoa] gives different numbers different texts. *)
Lemma Itoa_inj (a b : Z) : Itoa a = Itoa b -> a = b.
Proof.
  unfold Itoa. intros Heq. apply DecimalZ.to_int_inj.
  assert (Hnorm : forall z, Z.to_int z <> Decimal.Pos Decimal.Nil /\
                            Z.to_int z <> Decimal.Neg Decimal.Nil).
  { intros [| p | p]; cbn; split; try discriminate; intros [= Hp];
      exact (DecimalPos.Unsigned.to_uint_nonnil p Hp). }
  assert (Hsome : Some (Z.to_int a) = Some (Z.to_int b)).
  { rewrite <- (NilZero.isi (Z.to_int a)) by apply Hnorm.
    rewrite <- (NilZero.isi (Z.to_int b)) by apply Hnorm.
    rewrite Heq. reflexivity. }
  injection Hsome as Hsome. exact Hsome.
Qed.

Section LoadPass.
Context {E : Engine} {G : GoRuntime}.

(** The registry that [indexNets] builds: the key of every position
    resolves to the network at that position, and every key resolves to a
    network of the list. *)
Definition indexed (acc : list Network * gmap string Network) : Prop :=
  (forall i net, acc.1 !! i = Some net -> acc.2 !! Itoa (Z.of_nat i) = Some net) /\
  (forall key net, acc.2 !! key = Some net -> net ∈ acc.1).

Lemma indexed_empty : indexed ([], ∅).
Proof.
  split; cbn [fst snd].
  - intros i net Hi. rewrite lookup_nil in Hi. discriminate.
  - intros key net Hk. rewrite lookup_empty in Hk. discriminate.
Qed.

Lemma indexed_add nets_ lookup name net :
  indexed (nets_, lookup) ->
  lookup !! name = None ->
  indexed ((nets_ ++ [net])%list,
           <[Itoa (Z.of_nat (length (nets_ ++ [net])%list) - 1) := net]>
             (<[name := net]> lookup)).
Proof.
  intros [Hpos Hkeys] Hfree. cbn [fst snd] in *.
  replace (Z.of_nat (length (nets_ ++ [net])%list) - 1) with (Z.of_nat (length nets_))
    by (rewrite length_app; simpl; lia).
  split; cbn [fst snd].
  - intros i net' Hi. apply lookup_app_Some in Hi as [Hi | [Hge Hi]].
    + assert (Hlt : (i < length nets_)%nat) by (eapply lookup_lt_Some; eauto).
      rewrite lookup_insert_ne by (intros Heq; apply Itoa_inj in Heq; lia).
      rewrite lookup_insert_ne; [apply Hpos; exact Hi |].
      intros Heq. rewrite Heq, (Hpos i net' Hi) in Hfree. discriminate.
    + apply list_lookup_singleton_Some in Hi as [Hz <-].
      replace i with (length nets_) by lia. apply lookup_insert_eq.
  - intros key net' Hk. apply elem_of_app.
    rewrite lookup_insert in Hk. case_decide.
    { injection Hk as <-. right. apply elem_of_cons. auto. }
    rewrite lookup_insert in Hk. case_decide.
    { injection Hk as <-. right. apply elem_of_cons. auto. }
    left. eauto.
Qed.

Lemma indexNets_visit_indexed root acc entry s acc' s' :
  indexed acc ->
  indexNets_visit root acc entry s = (Returns acc', s') -> indexed acc'.
Proof.
  intros Hacc.
  destruct acc as [nets_ lookup], entry as [path [info |]]; unfold indexNets_visit;
    [| discriminate].
  destruct (negb _ && _); [| intros [= <- _]; exact Hacc].
  unfold bind at 1.
  destruct (NewNetwork path s) as [[[[net |] [e |]] | |] s1]; try discriminate.
  - intros [= <- _]. exact Hacc.
  - unfold bind at 1. unfold Network_Name. rewrite ask_eq. cbn zeta.
    destruct (lookup !! _) as [first |] eqn:Hl.
    + rewrite (bind_eq _ _ _ _ _ (Network_CloseNetwork_eq net _)).
      intros [= <- _]. exact Hacc.
    + intros [= <- _]. apply indexed_add; assumption.
  - intros [= <- _]. exact Hacc.
Qed.

(** X16: in the registry that [indexNets] returns, the key of every
    0-based position resolves to the network at that position of the list,
    and every key of the map resolves to a network of the list; the error
    it returns is nil. *)
Theorem indexNets_index_keys (root : string) (entries : list (string * option FileInfo))
    (s s' : State) (nets_ : list Network) (lookup : gmap string Network) (err : error) :
  indexNets root entries s = (Returns (nets_, lookup, err), s') ->
  err = None /\
  (forall i net, nets_ !! i = Some net -> lookup !! Itoa (Z.of_nat i) = Some net) /\
  (forall key net, lookup !! key = Some net -> net ∈ nets_).
Proof.
  assert (Hwalk : forall entries acc s acc' s',
            indexed acc -> Walk root entries acc s = (Returns acc', s') -> indexed acc').
  { clear. intros entries. induction entries as [| entry rest IH];
      intros acc s acc' s' Hacc; cbn [Walk].
    - intros [= <- _]. exact Hacc.
    - unfold bind.
      destruct (indexNets_visit root acc entry s) as [[acc1 | |] s1] eqn:Hv;
        try discriminate.
      apply IH. exact (indexNets_visit_indexed _ _ _ _ _ _ Hacc Hv). }
  unfold indexNets, bind.
  destruct (Walk root entries ([], ∅) s) as [[acc | |] s1] eqn:HW; try discriminate.
  intros [= <- <- <- _]. split; [reflexivity |].
  exact (Hwalk _ _ _ _ _ indexed_empty HW).
Qed.

(** X17: what the walk of [indexNets] skips.  A directory, or a file
    with another extension than .dne and .neta, leaves the registry and the
    state as they are.  A network file that [NewNetwork] cannot load
    leaves the registry as it is and adds the error to the log. *)
Theorem indexNets_visit_skips (root : string)
    (acc : list Network * gmap string Network) (path : string) (info : FileInfo)
    (s : State) :
  (IsDir info = true \/
   (filepath_Ext path <> ".dne" /\ filepath_Ext path <> ".neta") ->
   indexNets_visit root acc (path, Some info) s = (Returns acc, s)) /\
  (forall r e s1,
     network_file path info ->
     NewNetwork path s = (Returns (r, Some e), s1) ->
     indexNets_visit root acc (path, Some info) s
     = (Returns acc,
        mkState (eng s1) (errq s1) (netlocks s1) (logged s1 ++ [e]) (history s1))).
Proof.
  destruct acc as [nets_ lookup]. split.
  - intros Hskip. unfold indexNets_visit.
    assert (Htest : negb (IsDir info)
                    && (String.eqb (filepath_Ext path) ".dne"
                        || String.eqb (filepath_Ext path) ".neta") = false).
    { destruct Hskip as [-> | [Hd Hn]]; [reflexivity |].
      apply String.eqb_neq in Hd, Hn. rewrite Hd, Hn. apply andb_false_r. }
    rewrite Htest. reflexivity.
  - intros r e s1 Hfile HN. unfold indexNets_visit.
    rewrite (network_file_test _ _ Hfile).
    rewrite (bind_eq _ _ _ _ _ HN). cbn iota beta.
    destruct r; reflexivity.
Qed.

Lemma indexNets_visit_total root acc path info s :
  exists acc' s', indexNets_visit root acc (path, Some info) s = (Returns acc', s').
Proof.
  destruct acc as [nets_ lookup]. unfold indexNets_visit.
  destruct (negb _ && _); [| eexists _, _; reflexivity].
  unfold bind at 1.
  pose proof (NewNetwork_spec path s s (untouched_refl s)) as Hn.
  destruct (NewNetwork path s) as [[[[net |] [e |]] | |] s1]; try contradiction.
  - unfold bind at 1. unfold Network_Name. rewrite ask_eq. cbn zeta.
    destruct (lookup !! _) as [first |].
    + rewrite (bind_eq _ _ _ _ _ (Network_CloseNetwork_eq net _)).
      eexists _, _. reflexivity.
    + eexists _, _. reflexivity.
  - eexists _, _. reflexivity.
Qed.

Lemma Walk_total root entries :
  Forall (fun entry => is_Some entry.2) entries ->
  forall acc s, exists acc' s', Walk root entries acc s = (Returns acc', s').
Proof.
  induction 1 as [| [path info] rest [i Hi] Hrest IH]; intros acc s; cbn [Walk].
  - eexists _, _. reflexivity.
  - cbn in Hi. subst info.
    destruct (indexNets_visit_total root acc path i s) as (acc1 & s1 & Hv).
    rewrite (bind_eq _ _ _ _ _ Hv). apply IH.
Qed.

(** X18: a load pass never fails on a file: when the walk has the file
    information of every entry, [indexNets] comes to its end and returns a
    nil error, whatever the files hold.  An entry without file
    information (the walk reports that it could not examine the path, as
    for a directory that does not exist) makes it panic. *)
Theorem indexNets_ends_or_panics (root : string)
    (entries : list (string * option FileInfo)) (s : State) :
  (Forall (fun entry => is_Some entry.2) entries ->
   exists nets_ lookup s',
     indexNets root entries s = (Returns (nets_, lookup, None), s')) /\
  (forall before path after,
     entries = (before ++ (path, None) :: after)%list ->
     Forall (fun entry => is_Some entry.2) before ->
     exists msg s', indexNets root entries s = (Panics msg, s')).
Proof.
  split.
  - intros Hall. destruct (Walk_total root entries Hall ([], ∅) s) as ([nets_ lookup] & s' & HW).
    exists nets_, lookup, s'. unfold indexNets. rewrite (bind_eq _ _ _ _ _ HW). reflexivity.
  - intros before path after -> Hbefore.
    destruct (Walk_total root before Hbefore ([], ∅) s) as ([nets_ lookup] & s1 & HW).
    unfold indexNets. unfold bind at 1. rewrite Walk_app.
    rewrite (bind_eq _ _ _ _ _ HW). cbn [Walk]. unfold bind at 1.
    cbn [indexNets_visit]. eexists _, _. reflexivity.
Qed.

End LoadPass.

Section Addressing.
Context {E : Engine} {G : GoRuntime}.

(** X19: a node addressed by position.  When the identifier of a request
    to [postNetNode] is no node name but the decimal text of a position of
    the JSON node list of the network, the batch runs on the node that the
    engine has under the name found at that position. *)
Theorem postNetNode_by_position (g : Globals) (r : Request) (s : State)
    (repr : netJSON) (net : Network) (position : Z) (listed : nodeJSON)
    (infer : caseJSON) :
  netsJSON g !! netid r = Some repr ->
  netLookup g !! netid r = Some net ->
  payload r = inl infer ->
  (GetNodeNamed_bn (nodeid r) (Network_c net) (eng s)).1 = 0%N ->
  Atoi (nodeid r) = Some position ->
  0 <= position ->
  netJSON_Nodes repr !! Z.to_nat position = Some listed ->
  (GetNodeNamed_bn (nodeJSON_Name listed) (Network_c net) (eng s)).1 <> 0%N ->
  exists s1,
    eng s1 = eng s /\ netlocks s1 = netlocks s /\ history s1 = history s /\
    postNetNode g r s =
      (results <- postNetNode_loop net
                    (mkNode (GetNodeNamed_bn (nodeJSON_Name listed) (Network_c net)
                               (eng s)).1 net)
                    0 (caseJSON_Cases infer) [] ;;
       ret (WriteBatch (mkBatchJSON (caseJSON_ID infer) results))) s1.
Proof.
  intros Hrepr Hnet Hp Hnil Hatoi Hpos Hlisted Hc. unfold postNetNode.
  rewrite Hrepr, Hnet. cbn zeta.
  unfold bind at 1. rewrite Network_NodeNamed_eq. cbn zeta.
  rewrite Hnil. cbn [N.eqb]. cbn iota beta. rewrite Hatoi.
  unfold index_nodes. assert (Hneg : (position <? 0) = false) by (apply Z.ltb_ge; lia).
  rewrite Hneg, Hlisted. unfold bind at 1. cbn [ret]. cbn iota beta.
  unfold bind at 1. rewrite Network_NodeNamed_eq. cbn zeta. cbn [eng with_eng].
  destruct (_ =? 0)%N eqn:Hz; [apply N.eqb_eq in Hz; contradiction |].
  rewrite Hp. eexists. split; [| split; [| split; [| reflexivity]]]; reflexivity.
Qed.

Lemma NodeMap_loop_queue (net : Network) cNodes : forall nodes s,
  exists nodes' s' raised,
    NodeMap_loop net cNodes nodes s = (Returns nodes', s') /\
    eng s' = eng s /\ quiet s s' /\ logged s' = logged s /\
    errq s' = (errq s ++ raised)%list.
Proof.
  induction cNodes as [| cNode rest IH]; intros nodes s; cbn [NodeMap_loop].
  - exists nodes, s, []. rewrite app_nil_r. repeat split.
  - unfold Node_Name. rewrite (bind_eq _ _ _ _ _ (ask_eq _ _)).
    destruct (IH (<[(GetNodeName_bn (Node_c (mkNode cNode net)) (eng s)).1
                    := mkNode cNode net]> nodes)
                (with_eng (eng s) (GetNodeName_bn (Node_c (mkNode cNode net)) (eng s)).2 s))
      as (nodes' & s' & raised & Hloop & He & [Hl Hh] & Hg & Hq).
    exists nodes', s',
      ((GetNodeName_bn (Node_c (mkNode cNode net)) (eng s)).2 ++ raised)%list.
    split; [exact Hloop |]. split; [exact He |]. split; [split; assumption |].
    split; [exact Hg |]. rewrite Hq. cbn [errq with_eng]. rewrite app_assoc. reflexivity.
Qed.

Lemma errors_of_pending pending raised :
  pending <> [] -> exists e, errors_of (pending ++ raised) = Some e.
Proof.
  intros Hne. destruct (errors_of (pending ++ raised)) as [e |] eqn:He; [eauto |].
  apply errors_of_None_iff in He. apply app_eq_nil in He as [Hp _]. contradiction.
Qed.

Lemma Network_NodeMap_pending (net : Network) s :
  errq s <> [] ->
  exists e s',
    Network_NodeMap net s = (Returns (∅, Some e), s') /\
    e <> "" /\ eng s' = eng s /\ errq s' = [] /\ netlocks s' = netlocks s.
Proof.
  intros Hpending. unfold Network_NodeMap, Network_Errors.
  rewrite (bind_eq _ _ _ _ _ (ask_eq _ _)).
  destruct (NodeMap_loop_queue net (rev (GetNetNodes2_bn (Network_c net) (eng s)).1) ∅
              (with_eng (eng s) (GetNetNodes2_bn (Network_c net) (eng s)).2 s))
    as (nodes' & s2 & raised & Hloop & He & [Hl Hh] & Hg & Hq).
  rewrite (bind_eq _ _ _ _ _ Hloop).
  rewrite (bind_eq _ _ _ _ _ (Environment_Errors_eq _)).
  cbn [errq with_eng] in Hq. rewrite Hq, <- app_assoc.
  destruct (errors_of_pending (errq s)
              ((GetNetNodes2_bn (Network_c net) (eng s)).2 ++ raised)%list Hpending)
    as [e Herr].
  rewrite Herr. exists e, (drained s2). split; [reflexivity |].
  split; [exact (errors_of_nonempty _ _ Herr) |].
  split; [exact He |]. split; [reflexivity | exact Hl].
Qed.

(** X20: a report that is pending when a case starts (left by a call
    that was not checked, such as the lookup of the node) makes the case
    fail at once with that report as its error: no finding is entered,
    nothing is inferred, the engine state stays as it was, the lock is
    free again and the queue is empty for the next case. *)
Theorem pending_report_fails_the_case (net : Network) (node : Node) (index : Z)
    (evidence : gmap string string) (s : State) :
  netlocks s !! Network_c net = Some free ->
  errq s <> [] ->
  exists e s',
    postNetNode_case net node index evidence s
    = (Returns (mkSingleJSON index e ""), s') /\
    e <> "" /\ eng s' = eng s /\ errq s' = [] /\
    netlocks s' !! Network_c net = Some free.
Proof.
  intros Hfree Hpending. unfold postNetNode_case.
  rewrite (bind_eq _ _ _ _ _ (Network_Lock_free net s Hfree)).
  set (s1 := set_lock (Network_c net) held_by_writer (Acquired (Network_c net)) s).
  assert (Hl1 : netlocks s1 !! Network_c net = Some held_by_writer)
    by apply locked_after_Lock.
  assert (He1 : eng s1 = eng s) by reflexivity.
  assert (Hq1 : errq s1 = errq s) by reflexivity.
  clearbody s1.
  assert (HE : exists e s2,
             Network_EnterCase net evidence s1 = (Returns (Some e), s2) /\
             e <> "" /\ eng s2 = eng s1 /\ errq s2 = [] /\ netlocks s2 = netlocks s1).
  { destruct (Network_NodeMap_pending net s1) as (e & s2 & HM & Hne & He & Hq & Hl);
      [rewrite Hq1; exact Hpending |].
    exists e, s2. unfold Network_EnterCase. rewrite (bind_eq _ _ _ _ _ HM).
    repeat split; assumption. }
  destruct HE as (e & s2 & HE & Hne & He2 & Hq2 & Hl2).
  rewrite (bind_eq _ _ _ _ _ HE). cbn iota beta.
  rewrite unlock_log_and_return by (rewrite Hl2; exact Hl1).
  exists e. eexists. split; [reflexivity |]. split; [exact Hne |].
  cbn [eng errq netlocks]. split; [congruence |]. split; [exact Hq2 |].
  apply free_after_Unlock.
Qed.

End Addressing.

Section ServedDescription.
Context {E : Engine} {G : GoRuntime}.

(** A computation that comes to its end from every state and leaves the
    engine state, the locks, their history and the log as they are. *)
Definition reader {A} (m : M A) : Prop :=
  forall s, exists a s',
    m s = (Returns a, s') /\
    eng s' = eng s /\ netlocks s' = netlocks s /\
    logged s' = logged s /\ history s' = history s.

Lemma reader_ret {A} (a : A) : reader (ret a).
Proof. intros s. exists a, s. repeat split. Qed.

Lemma reader_bind {A B} (m : M A) (k : A -> M B) :
  reader m -> (forall a, reader (k a)) -> reader (bind m k).
Proof.
  intros Hm Hk s. destruct (Hm s) as (a & s1 & H1 & He1 & Hl1 & Hg1 & Hh1).
  destruct (Hk a s1) as (b & s2 & H2 & He2 & Hl2 & Hg2 & Hh2).
  exists b, s2. rewrite (bind_eq _ _ _ _ _ H1). split; [exact H2 |].
  repeat split; congruence.
Qed.

Lemma reader_ask {A} (q : core -> A * list report) : reader (ask q).
Proof. intros s. eexists _, _. split; [apply ask_eq |]. repeat split. Qed.

Lemma reader_Errors : reader Environment_Errors.
Proof. intros s. eexists _, _. split; [apply Environment_Errors_eq |]. repeat split. Qed.

Lemma reader_for_each {A B} (body : A -> M B) l :
  (forall a, reader (body a)) -> reader (for_each body l).
Proof.
  intros Hbody. induction l as [| a rest IH]; cbn [for_each]; [apply reader_ret |].
  apply reader_bind; [apply Hbody |]. intros b.
  apply reader_bind; [exact IH |]. intros bs. apply reader_ret.
Qed.

Lemma reader_NodeMap_loop (net : Network) cNodes : forall nodes,
  reader (NodeMap_loop net cNodes nodes).
Proof.
  induction cNodes as [| cNode rest IH]; intros nodes; cbn [NodeMap_loop];
    [apply reader_ret |].
  unfold Node_Name. apply reader_bind; [apply reader_ask |]. intros name. apply IH.
Qed.

Lemma reader_NodeList (net : Network) : reader (Network_NodeList net).
Proof.
  unfold Network_NodeList, Network_NodeMap, Network_Errors.
  apply reader_bind.
  - apply reader_bind; [apply reader_ask |]. intros cNodes.
    apply reader_bind; [apply reader_NodeMap_loop |]. intros nodes.
    apply reader_bind; [apply reader_Errors |]. intros [e |]; apply reader_ret.
  - intros [nodeMap [e |]]; apply reader_ret.
Qed.

Lemma reader_StateNameList (node : Node) : reader (Node_StateNameList node).
Proof.
  unfold Node_StateNameList, Node_Errors, Network_Errors.
  apply reader_bind; [apply reader_ask |]. intros n.
  apply reader_bind; [apply reader_for_each; intros i; apply reader_ask |]. intros names.
  apply reader_bind; [apply reader_Errors |]. intros [e |]; apply reader_ret.
Qed.

Lemma reader_LevelList (node : Node) : reader (Node_LevelList node).
Proof.
  unfold Node_LevelList, Node_IsContinuousType, Node_Errors, Network_Errors.
  apply reader_bind; [apply reader_ask |]. intros [levels |]; [| apply reader_ret].
  apply reader_bind; [apply reader_ask |]. intros n.
  apply reader_bind.
  { apply reader_bind; [apply reader_ask |]. intros t. apply reader_ret. }
  intros continuous.
  apply reader_bind; [apply reader_Errors |]. intros [e |]; apply reader_ret.
Qed.

Lemma buildJSON_nodes_leading nodeList : forall index nodes s,
  exists added s',
    buildJSON_nodes index nodeList nodes s = (Returns (nodes ++ added)%list, s') /\
    (eng s' = eng s /\ netlocks s' = netlocks s /\
     logged s' = logged s /\ history s' = history s) /\
    (length added <= length nodeList)%nat /\
    forall i repr, added !! i = Some repr ->
      nodeJSON_Index repr = index + Z.of_nat i /\
      exists node,
        nodeList !! i = Some node /\
        nodeJSON_Name repr = (GetNodeName_bn (Node_c node) (eng s)).1.
Proof.
  induction nodeList as [| node rest IH]; intros index nodes s; cbn [buildJSON_nodes].
  - exists [], s. rewrite app_nil_r. split; [reflexivity |].
    split; [repeat split |]. split; [cbn [length]; lia |].
    intros i repr Hi. rewrite lookup_nil in Hi. discriminate.
  - unfold Node_Name, Node_Title, Node_Comment.
    rewrite (bind_eq _ _ _ _ _ (ask_eq _ _)).
    rewrite (bind_eq _ _ _ _ _ (ask_eq _ _)).
    rewrite (bind_eq _ _ _ _ _ (ask_eq _ _)).
    match goal with
    | |- context [bind (Node_StateNameList node) _ ?s0] =>
        assert (H3 : eng s0 = eng s /\ netlocks s0 = netlocks s /\
                     logged s0 = logged s /\ history s0 = history s)
          by (repeat split);
        generalize dependent s0; intros s3 H3
    end.
    assert (Hnone : forall s4,
              eng s4 = eng s3 /\ netlocks s4 = netlocks s3 /\
              logged s4 = logged s3 /\ history s4 = history s3 ->
              exists added s',
                (Returns nodes, s4) = (Returns (nodes ++ added)%list, s') /\
                (eng s' = eng s /\ netlocks s' = netlocks s /\
                 logged s' = logged s /\ history s' = history s) /\
                (length added <= length (node :: rest))%nat /\
                forall i repr, added !! i = Some repr ->
                  nodeJSON_Index repr = index + Z.of_nat i /\
                  exists node0,
                    (node :: rest) !! i = Some node0 /\
                    nodeJSON_Name repr = (GetNodeName_bn (Node_c node0) (eng s)).1).
    { intros s4 (He & Hl & Hg & Hh). exists [], s4. rewrite app_nil_r.
      destruct H3 as (He3 & Hl3 & Hg3 & Hh3).
      split; [reflexivity |]. split; [repeat split; congruence |].
      split; [cbn [length]; lia |].
      intros i repr Hi. rewrite lookup_nil in Hi. discriminate. }
    destruct (reader_StateNameList node s3) as ([names err] & s4 & H4 & R4).
    rewrite (bind_eq _ _ _ _ _ H4).
    destruct err as [e |]; [exact (Hnone s4 R4) |].
    destruct (reader_LevelList node s4) as ([levels err] & s5 & H5 & R5).
    rewrite (bind_eq _ _ _ _ _ H5).
    assert (R45 : eng s5 = eng s3 /\ netlocks s5 = netlocks s3 /\
                  logged s5 = logged s3 /\ history s5 = history s3).
    { destruct R4 as (? & ? & ? & ?), R5 as (? & ? & ? & ?). repeat split; congruence. }
    destruct err as [e |]; [exact (Hnone s5 R45) |].
    match goal with
    | |- context [buildJSON_nodes _ rest (nodes ++ [?r])%list s5] => set (repr0 := r)
    end.
    destruct (IH (index + 1) (nodes ++ [repr0])%list s5)
      as (added & s' & Hrun & (He & Hl & Hg & Hh) & Hlen & Hall).
    destruct R45 as (He5 & Hl5 & Hg5 & Hh5), H3 as (He3 & Hl3 & Hg3 & Hh3).
    exists (repr0 :: added), s'. rewrite Hrun, <- app_assoc. split; [reflexivity |].
    split; [repeat split; congruence |]. split; [cbn [length]; lia |].
    intros [| i] repr Hi.
    + injection Hi as <-. split; [cbn; lia |]. exists node. split; reflexivity.
    + destruct (Hall i repr Hi) as (Hindex & node0 & Hnode & Hname).
      split; [lia |]. exists node0. split; [exact Hnode |].
      rewrite Hname, He5, He3. reflexivity.
Qed.


Lemma buildJSON_nets_accounts rest : forall netIndex acc s,
  exists added nets' lines s',
    buildJSON_nets netIndex rest acc s = (Returns ((acc.1 ++ added)%list, nets'), s') /\
    eng s' = eng s /\ netlocks s' = netlocks s /\ history s' = history s /\
    logged s' = (logged s ++ lines)%list /\
    (length added + length lines = length rest)%nat /\
    Forall (fun line => exists net s1 s2 r,
              net ∈ rest /\ Network_NodeList net s1 = (Returns (r, Some line), s2)) lines.
Proof.
  induction rest as [| net rest IH]; intros netIndex [list_ nets] s;
    cbn [buildJSON_nets].
  - exists [], nets, [], s. rewrite !app_nil_r. repeat split. constructor.
  - unfold Network_Name at 1. unfold Network_Title, Network_Comment.
    rewrite (bind_eq _ _ _ _ _ (ask_eq _ _)).
    rewrite (bind_eq _ _ _ _ _ (ask_eq _ _)).
    rewrite (bind_eq _ _ _ _ _ (ask_eq _ _)).
    match goal with
    | |- context [bind (Network_NodeList net) _ ?s0] =>
        assert (H3 : eng s0 = eng s /\ netlocks s0 = netlocks s /\
                     logged s0 = logged s /\ history s0 = history s)
          by (repeat split);
        generalize dependent s0; intros s3 H3
    end.
    destruct H3 as (He3 & Hl3 & Hg3 & Hh3).
    destruct (reader_NodeList net s3) as ([nodeList err] & s4 & H4 & He4 & Hl4 & Hg4 & Hh4).
    rewrite (bind_eq _ _ _ _ _ H4). destruct err as [e |].
    + unfold bind at 1. cbn [Println].
      match goal with
      | |- context [buildJSON_nets (netIndex + 1) rest (list_, nets) ?s0] =>
          destruct (IH (netIndex + 1) (list_, nets) s0)
            as (added & nets' & lines & s' & Hrun & He & Hl & Hh & Hg & Hlen & Hlines)
      end.
      cbn [fst eng netlocks logged history] in *.
      exists added, nets', (e :: lines), s'. rewrite Hrun.
      split; [reflexivity |]. repeat split; try congruence.
      * rewrite Hg, Hg4, Hg3, <- app_assoc. reflexivity.
      * cbn [length]. lia.
      * constructor.
        -- exists net, s3, s4, nodeList. split; [apply elem_of_cons; auto | exact H4].
        -- eapply Forall_impl; [exact Hlines |]. cbn beta.
           intros line (net0 & s1 & s2 & r & Hin & Hrun0).
           exists net0, s1, s2, r. split; [apply elem_of_cons; auto | exact Hrun0].
    + destruct (buildJSON_nodes_leading nodeList 0 [] s4)
        as (nodes & s5 & H5 & (He5 & Hl5 & Hg5 & Hh5) & _).
      rewrite (bind_eq _ _ _ _ _ H5).
      match goal with
      | |- context [buildJSON_nets (netIndex + 1) rest ((list_ ++ [?r])%list, ?m) s5] =>
          destruct (IH (netIndex + 1) ((list_ ++ [r])%list, m) s5)
            as (added & nets' & lines & s' & Hrun & He & Hl & Hh & Hg & Hlen & Hlines);
          exists (r :: added), nets', lines, s'
      end.
      cbn [fst] in *. rewrite Hrun, <- app_assoc.
      split; [reflexivity |]. repeat split; try congruence.
      * cbn [length]. lia.
      * eapply Forall_impl; [exact Hlines |]. cbn beta.
        intros line (net0 & s1 & s2 & r & Hin & Hrun0).
        exists net0, s1, s2, r. split; [apply elem_of_cons; auto | exact Hrun0].
Qed.

(** X22: [buildJSON] always comes to its end with a nil error, and every
    network of the list it is given is either described in the list it
    returns or has one line in the log, which is the error of
    [Network.NodeList] on a network of the list.  An error of the node
    loop (states or levels that cannot be read) is never logged and never
    drops the network: the second test of the error in the loop body sees
    the variable that [Network.NodeList] set.  The engine state and the
    locks are as before. *)
Theorem buildJSON_lists_or_logs (g : Globals) (s : State) :
  exists list_ nets lines s',
    buildJSON g s = (Returns (list_, nets, None), s') /\
    eng s' = eng s /\ netlocks s' = netlocks s /\
    logged s' = (logged s ++ lines)%list /\
    (length list_ + length lines = length (netList g))%nat /\
    Forall (fun line => exists net s1 s2 r,
              net ∈ netList g /\
              Network_NodeList net s1 = (Returns (r, Some line), s2)) lines.
Proof.
  destruct (buildJSON_nets_accounts (netList g) 0 ([], ∅) s)
    as (added & nets' & lines & s' & Hrun & He & Hl & Hh & Hg & Hlen & Hlines).
  exists added, nets', lines, s'. unfold buildJSON. rewrite (bind_eq _ _ _ _ _ Hrun).
  repeat split; assumption.
Qed.

End ServedDescription.

(** *** The index form of a state *)

Lemma parse_digits_acc d : forall acc,
  parse_digits (NilEmpty.string_of_uint d) (Z.pos acc)
  = Some (Z.pos (Pos.of_uint_acc d acc)).
Proof.
  induction d as [| d IH | d IH | d IH | d IH | d IH | d IH | d IH | d IH | d IH | d IH];
    intros acc; cbn [NilEmpty.string_of_uint parse_digits Pos.of_uint_acc];
    [reflexivity | ..];
    match goal with
    | |- context [digit_of ?a] =>
        let v := eval vm_compute in (digit_of a) in change (digit_of a) with v
    end; cbv iota beta; rewrite <- IH; f_equal; lia.
Qed.

Lemma parse_digits_uint d :
  parse_digits (NilEmpty.string_of_uint d) 0 = Some (Z.of_N (Pos.of_uint d)).
Proof.
  induction d as [| d IH | d IH | d IH | d IH | d IH | d IH | d IH | d IH | d IH | d IH];
    cbn [NilEmpty.string_of_uint parse_digits Pos.of_uint];
    [reflexivity | ..];
    match goal with
    | |- context [digit_of ?a] =>
        let v := eval vm_compute in (digit_of a) in change (digit_of a) with v
    end; cbv iota beta; [exact IH | ..];
    cbn [Z.of_N]; rewrite <- parse_digits_acc; reflexivity.
Qed.

Lemma Atoi_unsigned (p : positive) (neg : bool) :
  let body := NilEmpty.string_of_uint (Pos.to_uint p) in
  (body <> "" /\
   match parse_digits body 0 with
   | Some n =>
       let v := if neg then - n else n in
       if (- 2 ^ 63 <=? v) && (v <? 2 ^ 63) then Some v else None
   | None => None
   end = (let v := if neg then Z.neg p else Z.pos p in
          if (- 2 ^ 63 <=? v) && (v <? 2 ^ 63) then Some v else None)) /\
  Atoi body = if Z.pos p <? 2 ^ 63 then Some (Z.pos p) else None.
Proof.
  intros body. subst body.
  pose proof (parse_digits_uint (Pos.to_uint p)) as Hp.
  rewrite DecimalPos.Unsigned.of_to in Hp. cbn [Z.of_N] in Hp.
  pose proof (DecimalPos.Unsigned.to_uint_nonnil p) as Hnil.
  unfold Atoi.
  destruct (Pos.to_uint p) as [| d | d | d | d | d | d | d | d | d | d];
    [contradiction | ..];
    cbn [NilEmpty.string_of_uint] in *; cbv iota beta;
    rewrite Hp; (split; [split; [discriminate | destruct neg; reflexivity] |]);
    cbv iota beta;
    replace (- 2 ^ 63 <=? Z.pos p) with true by (symmetry; apply Z.leb_le; lia);
    reflexivity.
Qed.

(** [strconv.Atoi] reads back what [strconv.Itoa] writes of an [int]. *)
Lemma Atoi_Itoa (z : Z) : - 2 ^ 63 <= z < 2 ^ 63 -> Atoi (Itoa z) = Some z.
Proof.
  intros Hz. unfold Itoa. destruct z as [| p | p]; cbn [Z.to_int NilZero.string_of_int].
  - reflexivity.
  - destruct (Atoi_unsigned p false) as [_ Hpos].
    unfold NilZero.string_of_uint.
    pose proof (DecimalPos.Unsigned.to_uint_nonnil p) as Hnil.
    destruct (Pos.to_uint p); [contradiction | ..]; rewrite Hpos;
      replace (Z.pos p <? 2 ^ 63) with true by (symmetry; apply Z.ltb_lt; lia);
      reflexivity.
  - destruct (Atoi_unsigned p true) as [[Hbody Hneg] _].
    assert (Hstr : NilZero.string_of_uint (Pos.to_uint p)
                   = NilEmpty.string_of_uint (Pos.to_uint p)).
    { unfold NilZero.string_of_uint.
      pose proof (DecimalPos.Unsigned.to_uint_nonnil p) as Hnil.
      destruct (Pos.to_uint p); [contradiction | ..]; reflexivity. }
    rewrite Hstr. unfold Atoi.
    destruct (NilEmpty.string_of_uint (Pos.to_uint p)) as [| a rest] eqn:Hs;
      [contradiction |].
    cbv zeta in Hneg. rewrite Hneg.
    replace (- 2 ^ 63 <=? Z.neg p) with true by (symmetry; apply Z.leb_le; lia).
    replace (Z.neg p <? 2 ^ 63) with true by (symmetry; apply Z.ltb_lt; lia).
    reflexivity.
Qed.

Lemma substring_whole (x : string) : String.substring 0 (String.length x) x = x.
Proof. induction x as [| a rest IH]; cbn; [reflexivity | rewrite IH; reflexivity]. Qed.

Section IndexForm.
Context {E : Engine} {G : GoRuntime}.

(** X23: the index form that [Node.Infer] writes for a state without a
    name, a number sign and the decimal index, is read back by
    [Node.EnterFinding] as that index: entering it is [Node.SetState] of
    the index.  The text is no number to [strconv.ParseFloat]. *)
Theorem index_form_is_read_back (node : Node) (index : Z) :
  - 2 ^ 63 <= index < 2 ^ 63 ->
  ParseFloat ("#" +:+ Itoa index) = None ->
  Node_EnterFinding node ("#" +:+ Itoa index) = Node_SetState node index.
Proof.
  intros Hindex Hfloat. unfold Node_EnterFinding. rewrite Hfloat.
  change ("#" +:+ Itoa index) with (String "#" (Itoa index)).
  assert (Hempty : forall x, String.prefix "" x = true) by (intros []; reflexivity).
  assert (Htrim : TrimPrefix (String "#" (Itoa index)) "#" = Itoa index).
  { unfold TrimPrefix, HasPrefix. cbn. rewrite Hempty, ?Nat.sub_0_r.
    apply substring_whole. }
  assert (Hprefix : HasPrefix (String "#" (Itoa index)) "#" = true).
  { unfold HasPrefix. cbn. apply Hempty. }
  rewrite Hprefix, Htrim, (Atoi_Itoa index Hindex). reflexivity.
Qed.

End IndexForm.

(** ** The weather network again: the further properties at work *)

Lemma panics_eq {E : Engine} {A} (r : outcome A * State) (msg : string) :
  r.1 = Panics msg -> r = (Panics msg, r.2).
Proof. destruct r as [o s]. simpl. intros ->. reflexivity. Qed.

(** Closes [m s = (Panics msg, s')] on closed terms by running [m]. *)
Ltac panics_by_computation :=
  match goal with
  | |- ?r = (Panics _, _) => apply (panics_eq r); vm_compute; reflexivity
  end.

(** Splits a membership in an explicit list into its cases. *)
Ltac each_element :=
  repeat match goal with
         | H : _ ∈ _ :: _ |- _ => apply elem_of_cons in H as [-> | H]
         | H : _ ∈ [] |- _ => apply elem_of_nil in H; contradiction
         end.

Module Station.
Import Weather.

#[local] Existing Instance Weather.engine.
#[local] Existing Instance Weather.runtime.

Definition rain_beliefs : list float64 := [0.2%float; 0.5%float; 0.3%float].

Lemma rain_beliefs_are_numbers : compare_as_numbers rain_beliefs.
Proof.
  split.
  - intros x y Hx Hy. unfold rain_beliefs in *. each_element;
      vm_compute; intros H; first [reflexivity | discriminate H].
  - intros x y z Hx Hy Hz. unfold rain_beliefs in *. each_element;
      vm_compute; intros H1 H2; first [reflexivity | discriminate H1 | discriminate H2].
Qed.

(** Of the beliefs 0.2, 0.5, 0.3 of the rain the second is the first
    maximum. *)
Lemma first_maximum_of_rain :
  exists i b,
    Node_State rain loaded = (Returns (Z.of_nat i, None), (Node_BeliefList rain loaded).2) /\
    rain_beliefs !! i = Some b /\
    (forall j bj, rain_beliefs !! j = Some bj -> PrimFloat.ltb b bj = false) /\
    (forall j bj, (j < i)%nat -> rain_beliefs !! j = Some bj -> PrimFloat.ltb bj b = true).
Proof.
  refine (State_returns_first_maximum rain loaded (Node_BeliefList rain loaded).2
            rain_beliefs _ _ rain_beliefs_are_numbers).
  - returned_by_computation.
  - discriminate.
Defined.

(** The rain has three state names and no levels. *)
Lemma lists_of_rain :
  length ["Low"; "Medium"; "High"]
  = Z.to_nat (GetNodeNumberStates_bn (Node_c rain) (eng loaded)).1 /\
  match (GetNodeLevels_bn (Node_c rain) (eng loaded)).1 with
  | None => @nil float64 = []
  | Some _ =>
      length (@nil float64) =
        Z.to_nat ((GetNodeNumberStates_bn (Node_c rain) (eng loaded)).1
                  + (if (GetNodeType_bn (Node_c rain) (eng loaded)).1 =? CONTINUOUS_TYPE
                     then 1 else 0))
  end.
Proof.
  split.
  - refine (proj1 (lists_have_one_entry_per_state rain loaded)
              ["Low"; "Medium"; "High"] (Node_StateNameList rain loaded).2 _).
    returned_by_computation.
  - refine (proj2 (lists_have_one_entry_per_state rain loaded)
              [] (Node_LevelList rain loaded).2 _).
    returned_by_computation.
Defined.

(** *** Requests *)

Definition unknown_network : Request := mkRequest "9" "Rain" (inl (mkCaseJSON "q" [])).
Definition unknown_node : Request := mkRequest "0" "Snow" (inl (mkCaseJSON "q" [])).

Lemma not_found_for_unknown :
  postNetNode globals unknown_network loaded = (Returns NotFound, loaded) /\
  exists s',
    postNetNode globals unknown_node loaded = (Returns NotFound, s') /\
    eng s' = eng loaded /\ netlocks s' = netlocks loaded /\ history s' = history loaded.
Proof.
  split.
  - refine (proj1 (postNetNode_not_found globals unknown_network loaded) _).
    vm_compute. reflexivity.
  - refine (proj2 (postNetNode_not_found globals unknown_node loaded) weather_repr net
              _ _ _ _); vm_compute; reflexivity.
Defined.

Definition truncated : Request := mkRequest "0" "Rain" (inr "unexpected EOF").

Lemma undecodable_payload_on_rain :
  exists s',
    postNetNode globals truncated loaded
    = (Returns (InternalServerError "unexpected EOF"), s') /\
    eng s' = eng loaded /\ netlocks s' = netlocks loaded /\ history s' = history loaded.
Proof.
  refine (postNetNode_undecodable_payload globals truncated loaded weather_repr net
            "unexpected EOF" _ _ _ _).
  - vm_compute. reflexivity.
  - vm_compute. reflexivity.
  - vm_compute. discriminate.
  - reflexivity.
Defined.

Definition three_cases : caseJSON := mkCaseJSON "q" cases.
Definition batch_on_rain : Request := mkRequest "0" "Rain" (inl three_cases).

Lemma rain_has_states : has_states (mkNode 10 net).
Proof. intros c. vm_compute. reflexivity. Qed.

Lemma batch_answered_on_rain :
  exists results s',
    postNetNode globals batch_on_rain loaded
    = (Returns (WriteBatch (mkBatchJSON "q" results)), s') /\
    length results = length cases /\
    (forall i single, results !! i = Some single ->
       result_of_case
         (mkNode (GetNodeNamed_bn "Rain" (Network_c net) (eng loaded)).1 net)
         (Z.of_nat i) single) /\
    netlocks s' !! Network_c net = Some free.
Proof.
  refine (postNetNode_answers_batch globals batch_on_rain loaded weather_repr net
            three_cases _ _ _ _ _ _).
  - vm_compute. reflexivity.
  - vm_compute. reflexivity.
  - reflexivity.
  - vm_compute. discriminate.
  - vm_compute. reflexivity.
  - exact rain_has_states.
Defined.

(** Position 1 of the JSON node list, which is sorted by name, is the
    temperature. *)
Definition listed_temp : nodeJSON :=
  default (mkNodeJSON 0 "" "" "" [] []) (netJSON_Nodes weather_repr !! 1%nat).

Definition batch_on_position_1 : Request := mkRequest "0" "1" (inl three_cases).

Lemma position_1_is_temp :
  nodeJSON_Name listed_temp = "Temp" /\
  exists s1,
    eng s1 = eng loaded /\ netlocks s1 = netlocks loaded /\ history s1 = history loaded /\
    postNetNode globals batch_on_position_1 loaded =
      (results <- postNetNode_loop net
                    (mkNode (GetNodeNamed_bn (nodeJSON_Name listed_temp) (Network_c net)
                               (eng loaded)).1 net)
                    0 (caseJSON_Cases three_cases) [] ;;
       ret (WriteBatch (mkBatchJSON (caseJSON_ID three_cases) results))) s1.
Proof.
  split; [vm_compute; reflexivity |].
  refine (postNetNode_by_position globals batch_on_position_1 loaded weather_repr net 1
            listed_temp three_cases _ _ _ _ _ _ _ _).
  - vm_compute. reflexivity.
  - vm_compute. reflexivity.
  - reflexivity.
  - vm_compute. reflexivity.
  - vm_compute. reflexivity.
  - lia.
  - vm_compute. reflexivity.
  - vm_compute. discriminate.
Defined.

(** *** Cases *)

(** The node without states as the target: the case panics, the lock
    stays held, the next case blocks. *)
Lemma panic_on_void :
  netlocks (postNetNode_case net void 0 ∅ loaded).2 !! Network_c net
  = Some held_by_writer /\
  forall node' index' evidence',
    postNetNode_case net node' index' evidence' (postNetNode_case net void 0 ∅ loaded).2
    = (Blocks, (postNetNode_case net void 0 ∅ loaded).2).
Proof.
  refine (panic_leaves_lock_held net void 0 ∅ loaded
            (postNetNode_case net void 0 ∅ loaded).2
            "runtime error: index out of range [0] with length 0" _ _).
  - vm_compute. reflexivity.
  - panics_by_computation.
Defined.

(** A report is pending: the case fails with it. *)
Definition stale : State :=
  mkState (eng loaded) [mkReport 5000 "left over"] (netlocks loaded) [] [].

Lemma stale_report_fails_case :
  exists e s',
    postNetNode_case net rain 0 ∅ stale = (Returns (mkSingleJSON 0 e ""), s') /\
    e <> "" /\ eng s' = eng stale /\ errq s' = [] /\
    netlocks s' !! Network_c net = Some free.
Proof.
  refine (pending_report_fails_the_case net rain 0 ∅ stale _ _).
  - vm_compute. reflexivity.
  - discriminate.
Defined.

Definition weather_nodes : gmap string Node :=
  (returned (∅, None) (Network_NodeMap net loaded).1).1.

Lemma weather_nodes_read :
  Network_NodeMap net loaded = (Returns (weather_nodes, None), (Network_NodeMap net loaded).2).
Proof. returned_by_computation. Qed.

Lemma weather_names name :
  name ∈ (rangeOrder (map_to_list weather_nodes)).*1 ->
  name ∈ ["Rain"; "Temp"; "Wind"; "Void"].
Proof.
  intros Hin.
  replace (rangeOrder (map_to_list weather_nodes)).*1
    with ["Wind"; "Void"; "Rain"; "Temp"] in Hin by (vm_compute; reflexivity).
  each_element; repeat first [apply list_elem_of_here | apply list_elem_of_further].
Qed.

Definition rain_and_snow : gmap string string := {["Rain" := "High"; "Snow" := "deep"]}.
Definition only_rain : gmap string string := {["Rain" := "High"]}.
Definition only_snow : gmap string string := {["Snow" := "deep"]}.

(** Evidence for snow, which is no node of the network, is ignored. *)
Lemma snow_is_ignored :
  Network_EnterCase net rain_and_snow loaded = Network_EnterCase net only_rain loaded /\
  Network_EnterCase net only_snow loaded = (Returns None, (Network_NodeMap net loaded).2) /\
  eng (Network_NodeMap net loaded).2 = eng loaded.
Proof.
  destruct (EnterCase_ignores_unknown_names net loaded (Network_NodeMap net loaded).2
              weather_nodes weather_nodes_read) as [Hagree Hnone].
  split.
  - apply Hagree. intros name Hin. apply weather_names in Hin.
    each_element; vm_compute; reflexivity.
  - apply Hnone. intros name Hin. apply weather_names in Hin.
    each_element; vm_compute; reflexivity.
Defined.

(** The node map of the weather network is keyed by the names of its
    four nodes. *)
Lemma weather_nodes_keyed :
  eng (Network_NodeMap net loaded).2 = eng loaded /\
  (forall name node, weather_nodes !! name = Some node ->
     Net node = net /\
     Node_c node ∈ (GetNetNodes2_bn (Network_c net) (eng loaded)).1 /\
     (GetNodeName_bn (Node_c node) (eng loaded)).1 = name) /\
  (forall cNode, cNode ∈ (GetNetNodes2_bn (Network_c net) (eng loaded)).1 ->
     is_Some (weather_nodes !! (GetNodeName_bn cNode (eng loaded)).1)).
Proof.
  exact (NodeMap_keyed_by_name net loaded (Network_NodeMap net loaded).2 weather_nodes
           weather_nodes_read).
Defined.

Definition weather_list : list Node := [rain; temp; void; wind].

(** The node list of the weather network: Rain, Temp, Void, Wind. *)
Lemma weather_list_sorted :
  exists nodeMap names,
    Network_NodeMap net loaded = (Returns (nodeMap, None), (Network_NodeList net loaded).2) /\
    Sorted name_le names /\
    names ≡ₚ (map_to_list nodeMap).*1 /\
    Forall2 (fun name node => nodeMap !! name = Some node) names weather_list.
Proof.
  refine (NodeList_sorted_by_name net loaded (Network_NodeList net loaded).2 weather_list
            _ _).
  - intros V l. reflexivity.
  - returned_by_computation.
Defined.

(** *** The load pass *)

(** The registry of the walk: Zeta at "0" and Alpha at "1". *)
Lemma walked_registry_keys :
  @None string = None /\
  (forall i n, [zeta; alpha] !! i = Some n -> registry_ab.2 !! Itoa (Z.of_nat i) = Some n) /\
  (forall key n, registry_ab.2 !! key = Some n -> n ∈ [zeta; alpha]).
Proof.
  refine (indexNets_index_keys "nets" walked fresh (indexNets "nets" walked fresh).2
            [zeta; alpha] registry_ab.2 None _).
  returned_by_computation.
Defined.

Definition missing : string := "nets/missing.dne".
Definition no_such_file : string := "open nets/missing.dne: no such file or directory".

(** The directory and a text file are passed over; a network file that
    is not on the disk is logged and passed over. *)
Lemma walk_skips :
  indexNets_visit "nets" registry_a ("nets", Some (mkFileInfo true)) a_named
  = (Returns registry_a, a_named) /\
  indexNets_visit "nets" registry_a ("nets/readme.txt", Some file) a_named
  = (Returns registry_a, a_named) /\
  indexNets_visit "nets" registry_a (missing, Some file) a_named
  = (Returns registry_a,
     mkState (eng (NewNetwork missing a_named).2) (errq (NewNetwork missing a_named).2)
       (netlocks (NewNetwork missing a_named).2)
       (logged (NewNetwork missing a_named).2 ++ [no_such_file])
       (history (NewNetwork missing a_named).2)).
Proof.
  split; [| split].
  - refine (proj1 (indexNets_visit_skips "nets" registry_a "nets" (mkFileInfo true) a_named)
              _).
    left. reflexivity.
  - refine (proj1 (indexNets_visit_skips "nets" registry_a "nets/readme.txt" file a_named)
              _).
    right. split; vm_compute; discriminate.
  - refine (proj2 (indexNets_visit_skips "nets" registry_a missing file a_named)
              None no_such_file (NewNetwork missing a_named).2 _ _).
    + split; [reflexivity | left; vm_compute; reflexivity].
    + returned_by_computation.
Defined.

(** The walk of the directory ends with a nil error; a walk of a
    directory that does not exist panics. *)
Lemma load_pass_ends_or_panics :
  (exists nets_ lookup s',
     indexNets "nets" walked fresh = (Returns (nets_, lookup, None), s')) /\
  (exists msg s', indexNets "nowhere" [("nowhere", None)] fresh = (Panics msg, s')).
Proof.
  split.
  - refine (proj1 (indexNets_ends_or_panics "nets" walked fresh) _).
    repeat constructor; eexists; reflexivity.
  - refine (proj2 (indexNets_ends_or_panics "nowhere" [("nowhere", None)] fresh)
              [] "nowhere" [] _ _).
    + reflexivity.
    + constructor.
Defined.

(** The third state of the rain in its index form. *)
Lemma third_state_by_index :
  Node_EnterFinding rain "#2" = Node_SetState rain 2.
Proof.
  refine (index_form_is_read_back rain 2 _ _).
  - lia.
  - vm_compute. reflexivity.
Defined.

End Station.
